(** * Greengrass provisioning service: a shallow embedding and its properties

    The development follows the C++ sources of the provisioning service:
    - [status/status_reporter.cpp]        (module [Status]),
    - [provisioning/provisioning_checker.cpp] (module [Checker]),
    - [config/config_generator.cpp]       (module [Generator]),
    - [database/config_database.cpp]      (module [Database]),
    - [provisioning/greengrass_provisioner.cpp] (module [Provisioner]),
    - [main.cpp]                          (module [Main]).

    The operating system is modelled by module [Fs]: a table from paths to
    nodes with POSIX permission bits, on which the [std::filesystem] and
    [fstream] calls of the sources are defined.  Library functions whose
    text is not part of the repository (JSON parsing and printing, the
    calendar formatting of a time stamp) are collected in the class
    [Externals]. *)

From Stdlib Require Import ZArith NArith String Ascii List Lia Bool.
From stdpp Require Import base option list gmap strings pretty.

Local Open Scope string_scope.
Local Open Scope list_scope.

(** ** Strings *)

Module Str.

(** [s] begins with [pat]. *)
Fixpoint starts_with (pat s : string) : bool :=
  match pat, s with
  | EmptyString, _ => true
  | String _ _, EmptyString => false
  | String a pat', String b s' => Ascii.eqb a b && starts_with pat' s'
  end.

(** [s.find(pat) != std::string::npos] *)
Fixpoint contains (pat s : string) : bool :=
  starts_with pat s ||
  match s with
  | EmptyString => false
  | String _ s' => contains pat s'
  end.

(** Cut [s] at every occurrence of [sep]; the pieces may be empty. *)
Fixpoint split_on (sep : ascii) (s : string) : list string :=
  match s with
  | EmptyString => [EmptyString]
  | String c r =>
      if Ascii.eqb c sep then EmptyString :: split_on sep r
      else match split_on sep r with
           | h :: t => String c h :: t
           | [] => [String c EmptyString]
           end
  end.

Definition is_empty (s : string) : bool :=
  match s with EmptyString => true | _ => false end.

(** The characters of [s] without any occurrence of [c]
    ([std::remove] followed by [erase]). *)
Fixpoint remove_char (c : ascii) (s : string) : string :=
  match s with
  | EmptyString => EmptyString
  | String a r =>
      if Ascii.eqb a c then remove_char c r else String a (remove_char c r)
  end.

(** [std::getline(stream, line)] on a fresh stream: the text before the
    first newline. *)
Fixpoint first_line (s : string) : string :=
  match s with
  | EmptyString => EmptyString
  | String a r =>
      if Ascii.eqb a "010"%char then EmptyString else String a (first_line r)
  end.

(** The last character of [s]. *)
Fixpoint last_char (s : string) : option ascii :=
  match s with
  | EmptyString => None
  | String c EmptyString => Some c
  | String _ r => last_char r
  end.

(** Characters matched by [\s] in the regular expressions of the sources. *)
Definition is_space (c : ascii) : bool :=
  let n := N_of_ascii c in
  ((n =? 32) || ((9 <=? n) && (n <=? 13)))%N.

Fixpoint skip_spaces (s : string) : string :=
  match s with
  | EmptyString => EmptyString
  | String c r => if is_space c then skip_spaces r else s
  end.

Fixpoint take_token (s : string) : string :=
  match s with
  | EmptyString => EmptyString
  | String c r => if is_space c then EmptyString else String c (take_token r)
  end.

(** The one-character texts of a line feed and of a double quote. *)
Definition nl : string := String "010"%char EmptyString.
Definition dq : string := String "034"%char EmptyString.

(** The lines of a text, each closed by a line feed. *)
Definition lines (l : list string) : string :=
  fold_right (λ line acc, line +:+ nl +:+ acc) EmptyString l.

(** [s] between double quotes. *)
Definition quoted (s : string) : string := dq +:+ s +:+ dq.

Fixpoint drop (n : nat) (s : string) : string :=
  match n, s with
  | O, _ => s
  | S n', String _ r => drop n' r
  | S _, EmptyString => EmptyString
  end.

(** The byte [c] lies between [lo] and [hi]. *)
Definition byte_in (lo hi : N) (c : ascii) : bool :=
  ((lo <=? N_of_ascii c) && (N_of_ascii c <=? hi))%N.

(** [s] is well-formed UTF-8: what the decoder of the JSON printer
    accepts.  Overlong forms, surrogates, code points above U+10FFFF and
    a sequence cut short at the end are refused. *)
Fixpoint utf8_valid (s : string) : bool :=
  match s with
  | EmptyString => true
  | String b r =>
      if byte_in 0 127 b then utf8_valid r
      else if byte_in 194 223 b then
        match r with
        | String c1 r1 => byte_in 128 191 c1 && utf8_valid r1
        | _ => false
        end
      else if byte_in 224 239 b then
        match r with
        | String c1 (String c2 r2) =>
            (if byte_in 224 224 b then byte_in 160 191 c1
             else if byte_in 237 237 b then byte_in 128 159 c1
             else byte_in 128 191 c1)
            && byte_in 128 191 c2 && utf8_valid r2
        | _ => false
        end
      else if byte_in 240 244 b then
        match r with
        | String c1 (String c2 (String c3 r3)) =>
            (if byte_in 240 240 b then byte_in 144 191 c1
             else if byte_in 244 244 b then byte_in 128 143 c1
             else byte_in 128 191 c1)
            && byte_in 128 191 c2 && byte_in 128 191 c3 && utf8_valid r3
        | _ => false
        end
      else false
  end.

End Str.

(** ** Calls that change a state and may raise a C++ exception *)

Inductive outcome (A : Type) : Type :=
| Returned (a : A)
| Thrown (what : string).
Arguments Returned {A} a.
Arguments Thrown {A} what.

(** A computation over a state [S]: it ends by returning a value or by
    throwing [std::exception] with a [what()] text, and in both cases
    leaves a state behind. *)
Definition M (S A : Type) : Type := S → outcome A * S.

Definition ret {S A} (a : A) : M S A := λ s, (Returned a, s).

Definition bind {S A B} (m : M S A) (k : A → M S B) : M S B :=
  λ s, match m s with
       | (Returned a, s') => k a s'
       | (Thrown e, s') => (Thrown e, s')
       end.

Definition throw {S A} (what : string) : M S A := λ s, (Thrown what, s).

(** [try { m } catch (const std::exception& e) { h(e.what()) }] *)
Definition try_catch {S A} (m : M S A) (h : string → M S A) : M S A :=
  λ s, match m s with
       | (Returned a, s') => (Returned a, s')
       | (Thrown e, s') => h e s'
       end.

Definition gets {S A} (f : S → A) : M S A := λ s, (Returned (f s), s).
Definition modify {S} (f : S → S) : M S () := λ s, (Returned (), f s).

(** A call that reads the state and may throw. *)
Definition reads {S A} (f : S → outcome A) : M S A := λ s, (f s, s).

Notation "x <- m ;; k" := (bind m (λ x, k))
  (at level 100, m at next level, right associativity,
   format "'[v' x  <-  m  ;;  '/' k ']'").
Notation "m ;;; k" := (bind m (λ _, k))
  (at level 100, right associativity,
   format "'[v' m  ;;;  '/' k ']'").

(** ** The file system *)

Module Fs.

(** [std::filesystem::perms]: the nine POSIX permission bits. *)
Definition perms := N.
Definition owner_read   : perms := 256%N.  (* 0400 *)
Definition owner_write  : perms := 128%N.  (* 0200 *)
Definition owner_exec   : perms := 64%N.   (* 0100 *)
Definition owner_all    : perms := 448%N.  (* 0700 *)
Definition group_read   : perms := 32%N.   (* 040 *)
Definition group_write  : perms := 16%N.   (* 020 *)
Definition group_exec   : perms := 8%N.    (* 010 *)
Definition group_all    : perms := 56%N.   (* 070 *)
Definition others_read  : perms := 4%N.    (* 04 *)
Definition others_write : perms := 2%N.    (* 02 *)
Definition others_exec  : perms := 1%N.    (* 01 *)
Definition others_all   : perms := 7%N.    (* 07 *)

Definition has_bit (m b : perms) : bool := negb (N.land m b =? 0)%N.

(** A path is the list of its components, from the top directory.
    Relative and absolute spellings are both resolved from the top, the
    directory in which the service runs; the model is meant for texts
    that are not empty and, as there are no links, have no [".."]. *)
Abbreviation path := (list string).

(** A component list from the text of a path: cut at ['/'], drop
    empty pieces and ["."].  A [".."] piece is kept as an ordinary name,
    which no directory contains. *)
Definition keep_component (c : string) : bool :=
  negb (Str.is_empty c) && negb (String.eqb c ".").

Definition path_of_string (s : string) : path :=
  List.filter keep_component (Str.split_on "/"%char s).

Definition is_absolute (s : string) : bool := Str.starts_with "/" s.

(** [p / s] of [std::filesystem::path]: an absolute right operand
    replaces the left one. *)
Definition join (p : path) (s : string) : path :=
  if is_absolute s then path_of_string s else p ++ path_of_string s.

(** [p.filename()] and [p.parent_path()] *)
Definition filename (p : path) : string := default EmptyString (last p).
Definition parent_path (p : path) : path := removelast p.

(** The text from the last ['.'] of [s], when there is one. *)
Fixpoint from_last_dot (s : string) : option string :=
  match s with
  | EmptyString => None
  | String c r =>
      match from_last_dot r with
      | Some e => Some e
      | None => if Ascii.eqb c "."%char then Some (String c r) else None
      end
  end.

(** [p.extension()]: empty for [".."] and for a name whose only dot is
    its first character. *)
Definition extension (p : path) : string :=
  match filename p with
  | EmptyString => EmptyString
  | String c r =>
      if String.eqb (String c r) ".." then EmptyString
      else default EmptyString (from_last_dot r)
  end.

(** [p.string()] *)
Definition to_string (p : path) : string :=
  fold_right (λ c acc, "/" +:+ c +:+ acc) EmptyString p.

(** A node carries its permission bits and whether the running process
    owns it.  The process is an unprivileged user: it reaches a node it
    owns through the owner bits and any other node through the "others"
    bits, and it may change the bits of its own nodes only.  Search
    permission on directories is not modelled. *)
Inductive node : Type :=
| File (content : string) (mode : perms) (mine : bool)
| Dir (mode : perms) (mine : bool).

Definition node_mode (n : node) : perms :=
  match n with File _ m _ => m | Dir m _ => m end.
Definition node_mine (n : node) : bool :=
  match n with File _ _ o => o | Dir _ o => o end.
Definition set_mode (m : perms) (n : node) : node :=
  match n with File c _ o => File c m o | Dir _ o => Dir m o end.

Definition can_read (n : node) : bool :=
  has_bit (node_mode n) (if node_mine n then owner_read else others_read).
Definition can_write (n : node) : bool :=
  has_bit (node_mode n) (if node_mine n then owner_write else others_write).

Record filesystem : Type := {
  nodes : gmap (list string) node;
  umask : perms
}.

Definition with_nodes (fs : filesystem) (m : gmap (list string) node)
  : filesystem :=
  {| nodes := m; umask := umask fs |}.

(** [std::filesystem::exists], [is_directory], [is_regular_file], for
    a path within the limits of the system for names, on a way that the
    process may search: the errors that the calls throw otherwise are
    not followed. *)
Definition exists_ (fs : filesystem) (p : path) : bool :=
  match nodes fs !! p with Some _ => true | None => false end.
Definition is_directory (fs : filesystem) (p : path) : bool :=
  match nodes fs !! p with Some (Dir _ _) => true | _ => false end.
Definition is_regular_file (fs : filesystem) (p : path) : bool :=
  match nodes fs !! p with Some (File _ _ _) => true | _ => false end.

(** The entries directly below [d], as (name, node) pairs. *)
Definition entry_of (d : path) (kn : list string * node)
  : option (string * node) :=
  match last kn.1 with
  | Some name =>
      if decide (removelast kn.1 = d) then Some (name, kn.2) else None
  | None => None
  end.

Definition children (fs : filesystem) (d : path) : list (string * node) :=
  omap (entry_of d) (map_to_list (nodes fs)).

(** [std::filesystem::directory_iterator(d)] *)
Definition directory_iterator (fs : filesystem) (d : path)
  : outcome (list (string * node)) :=
  match nodes fs !! d with
  | Some (Dir m o) =>
      if can_read (Dir m o) then Returned (children fs d)
      else Thrown "Permission denied"
  | Some (File _ _ _) => Thrown "Not a directory"
  | None => Thrown "No such file or directory"
  end.

(** [std::filesystem::is_empty] *)
Definition is_empty (fs : filesystem) (p : path) : outcome bool :=
  match nodes fs !! p with
  | Some (Dir m o) =>
      match directory_iterator fs p with
      | Returned l => Returned (match l with [] => true | _ => false end)
      | Thrown e => Thrown e
      end
  | Some (File c _ _) => Returned (Str.is_empty c)
  | None => Thrown "No such file or directory"
  end.

(** [std::ifstream file(p)]: [None] when [is_open()] is false.  A
    directory opens, as it does on Linux. *)
Inductive stream : Type :=
| Chars (content : string)
| DirStream.

Definition ifstream (fs : filesystem) (p : path) : option stream :=
  match nodes fs !! p with
  | Some (File c m o) => if can_read (File c m o) then Some (Chars c) else None
  | Some (Dir m o) => if can_read (Dir m o) then Some DirStream else None
  | None => None
  end.

(** [std::string((std::istreambuf_iterator<char>(file)),
    std::istreambuf_iterator<char>())] on an open stream.  Reading a
    directory fails, and the stream buffer of libstdc++ throws
    [std::ios_base::failure]. *)
Definition read_all (f : stream) : outcome string :=
  match f with
  | Chars c => Returned c
  | DirStream => Thrown "basic_filebuf::underflow error reading the file"
  end.

(** [std::getline(file, line)] on an open stream: the stream catches
    the failure of its buffer and leaves the line empty. *)
Definition getline (f : stream) : string :=
  match f with
  | Chars c => Str.first_line c
  | DirStream => EmptyString
  end.

(** [std::ofstream file(p); file << content; file.close()]: the result
    is [file.is_open()].  An existing file is truncated and keeps its
    mode and owner; a new file is created in an existing, writable
    directory with mode [0666 & ~umask]. *)
Definition ofstream (p : path) (content : string) : M filesystem bool :=
  λ fs,
  match nodes fs !! p with
  | Some (File c m o) =>
      if can_write (File c m o)
      then (Returned true,
            with_nodes fs (<[p := File content m o]> (nodes fs)))
      else (Returned false, fs)
  | Some (Dir _ _) => (Returned false, fs)
  | None =>
      match p, nodes fs !! parent_path p with
      | _ :: _, Some (Dir m o) =>
          if can_write (Dir m o)
          then (Returned true,
                with_nodes fs
                  (<[p := File content (N.ldiff 438%N (umask fs)) true]>
                     (nodes fs)))
          else (Returned false, fs)
      | _, _ => (Returned false, fs)
      end
  end.

(** [std::filesystem::create_directories(done / todo)], the components
    of [done] being known to be directories.  A missing component is
    created with mode [0777 & ~umask]. *)
Fixpoint mkdirs (done : path) (todo : list string) (fs : filesystem)
  : outcome () * filesystem :=
  match todo with
  | [] => (Returned (), fs)
  | c :: rest =>
      let q := done ++ [c] in
      match nodes fs !! q with
      | Some (Dir _ _) => mkdirs q rest fs
      | Some (File _ _ _) => (Thrown "Not a directory", fs)
      | None =>
          match nodes fs !! done with
          | Some (Dir m o) =>
              if can_write (Dir m o)
              then mkdirs q rest
                     (with_nodes fs
                        (<[q := Dir (N.ldiff 511%N (umask fs)) true]>
                           (nodes fs)))
              else (Thrown "Permission denied", fs)
          | Some (File _ _ _) => (Thrown "Not a directory", fs)
          | None => (Thrown "No such file or directory", fs)
          end
      end
  end.

Definition create_directories (p : path) : M filesystem () :=
  λ fs,
  match nodes fs !! [] with
  | Some (Dir _ _) => mkdirs [] p fs
  | Some (File _ _ _) => (Thrown "Not a directory", fs)
  | None => (Thrown "No such file or directory", fs)
  end.

(** [std::filesystem::permissions(p, m, perm_options::replace)] *)
Definition permissions (p : path) (m : perms) : M filesystem () :=
  λ fs,
  match nodes fs !! p with
  | Some n =>
      if node_mine n
      then (Returned (),
            with_nodes fs (<[p := set_mode m n]> (nodes fs)))
      else (Thrown "Operation not permitted", fs)
  | None => (Thrown "No such file or directory", fs)
  end.

(** [std::filesystem::rename(src, dst)] for a regular file [src], as
    the sources call it: the file replaces a regular file at [dst] or is
    entered in the directory of [dst]; both directories must be
    writable.  Moving a directory is outside the model. *)
Definition rename (src dst : path) : M filesystem () :=
  λ fs,
  match nodes fs !! src, nodes fs !! parent_path src,
        nodes fs !! parent_path dst with
  | Some (File c m o), Some (Dir sm so), Some (Dir dm do) =>
      if can_write (Dir sm so) && can_write (Dir dm do) then
        match dst, nodes fs !! dst with
        | _, Some (Dir _ _) => (Thrown "Is a directory", fs)
        | [], _ => (Thrown "Invalid argument", fs)
        | _, _ =>
            (Returned (),
             with_nodes fs
               (<[dst := File c m o]> (delete src (nodes fs))))
        end
      else (Thrown "Permission denied", fs)
  | Some (File _ _ _), _, _ => (Thrown "No such file or directory", fs)
  | Some (Dir _ _), _, _ => (Thrown "Directory rename is not supported", fs)
  | None, _, _ => (Thrown "No such file or directory", fs)
  end.

End Fs.

(** ** JSON values (nlohmann::json) *)

Module Json.

#[local] Unset Elimination Schemes.
Inductive json : Type :=
| JNull
| JBool (b : bool)
| JNumber (z : Z)
| JString (s : string)
| JArray (items : list json)
| JObject (fields : list (string * json)).
#[local] Set Elimination Schemes.

Definition has_key (k : string) (fields : list (string * json)) : bool :=
  existsb (λ kv, String.eqb kv.1 k) fields.

(** [j.contains(k)]: false on anything but an object. *)
Definition contains (j : json) (k : string) : bool :=
  match j with
  | JObject fields => has_key k fields
  | _ => false
  end.

(** [j[k]] on a value known to contain [k]. *)
Definition get (j : json) (k : string) : option json :=
  match j with
  | JObject fields =>
      snd <$> List.find (λ kv, String.eqb kv.1 k) fields
  | _ => None
  end.

(** [j[k] = v] on an object: the value of [k] is replaced or added. *)
Definition set_field (k : string) (v : json) (fields : list (string * json))
  : list (string * json) :=
  if has_key k fields
  then List.map (λ kv, if String.eqb kv.1 k then (k, v) else kv) fields
  else fields ++ [(k, v)].

Definition set (k : string) (v : json) (j : json) : json :=
  match j with
  | JObject fields => JObject (set_field k v fields)
  | JNull => JObject [(k, v)]
  | other => other
  end.

(** Every string and key of the document is well-formed UTF-8;
    [dump] throws [type_error.316] on a document that is not. *)
Fixpoint well_encoded (j : json) : bool :=
  match j with
  | JString s => Str.utf8_valid s
  | JArray items => forallb well_encoded items
  | JObject fields =>
      forallb (λ kv, let '(k, v) := kv in
                     Str.utf8_valid k && well_encoded v) fields
  | _ => true
  end.

End Json.

(** ** Library functions taken as parameters *)

Class Externals : Type := {
  (** [nlohmann::json::dump(indent)] of a document that is
      [Json.well_encoded] *)
  json_dump : nat → Json.json → string;
  (** [nlohmann::json::parse]: [None] when it throws [parse_error] *)
  json_parse : string → option Json.json;
  (** [std::put_time(std::gmtime(&t), "%Y-%m-%dT%H:%M:%SZ")] of a time
      in seconds since the epoch *)
  put_time_utc : Z → string
}.

(** ** status/status_reporter.{h,cpp} *)

Module Status.
Import Json.

Inductive ServiceStatus : Type :=
| STARTING
| CHECKING_PROVISIONING
| ALREADY_PROVISIONED
| CHECKING_CONNECTIVITY
| NO_CONNECTIVITY
| READING_DATABASE
| GENERATING_CONFIG
| PROVISIONING
| COMPLETED
| ERROR.

#[global] Instance ServiceStatus_eq_dec : EqDecision ServiceStatus.
Proof. solve_decision. Defined.

Record StatusInfo : Type := {
  status : ServiceStatus;
  message : string;
  timestamp : Z;
  progress_percentage : Z;
  error_details : string
}.

(** The reporter object; the status file itself lives in the file
    system. *)
Record StatusReporter : Type := {
  status_file_path_ : string;
  current_status_ : StatusInfo
}.

(** State of the methods: the object and the file system it writes. *)
Record state : Type := {
  reporter : StatusReporter;
  fs : Fs.filesystem
}.

Definition with_status (f : StatusInfo → StatusInfo) (s : state) : state :=
  {| reporter := {| status_file_path_ := status_file_path_ (reporter s);
                    current_status_ := f (current_status_ (reporter s)) |};
     fs := fs s |}.

Definition in_fs {A} (m : M Fs.filesystem A) : M state A :=
  λ s, let '(r, fs') := m (fs s) in
       (r, {| reporter := reporter s; fs := fs' |}).

Definition status_to_string (st : ServiceStatus) : string :=
  match st with
  | STARTING => "STARTING"
  | CHECKING_PROVISIONING => "CHECKING_PROVISIONING"
  | ALREADY_PROVISIONED => "ALREADY_PROVISIONED"
  | CHECKING_CONNECTIVITY => "CHECKING_CONNECTIVITY"
  | NO_CONNECTIVITY => "NO_CONNECTIVITY"
  | READING_DATABASE => "READING_DATABASE"
  | GENERATING_CONFIG => "GENERATING_CONFIG"
  | PROVISIONING => "PROVISIONING"
  | COMPLETED => "COMPLETED"
  | ERROR => "ERROR"
  end.

(** The first [switch] of [update_status]: the message stored when the
    caller passes an empty one. *)
Definition default_message (st : ServiceStatus) : string :=
  match st with
  | STARTING => "Service is starting"
  | CHECKING_PROVISIONING => "Checking if Greengrass is already provisioned"
  | ALREADY_PROVISIONED => "Greengrass is already provisioned"
  | CHECKING_CONNECTIVITY => "Checking internet connectivity"
  | NO_CONNECTIVITY => "No internet connectivity available"
  | READING_DATABASE => "Reading configuration from database"
  | GENERATING_CONFIG => "Generating Greengrass configuration"
  | PROVISIONING => "Provisioning Greengrass device"
  | COMPLETED => "Provisioning completed successfully"
  | ERROR => "An error occurred during provisioning"
  end.

(** The second [switch] of [update_status]: the progress stored when
    the caller's value is outside 0..100; [current] is the progress
    stored so far. *)
Definition auto_progress (st : ServiceStatus) (current : Z) : Z :=
  match st with
  | STARTING => 5
  | CHECKING_PROVISIONING => 10
  | ALREADY_PROVISIONED | COMPLETED => 100
  | CHECKING_CONNECTIVITY => 20
  | NO_CONNECTIVITY => 20
  | READING_DATABASE => 40
  | GENERATING_CONFIG => 60
  | PROVISIONING => 80
  | ERROR => current
  end%Z.

Section WithExternals.
Context `{Externals}.

(** The JSON object built by [write_status_file]. *)
Definition status_json (s : StatusInfo) : json :=
  let status_json :=
    JObject [ ("status", JString (status_to_string (status s)));
              ("message", JString (message s));
              ("timestamp", JString (put_time_utc (timestamp s)));
              ("progress_percentage", JNumber (progress_percentage s)) ] in
  if negb (Str.is_empty (error_details s))
  then Json.set "error_details" (JString (error_details s)) status_json
  else status_json.

Definition status_file_perms : Fs.perms :=
  N.lor (N.lor Fs.owner_read Fs.owner_write)
        (N.lor Fs.group_read Fs.others_read).

(** [write_status_file]: every [std::exception] is caught and logged.
    When a string of the document is not UTF-8, [dump] throws after the
    temporary file was opened: the file is left there, empty. *)
Definition write_status_file : M state () :=
  try_catch
    (r <- gets reporter ;;
     let status_json := status_json (current_status_ r) in
     let temp_file := status_file_path_ r +:+ ".tmp" in
     if Json.well_encoded status_json then
       is_open <- in_fs (Fs.ofstream (Fs.path_of_string temp_file)
                           (json_dump 4 status_json +:+ Str.nl)) ;;
       if is_open : bool then
         in_fs (Fs.rename (Fs.path_of_string temp_file)
                  (Fs.path_of_string (status_file_path_ r))) ;;;
         in_fs (Fs.permissions (Fs.path_of_string (status_file_path_ r))
                  status_file_perms)
       else ret ()
     else
       is_open <- in_fs (Fs.ofstream (Fs.path_of_string temp_file)
                           EmptyString) ;;
       if is_open : bool then
         throw "[json.exception.type_error.316] invalid UTF-8 byte"
       else ret ())
    (λ _, ret ()).

(** The constructor; [create_directories] is not guarded. *)
Definition make (now : Z) (status_file_path : string)
  : M Fs.filesystem StatusReporter :=
  λ fs0,
  let r := {| status_file_path_ := status_file_path;
              current_status_ :=
                {| status := STARTING;
                   message := "Service is starting";
                   timestamp := now;
                   progress_percentage := 0;
                   error_details := EmptyString |} |} in
  match Fs.create_directories
          (Fs.parent_path (Fs.path_of_string status_file_path)) fs0 with
  | (Returned _, fs1) =>
      match write_status_file {| reporter := r; fs := fs1 |} with
      | (Returned _, s) => (Returned (reporter s), fs s)
      | (Thrown e, s) => (Thrown e, fs s)
      end
  | (Thrown e, fs1) => (Thrown e, fs1)
  end.

Definition update_status (now : Z) (st : ServiceStatus)
    (msg : string) (progress : Z) : M state () :=
  modify (with_status (λ cur,
    {| status := st;
       timestamp := now;
       message := if negb (Str.is_empty msg) then msg
                  else default_message st;
       progress_percentage :=
         if (0 <=? progress)%Z && (progress <=? 100)%Z then progress
         else auto_progress st (progress_percentage cur);
       error_details :=
         if decide (st ≠ ERROR) then EmptyString else error_details cur |})) ;;;
  write_status_file.

Definition report_error (now : Z) (error_message details : string)
  : M state () :=
  modify (with_status (λ cur,
    {| status := ERROR;
       message := error_message;
       error_details := details;
       timestamp := now;
       progress_percentage := progress_percentage cur |})) ;;;
  write_status_file.

Definition get_current_status : M state StatusInfo :=
  gets (λ s, current_status_ (reporter s)).

End WithExternals.

End Status.

(** ** database/config_database.{h,cpp} *)

Module Database.

Record DeviceConfig : Type := {
  device_id : string;
  thing_name : string;
  iot_endpoint : string;
  aws_region : string;
  root_ca_path : string;
  certificate_pem : string;
  private_key_pem : string;
  role_alias : string;
  role_alias_endpoint : string;
  nucleus_version : string;
  deployment_group : string;
  initial_components : list string;
  proxy_url : option string;
  mqtt_port : option Z;
  custom_domain : option string
}.

(** A row of table [device_config]; [None] is SQL [NULL]. *)
Record device_config_row : Type := {
  col_device_id : option string;
  col_thing_name : option string;
  col_iot_endpoint : option string;
  col_aws_region : option string;
  col_root_ca_path : option string;
  col_certificate_pem : option string;
  col_private_key_pem : option string;
  col_role_alias : option string;
  col_role_alias_endpoint : option string;
  col_nucleus_version : option string;
  col_deployment_group : option string;
  col_initial_components : option string;
  col_proxy_url : option string;
  (** as [sqlite3_column_int64] gives it *)
  col_mqtt_port : option Z;
  col_custom_domain : option string
}.

(** A row of table [device_identifiers]. *)
Record device_identifier_row : Type := {
  id_mac_address : option string;
  id_serial_number : option string;
  id_device_id : option string
}.

(** What an open SQLite handle gives access to; a table that does not
    exist makes [sqlite3_prepare_v2] fail.  Of the error texts the fixed
    part is kept, without the text of [sqlite3_errmsg] that follows it.
    The queries are built by putting a text between quotes: for a text
    with a quote or a NUL character the statement is another one, and
    what the engine then answers is taken from the handle: [None] when
    the statement does not prepare, and otherwise the row that
    [sqlite3_step] gives, if any (for the second query, its only
    column). *)
Record sqlite3 : Type := {
  device_config : option (list device_config_row);
  device_identifiers : option (list device_identifier_row);
  spliced_device_config : string → option (option device_config_row);
  spliced_identifier : string → option (option (option string))
}.

Record ConfigDatabase : Type := {
  database_path_ : string;
  db_ : option sqlite3;
  last_error_ : string
}.

Definition with_error (e : string) (d : ConfigDatabase) : ConfigDatabase :=
  {| database_path_ := database_path_ d; db_ := db_ d; last_error_ := e |}.

Definition make (database_path : string) : ConfigDatabase :=
  {| database_path_ := database_path; db_ := None; last_error_ := EmptyString |}.

(** [connect]; [sqlite3_open] is the environment's answer for the path
    of the object. *)
Definition connect (sqlite3_open : string → option sqlite3)
  : M ConfigDatabase bool :=
  λ d,
  match db_ d with
  | Some _ => (Returned true, d)
  | None =>
      match sqlite3_open (database_path_ d) with
      | Some h =>
          (Returned true,
           {| database_path_ := database_path_ d; db_ := Some h;
              last_error_ := last_error_ d |})
      | None =>
          (Returned false, with_error "Cannot open database" d)
      end
  end.

Definition disconnect : M ConfigDatabase () :=
  modify (λ d, {| database_path_ := database_path_ d; db_ := None;
                  last_error_ := last_error_ d |}).

Definition is_connected (d : ConfigDatabase) : bool :=
  match db_ d with Some _ => true | None => false end.

Definition get_text (col : option string) : string := default EmptyString col.

(** The [while (std::getline(ss, component, ','))] loop. *)
Definition parse_components (col : option string) : list string :=
  match col with
  | Some s => List.filter (λ c, negb (Str.is_empty c)) (Str.split_on ","%char s)
  | None => []
  end.

(** [sqlite3_column_int]: the low 32 bits of the column, as a signed
    number. *)
Definition column_int (z : Z) : Z :=
  ((z + 2147483648) mod 4294967296 - 2147483648)%Z.

(** A text that stands for itself between the quotes of an SQL string
    literal: it has no quote, and no NUL, where the query text given to
    [sqlite3_prepare_v2] would end. *)
Definition plain_literal (s : string) : bool :=
  negb (Str.contains "'" s)
  && negb (Str.contains (String "000"%char EmptyString) s).

Definition config_of_row (r : device_config_row) : DeviceConfig :=
  {| device_id := get_text (col_device_id r);
     thing_name := get_text (col_thing_name r);
     iot_endpoint := get_text (col_iot_endpoint r);
     aws_region := get_text (col_aws_region r);
     root_ca_path := get_text (col_root_ca_path r);
     certificate_pem := get_text (col_certificate_pem r);
     private_key_pem := get_text (col_private_key_pem r);
     role_alias := get_text (col_role_alias r);
     role_alias_endpoint := get_text (col_role_alias_endpoint r);
     nucleus_version := get_text (col_nucleus_version r);
     deployment_group := get_text (col_deployment_group r);
     initial_components := parse_components (col_initial_components r);
     proxy_url := col_proxy_url r;
     mqtt_port := column_int <$> col_mqtt_port r;
     custom_domain := col_custom_domain r |}.

(** [SELECT ... FROM device_config WHERE device_id = '<id>' LIMIT 1]
    for an [id] that is a plain literal; [rows] are the rows of the
    table in the order in which the engine visits them. *)
Definition select_device_config (rows : list device_config_row)
    (id : string) : option device_config_row :=
  List.find (λ r, bool_decide (col_device_id r = Some id)) rows.

(** [SELECT device_id FROM device_identifiers WHERE mac_address = '<x>'
    OR serial_number = '<x>' LIMIT 1] for an [x] that is a plain
    literal *)
Definition select_identifier (rows : list device_identifier_row)
    (x : string) : option device_identifier_row :=
  List.find (λ r, bool_decide (id_mac_address r = Some x)
                  || bool_decide (id_serial_number r = Some x)) rows.

Definition get_device_config (id : string)
  : M ConfigDatabase (option DeviceConfig) :=
  λ d,
  match db_ d with
  | None => (Returned None, with_error "Database not connected" d)
  | Some h =>
      match device_config h with
      | None => (Returned None, with_error "Failed to prepare statement" d)
      | Some rows =>
          if plain_literal id then
            (Returned (config_of_row <$> select_device_config rows id), d)
          else
            match spliced_device_config h id with
            | None =>
                (Returned None, with_error "Failed to prepare statement" d)
            | Some row => (Returned (config_of_row <$> row), d)
            end
      end
  end.

Definition get_device_config_by_identifier (identifier : string)
  : M ConfigDatabase (option DeviceConfig) :=
  λ d,
  match db_ d with
  | None => (Returned None, with_error "Database not connected" d)
  | Some h =>
      match device_identifiers h with
      | None =>
          (Returned None,
           with_error "Failed to prepare identifier lookup" d)
      | Some rows =>
          let stepped :=
            if plain_literal identifier
            then Some (id_device_id <$> select_identifier rows identifier)
            else spliced_identifier h identifier in
          match stepped with
          | None =>
              (Returned None,
               with_error "Failed to prepare identifier lookup" d)
          | Some row =>
              let device_id :=
                match row with
                | Some id_text => get_text id_text
                | None => EmptyString
                end in
              if Str.is_empty device_id then (Returned None, d)
              else get_device_config device_id d
          end
      end
  end.

Definition get_last_error (d : ConfigDatabase) : string := last_error_ d.

End Database.

(** ** provisioning/provisioning_checker.{h,cpp} *)

Module Checker.
Import Json.

Record ProvisioningStatus : Type := {
  is_provisioned : bool;
  greengrass_version : string;
  thing_name : string;
  config_file_path : string;
  missing_components : list string;
  details : string
}.

Record ProvisioningChecker : Type := {
  greengrass_path_ : Fs.path;
  config_path_ : Fs.path;
  certs_path_ : Fs.path;
  ggc_root_path_ : Fs.path
}.

Definition make (greengrass_path : string) : ProvisioningChecker :=
  let p := Fs.path_of_string greengrass_path in
  {| greengrass_path_ := p;
     config_path_ := Fs.join p "config";
     certs_path_ := Fs.join p "certs";
     ggc_root_path_ := Fs.join p "ggc-root" |}.

(** [fmt::join(items, ", ")] *)
Fixpoint join_comma (items : list string) : string :=
  match items with
  | [] => EmptyString
  | [x] => x
  | x :: rest => x +:+ ", " +:+ join_comma rest
  end.

(** [std::regex_search(content, m, "thingName:\s*([^\s\n]+)")]: the
    first group of the leftmost match. *)
Definition thing_name_here (s : string) : option string :=
  if Str.starts_with "thingName:" s then
    let token := Str.take_token (Str.skip_spaces (Str.drop 10 s)) in
    if Str.is_empty token then None else Some token
  else None.

Fixpoint thing_name_regex_search (s : string) : option string :=
  match thing_name_here s with
  | Some token => Some token
  | None =>
      match s with
      | EmptyString => None
      | String _ r => thing_name_regex_search r
      end
  end.

Section WithExternals.
Context `{Externals}.
Variable self : ProvisioningChecker.
Variable fs : Fs.filesystem.

Definition possible_configs : list Fs.path :=
  [ Fs.join (config_path_ self) "config.yaml";
    Fs.join (config_path_ self) "config.yml";
    Fs.join (config_path_ self) "config.json" ].

Definition check_config_exists : bool :=
  let yaml_config := Fs.join (config_path_ self) "config.yaml" in
  let yml_config := Fs.join (config_path_ self) "config.yml" in
  let json_config := Fs.join (config_path_ self) "config.json" in
  Fs.exists_ fs yaml_config || Fs.exists_ fs yml_config
  || Fs.exists_ fs json_config.

Definition check_directory_not_empty (dir : Fs.path) : bool :=
  if Fs.exists_ fs dir then
    match Fs.is_empty fs dir with
    | Returned b => negb b
    | Thrown _ => false
    end
  else false.

(** The body of the loop over the entries of the certificate
    directory: the two flags after the entries seen. *)
Definition scan_entry (flags : bool * bool) (entry : string * Fs.node)
  : bool * bool :=
  match entry.2 with
  | Fs.File _ _ _ =>
      let filename := entry.1 in
      (flags.1 || Str.contains ".cert.pem" filename
               || Str.contains ".crt" filename,
       flags.2 || Str.contains ".private.key" filename
               || Str.contains ".key" filename)
  | Fs.Dir _ _ => flags
  end.

Definition check_certificates_exist : outcome bool :=
  if negb (Fs.exists_ fs (certs_path_ self)) then Returned false
  else
    let has_certs := check_directory_not_empty (certs_path_ self) in
    if has_certs then
      match Fs.directory_iterator fs (certs_path_ self) with
      | Returned entries =>
          let '(found_cert, found_key) :=
            fold_left scan_entry entries (false, false) in
          Returned (found_cert && found_key)
      | Thrown e => Thrown e
      end
    else Returned has_certs.

Definition check_greengrass_root_exists : bool :=
  Fs.exists_ fs (ggc_root_path_ self)
  && Fs.is_directory fs (ggc_root_path_ self).

Definition is_yaml (config_file : Fs.path) : bool :=
  String.eqb (Fs.extension config_file) ".yaml"
  || String.eqb (Fs.extension config_file) ".yml".

Fixpoint validate_config_files (configs : list Fs.path) : bool :=
  match configs with
  | [] => false
  | config_file :: rest =>
      if Fs.exists_ fs config_file then
        match Fs.ifstream fs config_file with
        | None => validate_config_files rest
        | Some file =>
            match Fs.read_all file with
            | Returned content =>
                if Str.is_empty content then false
                else if is_yaml config_file then
                  let has_system := Str.contains "system:" content in
                  let has_services := Str.contains "services:" content in
                  if has_system && has_services then true
                  else validate_config_files rest
                else if String.eqb (Fs.extension config_file) ".json" then
                  match json_parse content with
                  | Some json =>
                      if Json.contains json "coreThing"
                         || Json.contains json "system"
                      then true
                      else validate_config_files rest
                  | None => false
                  end
                else validate_config_files rest
            | Thrown _ => false
            end
        end
      else validate_config_files rest
  end.

Definition validate_config_file : bool :=
  validate_config_files possible_configs.

(** [json[section]["thingName"]] converted to [std::string];
    [None] when the conversion throws [type_error]. *)
Definition json_thing_name (json : json) (section : string)
  : option (option string) :=
  if Json.contains json section then
    match Json.get json section with
    | Some sec =>
        if Json.contains sec "thingName" then
          match Json.get sec "thingName" with
          | Some (JString s) => Some (Some s)
          | _ => Some None
          end
        else None
    | None => None
    end
  else None.

Fixpoint read_thing_name_from (configs : list Fs.path) : string :=
  match configs with
  | [] => "unknown"
  | config_file :: rest =>
      if Fs.exists_ fs config_file then
        match Fs.ifstream fs config_file with
        | None => read_thing_name_from rest
        | Some file =>
            match Fs.read_all file with
            | Returned content =>
                if is_yaml config_file then
                  match thing_name_regex_search content with
                  | Some name => name
                  | None => read_thing_name_from rest
                  end
                else if String.eqb (Fs.extension config_file) ".json" then
                  match json_parse content with
                  | Some json =>
                      match json_thing_name json "coreThing" with
                      | Some (Some name) => name
                      | Some None => read_thing_name_from rest
                      | None =>
                          match json_thing_name json "system" with
                          | Some (Some name) => name
                          | _ => read_thing_name_from rest
                          end
                      end
                  | None => read_thing_name_from rest
                  end
                else read_thing_name_from rest
            | Thrown _ => read_thing_name_from rest
            end
        end
      else read_thing_name_from rest
  end.

Definition read_thing_name_from_config : string :=
  read_thing_name_from possible_configs.

Definition detect_greengrass_version : string :=
  if Fs.exists_ fs (Fs.join (greengrass_path_ self) "recipes") then "v2.x"
  else if Fs.exists_ fs (Fs.join (config_path_ self) "config.yaml")
          || Fs.exists_ fs (Fs.join (config_path_ self) "config.yml")
  then "v2.x"
  else if Fs.exists_ fs (Fs.join (config_path_ self) "config.json")
  then "v1.x"
  else "unknown".

Definition push_back_unless (present : bool) (name : string)
    (l : list string) : list string :=
  if present then l else l ++ [name].

Definition check_provisioning_status : outcome ProvisioningStatus :=
  if negb (Fs.exists_ fs (greengrass_path_ self)) then
    Returned {| is_provisioned := false;
                greengrass_version := EmptyString;
                thing_name := EmptyString;
                config_file_path := EmptyString;
                missing_components := [];
                details := "Greengrass directory does not exist" |}
  else
    let has_config := check_config_exists in
    match check_certificates_exist with
    | Thrown e => Thrown e
    | Returned has_certs =>
        let has_root := check_greengrass_root_exists in
        let missing :=
          push_back_unless has_root "ggc-root"
            (push_back_unless has_certs "certificates"
               (push_back_unless has_config "config" [])) in
        if has_config && has_certs && has_root then
          if validate_config_file then
            Returned
              {| is_provisioned := true;
                 thing_name := read_thing_name_from_config;
                 greengrass_version := detect_greengrass_version;
                 config_file_path :=
                   Fs.to_string (Fs.join (config_path_ self) "config.yaml");
                 missing_components := missing;
                 details := "Greengrass is fully provisioned" |}
          else
            Returned
              {| is_provisioned := false;
                 greengrass_version := EmptyString;
                 thing_name := EmptyString;
                 config_file_path := EmptyString;
                 missing_components := missing;
                 details := "Configuration file is invalid or corrupted" |}
        else
          Returned
            {| is_provisioned := false;
               greengrass_version := EmptyString;
               thing_name := EmptyString;
               config_file_path := EmptyString;
               missing_components := missing;
               details := "Missing components: " +:+ join_comma missing |}
  end.

End WithExternals.

End Checker.


(** ** config/config_generator.{h,cpp} *)

Module Generator.
Import Database.

Record GeneratedConfig : Type := {
  config_file_path : Fs.path;
  certificate_path : Fs.path;
  private_key_path : Fs.path;
  root_ca_path : Fs.path;
  success : bool;
  error_message : string
}.

Record ConfigGenerator : Type := {
  greengrass_path_ : Fs.path;
  config_path_ : Fs.path;
  certs_path_ : Fs.path;
  logs_path_ : Fs.path;
  work_path_ : Fs.path;
  last_error_ : string
}.

Definition make (greengrass_path : string) : ConfigGenerator :=
  let p := Fs.path_of_string greengrass_path in
  {| greengrass_path_ := p;
     config_path_ := Fs.join p "config";
     certs_path_ := Fs.join p "certs";
     logs_path_ := Fs.join p "logs";
     work_path_ := Fs.join p "work";
     last_error_ := EmptyString |}.

(** State of the methods: the object and the file system. *)
Record state : Type := {
  self : ConfigGenerator;
  fs : Fs.filesystem
}.

Definition in_fs {A} (m : M Fs.filesystem A) : M state A :=
  λ s, let '(r, fs') := m (fs s) in (r, {| self := self s; fs := fs' |}).

Definition set_last_error (e : string) : M state () :=
  modify (λ s,
    {| self := {| greengrass_path_ := greengrass_path_ (self s);
                  config_path_ := config_path_ (self s);
                  certs_path_ := certs_path_ (self s);
                  logs_path_ := logs_path_ (self s);
                  work_path_ := work_path_ (self s);
                  last_error_ := e |};
       fs := fs s |}).

Definition dir_perms : Fs.perms :=
  N.lor Fs.owner_all (N.lor Fs.group_read Fs.group_exec).
Definition private_key_perms : Fs.perms :=
  N.lor Fs.owner_read Fs.owner_write.
Definition other_file_perms : Fs.perms :=
  N.lor (N.lor Fs.owner_read Fs.owner_write) Fs.group_read.

Definition create_directory_structure : M state bool :=
  try_catch
    (g <- gets self ;;
     in_fs (Fs.create_directories (greengrass_path_ g)) ;;;
     in_fs (Fs.create_directories (config_path_ g)) ;;;
     in_fs (Fs.create_directories (certs_path_ g)) ;;;
     in_fs (Fs.create_directories (logs_path_ g)) ;;;
     in_fs (Fs.create_directories (work_path_ g)) ;;;
     in_fs (Fs.create_directories (Fs.join (greengrass_path_ g) "packages")) ;;;
     in_fs (Fs.create_directories (Fs.join (greengrass_path_ g) "deployments")) ;;;
     in_fs (Fs.create_directories (Fs.join (greengrass_path_ g) "ggc-root")) ;;;
     in_fs (Fs.permissions (greengrass_path_ g) dir_perms) ;;;
     in_fs (Fs.permissions (certs_path_ g) dir_perms) ;;;
     ret true)
    (λ what,
     set_last_error ("Failed to create directory structure: " +:+ what) ;;;
     ret false).

Definition write_file (path : Fs.path) (content : string) : M state bool :=
  try_catch
    (is_open <- in_fs (Fs.ofstream path content) ;;
     if negb is_open then
       set_last_error
         ("Failed to open file for writing: " +:+ Fs.to_string path) ;;;
       ret false
     else ret true)
    (λ what,
     set_last_error
       ("Failed to write file " +:+ Fs.to_string path +:+ ": " +:+ what) ;;;
     ret false).

(** A failure to change the permissions is logged and is not an error. *)
Definition set_file_permissions (path : Fs.path) (is_private_key : bool)
  : M state bool :=
  try_catch
    (in_fs (Fs.permissions path
              (if is_private_key then private_key_perms
               else other_file_perms)) ;;;
     ret true)
    (λ _, ret true).

Definition cert_file_name (device_config : DeviceConfig) : string :=
  thing_name device_config +:+ ".cert.pem".
Definition key_file_name (device_config : DeviceConfig) : string :=
  thing_name device_config +:+ ".private.key".

Definition write_certificates (device_config : DeviceConfig) : M state bool :=
  try_catch
    (g <- gets self ;;
     let cert_path := Fs.join (certs_path_ g) (cert_file_name device_config) in
     ok <- write_file cert_path (certificate_pem device_config) ;;
     if negb ok then ret false else
     set_file_permissions cert_path false ;;;
     let key_path := Fs.join (certs_path_ g) (key_file_name device_config) in
     ok <- write_file key_path (private_key_pem device_config) ;;
     if negb ok then ret false else
     set_file_permissions key_path true ;;;
     let root_ca_path := Fs.join (certs_path_ g) "root.ca.pem" in
     let source := Fs.path_of_string (Database.root_ca_path device_config) in
     root_ca_content <-
       reads (λ s, if Fs.exists_ (fs s) source then
                     match Fs.ifstream (fs s) source with
                     | Some root_ca_file => Fs.read_all root_ca_file
                     | None => Returned EmptyString
                     end
                   else Returned (Database.root_ca_path device_config)) ;;
     ok <- write_file root_ca_path root_ca_content ;;
     if negb ok then ret false else
     set_file_permissions root_ca_path false ;;;
     ret true)
    (λ what,
     set_last_error ("Failed to write certificates: " +:+ what) ;;;
     ret false).

Definition generate_yaml_config_content (g : ConfigGenerator)
    (device_config : DeviceConfig) : string :=
  let root := Fs.to_string (greengrass_path_ g) in
  let thing := thing_name device_config in
  let config :=
    Str.lines
      [ "---";
        "system:";
        "  certificateFilePath: "
          +:+ Str.quoted (root +:+ "/certs/" +:+ thing +:+ ".cert.pem");
        "  privateKeyPath: "
          +:+ Str.quoted (root +:+ "/certs/" +:+ thing +:+ ".private.key");
        "  rootCaPath: " +:+ Str.quoted (root +:+ "/certs/root.ca.pem");
        "  rootpath: " +:+ Str.quoted root;
        "  thingName: " +:+ Str.quoted thing;
        EmptyString;
        "services:";
        "  aws.greengrass.Nucleus:";
        "    version: "
          +:+ Str.quoted (if Str.is_empty (nucleus_version device_config)
                          then "2.9.0" else nucleus_version device_config);
        "    configuration:";
        "      awsRegion: " +:+ Str.quoted (aws_region device_config);
        "      iotRoleAlias: " +:+ Str.quoted (role_alias device_config);
        "      iotDataEndpoint: " +:+ Str.quoted (iot_endpoint device_config);
        "      iotCredEndpoint: "
          +:+ Str.quoted (role_alias_endpoint device_config) ] in
  let config :=
    match mqtt_port device_config with
    | Some port =>
        config +:+ Str.lines [ "      mqtt:";
                               "        port: " +:+ pretty port ]
    | None => config
    end in
  let config :=
    match proxy_url device_config with
    | Some url =>
        config +:+ Str.lines [ "      networkProxy:";
                               "        proxy:";
                               "          url: " +:+ Str.quoted url ]
    | None => config
    end in
  let config :=
    config +:+ Str.lines [ "      logging:";
                           "        level: " +:+ Str.quoted "INFO";
                           "        fileSizeKB: 1024";
                           "        totalLogsSizeKB: 25600";
                           "        format: " +:+ Str.quoted "JSON" ] in
  if negb (Str.is_empty (deployment_group device_config)) then
    config +:+ Str.lines [ "      deploymentPollingFrequency: 15";
                           "      componentStoreMaxSizeBytes: 10737418240";
                           "      deploymentStatusKeepAliveFrequency: 60" ]
  else config.

Definition generate_greengrass_v2_config (device_config : DeviceConfig)
  : M state bool :=
  try_catch
    (g <- gets self ;;
     let config_content := generate_yaml_config_content g device_config in
     let config_file_path := Fs.join (config_path_ g) "config.yaml" in
     ok <- write_file config_file_path config_content ;;
     if negb ok then ret false else
     set_file_permissions config_file_path false ;;;
     ret true)
    (λ what,
     set_last_error ("Failed to generate config.yaml: " +:+ what) ;;;
     ret false).

Definition is_cert_entry (entry : string * Fs.node) : bool :=
  String.eqb (Fs.extension [entry.1]) ".pem"
  || String.eqb (Fs.extension [entry.1]) ".key".

(** [directory_iterator] is not guarded here: its exception leaves the
    method. *)
Definition validate_configuration : M state bool :=
  g <- gets self ;;
  let config_file := Fs.join (config_path_ g) "config.yaml" in
  config_exists <- gets (λ s, Fs.exists_ (fs s) config_file) ;;
  if negb config_exists then
    set_last_error "config.yaml does not exist" ;;;
    ret false
  else
    entries <- reads (λ s, Fs.directory_iterator (fs s) (certs_path_ g)) ;;
    let certs_exist := existsb is_cert_entry entries in
    if negb certs_exist then
      set_last_error "No certificates found in certs directory" ;;;
      ret false
    else ret true.

Definition failed (e : string) : GeneratedConfig :=
  {| config_file_path := []; certificate_path := [];
     private_key_path := []; root_ca_path := [];
     success := false; error_message := e |}.

Definition generate_config (device_config : DeviceConfig)
  : M state GeneratedConfig :=
  ok <- create_directory_structure ;;
  if negb ok then e <- gets (λ s, last_error_ (self s)) ;; ret (failed e) else
  ok <- write_certificates device_config ;;
  if negb ok then e <- gets (λ s, last_error_ (self s)) ;; ret (failed e) else
  ok <- generate_greengrass_v2_config device_config ;;
  if negb ok then e <- gets (λ s, last_error_ (self s)) ;; ret (failed e) else
  ok <- validate_configuration ;;
  if negb ok then e <- gets (λ s, last_error_ (self s)) ;; ret (failed e) else
  g <- gets self ;;
  ret {| config_file_path := Fs.join (config_path_ g) "config.yaml";
         certificate_path :=
           Fs.join (certs_path_ g) (cert_file_name device_config);
         private_key_path :=
           Fs.join (certs_path_ g) (key_file_name device_config);
         root_ca_path := Fs.join (certs_path_ g) "root.ca.pem";
         success := true;
         error_message := EmptyString |}.

Definition get_last_error (g : ConfigGenerator) : string := last_error_ g.

End Generator.

(** ** networking/connectivity_checker.{h,cpp} *)

Module Connectivity.

Record ConnectivityResult : Type := {
  is_connected : bool;
  dns_works : bool;
  https_works : bool;
  error_message : string;
  latency : option Z;
  tested_endpoints : list string
}.

(** What the network answers: [gethostbyname] finds an address, and a
    HEAD request ends with a status from 200 to 399 within the time in
    milliseconds that is given. *)
Record network : Type := {
  resolves : string → bool;
  head_request : string → option Z
}.

Record ConnectivityChecker : Type := {
  aws_endpoints_ : list string;
  custom_iot_endpoint_ : string;
  timeout_seconds_ : Z
}.

Definition make (getenv : string → option string) : ConnectivityChecker :=
  match getenv "TEST_MODE", getenv "IOT_ENDPOINT" with
  | Some test_mode, Some iot_endpoint =>
      if String.eqb test_mode "true" then
        {| aws_endpoints_ := ["http://" +:+ iot_endpoint];
           custom_iot_endpoint_ := "http://" +:+ iot_endpoint;
           timeout_seconds_ := 10 |}
      else
        {| aws_endpoints_ := [ "https://iot.us-east-1.amazonaws.com";
                               "https://iot.us-west-2.amazonaws.com";
                               "https://greengrass.us-east-1.amazonaws.com";
                               "https://www.amazontrust.com" ];
           custom_iot_endpoint_ := EmptyString;
           timeout_seconds_ := 10 |}
  | _, _ =>
      {| aws_endpoints_ := [ "https://iot.us-east-1.amazonaws.com";
                             "https://iot.us-west-2.amazonaws.com";
                             "https://greengrass.us-east-1.amazonaws.com";
                             "https://www.amazontrust.com" ];
         custom_iot_endpoint_ := EmptyString;
         timeout_seconds_ := 10 |}
  end.

Definition set_iot_endpoint (endpoint : string) (c : ConnectivityChecker)
  : ConnectivityChecker :=
  {| aws_endpoints_ := aws_endpoints_ c;
     custom_iot_endpoint_ := endpoint;
     timeout_seconds_ := timeout_seconds_ c |}.

Section WithNetwork.
Variable net : network.

Definition check_dns_resolution (hostname : string) : bool :=
  resolves net hostname.

Definition check_https_endpoint (url : string) : bool :=
  match head_request net url with Some _ => true | None => false end.

(** The loop over [aws_endpoints_]: the endpoints tried, in order, and
    whether one of them answered. *)
Fixpoint try_endpoints (endpoints tested : list string)
  : list string * bool :=
  match endpoints with
  | [] => (tested, false)
  | endpoint :: rest =>
      if check_https_endpoint endpoint then (tested ++ [endpoint], true)
      else try_endpoints rest (tested ++ [endpoint])
  end.

Definition check_connectivity (c : ConnectivityChecker)
  : ConnectivityResult :=
  if negb (check_dns_resolution "amazonaws.com") then
    {| is_connected := false; dns_works := false; https_works := false;
       error_message := "DNS resolution failed";
       latency := Some 0%Z; tested_endpoints := [] |}
  else
    let test_url := "https://www.amazontrust.com" in
    if negb (check_https_endpoint test_url) then
      {| is_connected := false; dns_works := true; https_works := false;
         error_message := "HTTPS connectivity check failed";
         latency := Some 0%Z; tested_endpoints := [] |}
    else
      let latency := head_request net test_url in
      if negb (Str.is_empty (custom_iot_endpoint_ c)) then
        if negb (check_https_endpoint (custom_iot_endpoint_ c)) then
          {| is_connected := false; dns_works := true; https_works := true;
             error_message := "Failed to connect to custom IoT endpoint";
             latency := latency;
             tested_endpoints := [custom_iot_endpoint_ c] |}
        else
          {| is_connected := true; dns_works := true; https_works := true;
             error_message := EmptyString;
             latency := latency;
             tested_endpoints := [custom_iot_endpoint_ c] |}
      else
        let '(tested, any_endpoint_works) :=
          try_endpoints (aws_endpoints_ c) [] in
        if negb any_endpoint_works then
          {| is_connected := false; dns_works := true; https_works := true;
             error_message := "Failed to connect to any AWS IoT endpoint";
             latency := latency; tested_endpoints := tested |}
        else
          {| is_connected := true; dns_works := true; https_works := true;
             error_message := EmptyString;
             latency := latency; tested_endpoints := tested |}.

(** [check_aws_iot_endpoints] *)
Definition check_aws_iot_endpoints (c : ConnectivityChecker) : bool :=
  if negb (Str.is_empty (custom_iot_endpoint_ c)) then
    check_https_endpoint (custom_iot_endpoint_ c)
  else existsb check_https_endpoint (aws_endpoints_ c).

End WithNetwork.

End Connectivity.

(** ** provisioning/greengrass_provisioner.{h,cpp} *)

Module Provisioner.

Inductive ProvisioningStep : Type :=
| INITIALIZING
| DOWNLOADING_NUCLEUS
| INSTALLING_NUCLEUS
| CONFIGURING_SYSTEMD
| STARTING_SERVICE
| VERIFYING_CONNECTION
| COMPLETED.

Record ProvisioningResult : Type := {
  success : bool;
  last_completed_step : ProvisioningStep;
  error_message : string;
  greengrass_service_name : string
}.

(** The steps run commands of the operating system (user creation,
    download, [systemctl]); what each of them answers is given by the
    environment, and what they leave on disk is not followed.
    [nucleus_ready] stands for "the nucleus archive is there or its
    download succeeds". *)
Record os_steps : Type := {
  create_greengrass_user : outcome bool;
  nucleus_ready : outcome bool;
  install_greengrass_nucleus : outcome bool;
  configure_systemd_service : outcome bool;
  start_greengrass_service : outcome bool;
  verify_greengrass_connection : outcome bool
}.

Definition failure (last : ProvisioningStep) (e : string)
  : ProvisioningResult :=
  {| success := false; last_completed_step := last; error_message := e;
     greengrass_service_name := "greengrass" |}.

Section WithCallback.
Context {S : Type}.
(** [progress_callback_], as set by [set_progress_callback] *)
Variable progress_callback_ : ProvisioningStep → Z → string → M S ().
Variable os : os_steps.

Definition report_progress (step : ProvisioningStep) (percentage : Z)
    (msg : string) : M S () :=
  progress_callback_ step percentage msg.

Definition provision : M S ProvisioningResult :=
  report_progress INITIALIZING 0 "Initializing provisioning process" ;;;
  ok <- reads (λ _, create_greengrass_user os) ;;
  if negb ok then
    ret (failure INITIALIZING "Failed to create Greengrass user and group")
  else
  report_progress DOWNLOADING_NUCLEUS 20 "Downloading Greengrass nucleus" ;;;
  ok <- reads (λ _, nucleus_ready os) ;;
  if negb ok then
    ret (failure INITIALIZING "Failed to download Greengrass nucleus")
  else
  report_progress INSTALLING_NUCLEUS 40 "Installing Greengrass nucleus" ;;;
  ok <- reads (λ _, install_greengrass_nucleus os) ;;
  if negb ok then
    ret (failure DOWNLOADING_NUCLEUS "Failed to install Greengrass nucleus")
  else
  report_progress CONFIGURING_SYSTEMD 60 "Configuring systemd service" ;;;
  ok <- reads (λ _, configure_systemd_service os) ;;
  if negb ok then
    ret (failure INSTALLING_NUCLEUS "Failed to configure systemd service")
  else
  report_progress STARTING_SERVICE 80 "Starting Greengrass service" ;;;
  ok <- reads (λ _, start_greengrass_service os) ;;
  if negb ok then
    ret (failure CONFIGURING_SYSTEMD "Failed to start Greengrass service")
  else
  report_progress VERIFYING_CONNECTION 90 "Verifying Greengrass connection" ;;;
  ok <- reads (λ _, verify_greengrass_connection os) ;;
  if negb ok then
    ret (failure STARTING_SERVICE "Failed to verify Greengrass connection")
  else
  report_progress COMPLETED 100 "Provisioning completed successfully" ;;;
  ret {| success := true; last_completed_step := COMPLETED;
         error_message := EmptyString;
         greengrass_service_name := "greengrass" |}.

End WithCallback.

End Provisioner.

(** ** main.cpp *)

Module Main.

(** [cli::ProgramOptions] *)
Record ProgramOptions : Type := {
  database_path : string;
  greengrass_path : string;
  status_file : string;
  verbose : bool;
  help : bool
}.

(** What the run receives from outside the program text. *)
Record environment : Type := {
  (** [cli::ArgumentParser::parse(argc, argv)] *)
  parsed_arguments : option ProgramOptions;
  (** [std::chrono::system_clock::now()], in seconds since the epoch *)
  now : Z;
  getenv : string → option string;
  net : Connectivity.network;
  sqlite3_open : string → option Database.sqlite3;
  (** [gethostname]: [None] when the call fails *)
  gethostname : option string;
  os : Provisioner.os_steps
}.

(** How the process ends: [return code] from [main], or [std::terminate]
    after an exception that no handler caught. *)
Inductive termination : Type :=
| Exit (code : Z)
| Terminate (what : string).

(** State of [main] once the reporter exists. *)
Record state : Type := {
  status_reporter : Status.StatusReporter;
  fs : Fs.filesystem
}.

Definition on_reporter {A} (m : M Status.state A) : M state A :=
  λ s, let '(r, s') := m {| Status.reporter := status_reporter s;
                            Status.fs := fs s |} in
       (r, {| status_reporter := Status.reporter s'; fs := Status.fs s' |}).

Definition on_generator {A} (g : Generator.ConfigGenerator)
    (m : M Generator.state A) : M state A :=
  λ s, let '(r, s') := m {| Generator.self := g; Generator.fs := fs s |} in
       (r, {| status_reporter := status_reporter s;
              fs := Generator.fs s' |}).

(** A method call on the database object [d]: its value and the object
    after the call. *)
Definition on_database {A} (d : Database.ConfigDatabase)
    (m : M Database.ConfigDatabase A)
  : M state (A * Database.ConfigDatabase) :=
  λ s, match m d with
       | (Returned a, d') => (Returned (a, d'), s)
       | (Thrown what, _) => (Thrown what, s)
       end.

Definition get_device_identifier (env : environment) (fs : Fs.filesystem)
  : string :=
  match Fs.ifstream fs (Fs.path_of_string "/sys/class/net/eth0/address") with
  | Some mac_file => Str.remove_char ":"%char (Fs.getline mac_file)
  | None =>
      match gethostname env with
      | Some hostname => hostname
      | None => "default-device"
      end
  end.

Section WithExternals.
Context `{Externals}.
Variable env : environment.

Definition update_status (st : Status.ServiceStatus) (msg : string)
    (progress : Z) : M state () :=
  on_reporter (Status.update_status (now env) st msg progress).

(** Lines 124-135 of [main]: the look-up by identifier, then the
    look-up of the device id ["default"], then the exception.  The value
    is the record found and the database object after the calls. *)
Definition find_device_config (d : Database.ConfigDatabase)
    (device_id : string)
  : M state (Database.DeviceConfig * Database.ConfigDatabase) :=
  found <-
    on_database d (Database.get_device_config_by_identifier device_id) ;;
  let '(device_config, d) := found in
  match device_config with
  | Some c => ret (c, d)
  | None =>
      found <- on_database d (Database.get_device_config "default") ;;
      let '(device_config, d) := found in
      match device_config with
      | Some c => ret (c, d)
      | None => throw "No device configuration found in database"
      end
  end.

(** The [try] block of [main]; the value is the operand of [return].
    The log lines are left out, and so is [set_iot_endpoint], whose
    checker is not used again. *)
Definition try_block (options : ProgramOptions) : M state Z :=
  update_status Status.CHECKING_PROVISIONING EmptyString (-1) ;;;
  let prov_checker := Checker.make (greengrass_path options) in
  prov_status <-
    reads (λ s, Checker.check_provisioning_status prov_checker (fs s)) ;;
  if Checker.is_provisioned prov_status then
    update_status Status.ALREADY_PROVISIONED
      ("Already provisioned as " +:+ Checker.thing_name prov_status) (-1) ;;;
    ret 0%Z
  else
  update_status Status.CHECKING_CONNECTIVITY EmptyString (-1) ;;;
  let conn_checker := Connectivity.make (getenv env) in
  let conn_result := Connectivity.check_connectivity (net env) conn_checker in
  if negb (Connectivity.is_connected conn_result) then
    update_status Status.NO_CONNECTIVITY
      (Connectivity.error_message conn_result) (-1) ;;;
    ret 2%Z
  else
  update_status Status.READING_DATABASE EmptyString (-1) ;;;
  opened <-
    on_database (Database.make (database_path options))
      (Database.connect (sqlite3_open env)) ;;
  let '(connected, d) := opened in
  (if negb connected
   then throw ("Failed to connect to database: "
               +:+ Database.get_last_error d)
   else ret ()) ;;;
  device_id <- gets (λ s, get_device_identifier env (fs s)) ;;
  found <- find_device_config d device_id ;;
  let '(device_config, d) := found in
  update_status Status.GENERATING_CONFIG EmptyString (-1) ;;;
  generated_config <-
    on_generator (Generator.make (greengrass_path options))
      (Generator.generate_config device_config) ;;
  (if negb (Generator.success generated_config)
   then throw ("Failed to generate configuration: "
               +:+ Generator.error_message generated_config)
   else ret ()) ;;;
  update_status Status.PROVISIONING EmptyString (-1) ;;;
  prov_result <-
    Provisioner.provision
      (λ _ percentage msg,
         update_status Status.PROVISIONING msg percentage)
      (os env) ;;
  (if negb (Provisioner.success prov_result)
   then throw ("Provisioning failed: "
               +:+ Provisioner.error_message prov_result)
   else ret ()) ;;;
  update_status Status.COMPLETED
    "Greengrass provisioning completed successfully" 100 ;;;
  on_database d Database.disconnect ;;;
  ret 0%Z.

(** [main]: the reporter is built before the [try] block, so an
    exception of its constructor is caught by no handler.
    [setup_logging] is left out. *)
Definition main (fs0 : Fs.filesystem) : termination * Fs.filesystem :=
  match parsed_arguments env with
  | None => (Exit 1, fs0)
  | Some options =>
      match Status.make (now env) (status_file options) fs0 with
      | (Thrown what, fs1) => (Terminate what, fs1)
      | (Returned r, fs1) =>
          let '(result, s) :=
            try_catch
              (try_block options)
              (λ what,
               on_reporter
                 (Status.report_error (now env) "Provisioning failed" what) ;;;
               ret 1%Z)
              {| status_reporter := r; fs := fs1 |} in
          match result with
          | Returned code => (Exit code, fs s)
          | Thrown what => (Terminate what, fs s)
          end
      end
  end.

End WithExternals.

End Main.

(** ** Definitions used in the statements *)

Module Props.

(** Saturation of a progress value at the ends of 0..100: what "clamped"
    says of a value outside the range. *)
Definition clamp_progress (progress : Z) : Z :=
  Z.max 0 (Z.min 100 progress).

Definition all_statuses : list Status.ServiceStatus :=
  [ Status.STARTING; Status.CHECKING_PROVISIONING;
    Status.ALREADY_PROVISIONED; Status.CHECKING_CONNECTIVITY;
    Status.NO_CONNECTIVITY; Status.READING_DATABASE;
    Status.GENERATING_CONFIG; Status.PROVISIONING; Status.COMPLETED;
    Status.ERROR ].

(** The current status record of a reporter state. *)
Definition current (s : Status.state) : Status.StatusInfo :=
  Status.current_status_ (Status.reporter s).

(** The node of the status file. *)
Definition status_file_node (s : Status.state) : option Fs.node :=
  Fs.nodes (Status.fs s)
    !! Fs.path_of_string (Status.status_file_path_ (Status.reporter s)).

(** The states a reporter goes through: built by the constructor, then
    changed by [update_status] and [report_error] only. *)
Inductive reachable `{Externals} : Status.state → Prop :=
| reachable_make now path fs0 r fs1 :
    Status.make now path fs0 = (Returned r, fs1) →
    reachable {| Status.reporter := r; Status.fs := fs1 |}
| reachable_update now st msg progress s :
    reachable s →
    reachable (Status.update_status now st msg progress s).2
| reachable_error now msg details s :
    reachable s →
    reachable (Status.report_error now msg details s).2.

(** What a call leaves in the status file: the file as it was (the
    write did not go through), or the printed document of the status
    that is now current followed by a line feed. *)
Definition persisted_or_unchanged `{Externals} (s s' : Status.state) : Prop :=
  status_file_node s' = status_file_node s
  ∨ ∃ m o, status_file_node s' =
           Some (Fs.File (json_dump 4 (Status.status_json (current s'))
                          +:+ Str.nl) m o).

(** The last character of the file name of a path. *)
Definition final_char (p : Fs.path) : option ascii :=
  last p ≫= Str.last_char.

(** [q] is a regular file whose mode is [X] if the process owns it. *)
Definition file_with_mode (fs : Fs.filesystem) (q : Fs.path) (X : Fs.perms)
  : Prop :=
  ∃ c m o, Fs.nodes fs !! q = Some (Fs.File c m o) ∧ (o = true → m = X).

(** File names that [check_certificates_exist] takes for a certificate
    and for a key. *)
Definition cert_name (filename : string) : bool :=
  Str.contains ".cert.pem" filename || Str.contains ".crt" filename.
Definition key_name (filename : string) : bool :=
  Str.contains ".private.key" filename || Str.contains ".key" filename.

(** Directory entries that are regular files with such a name. *)
Definition is_cert_file (entry : string * Fs.node) : bool :=
  match entry.2 with
  | Fs.File _ _ _ => cert_name entry.1
  | Fs.Dir _ _ => false
  end.

Definition is_key_file (entry : string * Fs.node) : bool :=
  match entry.2 with
  | Fs.File _ _ _ => key_name entry.1
  | Fs.Dir _ _ => false
  end.

(** What makes [validate_config_file] accept the file at [p]: it opens,
    is not empty and, under a YAML name, mentions both top-level keys
    or, under the JSON name, parses to a document with one of the two
    keys of the thing. *)
Definition accepted_config `{Externals} (fs : Fs.filesystem) (p : Fs.path)
  : Prop :=
  ∃ content,
    Fs.ifstream fs p = Some (Fs.Chars content)
    ∧ content ≠ EmptyString
    ∧ ((Fs.extension p ∈ [".yaml"; ".yml"]
        ∧ Str.contains "system:" content = true
        ∧ Str.contains "services:" content = true)
       ∨ (Fs.extension p = ".json"
          ∧ ∃ json, json_parse content = Some json
                    ∧ (Json.contains json "coreThing" = true
                       ∨ Json.contains json "system" = true))).

(** The connectivity result that [main] tests. *)
Definition conn_result (env : Main.environment)
  : Connectivity.ConnectivityResult :=
  Connectivity.check_connectivity (Main.net env)
    (Connectivity.make (Main.getenv env)).

(** The state in which [main] inspects the installation: after the
    first [update_status] of the [try] block. *)
Definition checked_state `{Externals} (env : Main.environment)
    (s : Main.state) : Main.state :=
  (Main.update_status env Status.CHECKING_PROVISIONING EmptyString (-1) s).2.

(** A candidate that [validate_config_file] passes over on its way to
    the next one: it does not exist or does not open, or it is read, is
    not empty and is not accepted (for the JSON name: it parses, without
    the keys looked for). *)
Definition skipped_config `{Externals} (fs : Fs.filesystem) (p : Fs.path)
  : Prop :=
  Fs.exists_ fs p = false
  ∨ Fs.ifstream fs p = None
  ∨ ∃ content,
      Fs.ifstream fs p = Some (Fs.Chars content)
      ∧ content ≠ EmptyString
      ∧ ¬ accepted_config fs p
      ∧ (Fs.extension p = ".json" → json_parse content ≠ None).

(** [s] has a character that the regular expressions take for white
    space. *)
Fixpoint has_space (s : string) : bool :=
  match s with
  | EmptyString => false
  | String c r => Str.is_space c || has_space r
  end.

(** [c] occurs in [s]. *)
Fixpoint has_char (c : ascii) (s : string) : bool :=
  match s with
  | EmptyString => false
  | String a r => Ascii.eqb a c || has_char c r
  end.

(** The column text for a list of components: the components with a
    comma between them. *)
Fixpoint comma_separated (l : list string) : string :=
  match l with
  | [] => EmptyString
  | [x] => x
  | x :: rest => x +:+ "," +:+ comma_separated rest
  end.

(** A component name: not empty, without a comma. *)
Definition component_name (c : string) : Prop :=
  c ≠ EmptyString ∧ has_char "," c = false.

(** The components of a path: kept pieces without ['/']. *)
Definition path_component (c : string) : Prop :=
  Str.contains "/" c = false ∧ Fs.keep_component c = true.

(** [q] is a regular file that holds [c]. *)
Definition file_with_content (fs : Fs.filesystem) (q : Fs.path) (c : string)
  : Prop :=
  ∃ m o, Fs.nodes fs !! q = Some (Fs.File c m o).

(** What [write_certificates] takes for the text of the root CA: the
    characters of the file that [root_ca_path] names, when something
    exists there, and the field itself otherwise. *)
Definition root_ca_text (fs : Fs.filesystem)
    (device_config : Database.DeviceConfig) : string :=
  let source := Fs.path_of_string (Database.root_ca_path device_config) in
  if Fs.exists_ fs source then
    match Fs.ifstream fs source with
    | Some (Fs.Chars c) => c
    | _ => EmptyString
    end
  else Database.root_ca_path device_config.

(** A method of the generator that ends by returning a flag, and leaves
    an error text when the flag is [false]. *)
Definition returns_flag (m : M Generator.state bool) : Prop :=
  ∀ s, ∃ ok s',
    m s = (Returned ok, s')
    ∧ (ok = false →
       Generator.last_error_ (Generator.self s') ≠ EmptyString).

Section ProvisionerTerms.
Import Provisioner.

(** A progress callback that keeps what it is told, in order. *)
Definition record_progress (step : ProvisioningStep) (percentage : Z)
    (msg : string) : M (list (ProvisioningStep * Z * string)) () :=
  modify (λ log, log ++ [(step, percentage, msg)]).

(** The reports of a complete run of [provision]. *)
Definition progress_reports : list (ProvisioningStep * Z * string) :=
  [ (INITIALIZING, 0%Z, "Initializing provisioning process");
    (DOWNLOADING_NUCLEUS, 20%Z, "Downloading Greengrass nucleus");
    (INSTALLING_NUCLEUS, 40%Z, "Installing Greengrass nucleus");
    (CONFIGURING_SYSTEMD, 60%Z, "Configuring systemd service");
    (STARTING_SERVICE, 80%Z, "Starting Greengrass service");
    (VERIFYING_CONNECTION, 90%Z, "Verifying Greengrass connection");
    (COMPLETED, 100%Z, "Provisioning completed successfully") ].

(** The answers of the six steps, in the order of their calls. *)
Definition step_results (os : os_steps) : list (outcome bool) :=
  [ create_greengrass_user os; nucleus_ready os;
    install_greengrass_nucleus os; configure_systemd_service os;
    start_greengrass_service os; verify_greengrass_connection os ].

(** The number of steps that return [true] before the first one that
    does not. *)
Fixpoint passed (results : list (outcome bool)) : nat :=
  match results with
  | Returned true :: rest => S (passed rest)
  | _ => O
  end.

(** The error texts of a failed [provision]. *)
Definition provision_errors : list string :=
  [ "Failed to create Greengrass user and group";
    "Failed to download Greengrass nucleus";
    "Failed to install Greengrass nucleus";
    "Failed to configure systemd service";
    "Failed to start Greengrass service";
    "Failed to verify Greengrass connection" ].

End ProvisionerTerms.

(** The [try] block of [main] with its handlers: what [main] runs once
    the reporter is built. *)
Definition guarded_run `{Externals} (env : Main.environment)
    (options : Main.ProgramOptions) : M Main.state Z :=
  try_catch
    (Main.try_block env options)
    (λ what,
     Main.on_reporter
       (Status.report_error (Main.now env) "Provisioning failed" what) ;;;
     ret 1%Z).

(** The status that the reporter of [main] holds. *)
Definition reported (s : Main.state) : Status.StatusInfo :=
  Status.current_status_ (Main.status_reporter s).

(** A path text that the model resolves as the operating system does:
    it is absolute and has no [".."] component (the model has no working
    directory and no symbolic links). *)
Definition resolved_path (s : string) : Prop :=
  Fs.is_absolute s = true ∧ ".." ∉ Fs.path_of_string s.

(** A text within the limits of the system for a name: at most [n]
    characters, none of them NUL. *)
Definition short_text (n : nat) (s : string) : Prop :=
  (String.length s ≤ n)%nat ∧ has_char "000" s = false.

(** Nothing lies at [c] in the top directory, or below it. *)
Definition unused_name (fs : Fs.filesystem) (c : string) : Prop :=
  ∀ q, Fs.nodes fs !! (c :: q) = None.

(** A root for a first installation.  Its text is a resolved path in
    the form in which [Fs.to_string] prints it, and short; the top
    directory belongs to the process, with all the bits of its owner;
    the mask leaves a new file or directory the bits of its owner; and
    the first component of the root names nothing yet. *)
Definition fresh_root (fs : Fs.filesystem) (greengrass_path : string)
  : Prop :=
  resolved_path greengrass_path
  ∧ Fs.to_string (Fs.path_of_string greengrass_path) = greengrass_path
  ∧ short_text 200 greengrass_path
  ∧ (∃ m, Fs.nodes fs !! [] = Some (Fs.Dir m true)
          ∧ N.land m Fs.owner_all = Fs.owner_all)
  ∧ N.land (Fs.umask fs) Fs.owner_all = 0%N
  ∧ ∃ c below, Fs.path_of_string greengrass_path = c :: below
               ∧ unused_name fs c.

(** A text that names no file.  Read as a path it has a first
    component, which is a name of at most 255 characters other than
    [".."], names nothing in the top directory (from where the model
    resolves a relative text) and is not the first component of the root
    either; the text has at most 4000 characters, none of them NUL. *)
Definition names_no_file (fs : Fs.filesystem) (greengrass_path : string)
    (text : string) : Prop :=
  short_text 4000 text
  ∧ ∃ c below, Fs.path_of_string text = c :: below
               ∧ (String.length c ≤ 255)%nat ∧ c ≠ ".."
               ∧ unused_name fs c
               ∧ head (Fs.path_of_string greengrass_path) ≠ Some c.

(** The directories from the top to [d] belong to the process, with all
    the bits of their owner. *)
Definition own_way (fs : Fs.filesystem) (d : Fs.path) : Prop :=
  ∀ q, q `prefix_of` d →
       ∃ m, Fs.nodes fs !! q = Some (Fs.Dir m true)
            ∧ N.land m Fs.owner_all = Fs.owner_all.

(** A text that can be part of a file name. *)
Definition file_name_part (s : string) : Prop :=
  Str.contains "/" s = false ∧ short_text 200 s.

(** [q] is a directory of the process, which may write to it. *)
Definition own_writable (fs : Fs.filesystem) (q : Fs.path) : Prop :=
  ∃ m, Fs.nodes fs !! q = Some (Fs.Dir m true)
       ∧ Fs.has_bit m Fs.owner_write = true.

(** [p] is absent or a file of the process, which may write to it. *)
Definition writable_or_new (fs : Fs.filesystem) (p : Fs.path) : Prop :=
  Fs.nodes fs !! p = None
  ∨ ∃ c m, Fs.nodes fs !! p = Some (Fs.File c m true)
           ∧ Fs.has_bit m Fs.owner_write = true.

(** The file systems that a first installation below [root] goes
    through, starting from [fs0]: the mask is kept, the top directory
    can be written, what lies in the top directory under the first name
    of [root] is a directory of the process on the way to [root] or
    directly below it, and nothing else has changed. *)
Definition installing (fs0 : Fs.filesystem) (root : Fs.path)
    (fs : Fs.filesystem) : Prop :=
  Fs.umask fs = Fs.umask fs0
  ∧ own_writable fs []
  ∧ (∀ q n, Fs.nodes fs !! q = Some n → head q = head root →
            own_writable fs q
            ∧ (q `prefix_of` root ∨ ∃ sub, q = root ++ [sub]))
  ∧ (∀ q, head q ≠ head root → Fs.nodes fs !! q = Fs.nodes fs0 !! q).

(** The state of the generator between the steps of a first
    installation: the directories [certs] and [config] are there, what
    they hold can be written, and the text of the root CA names
    nothing. *)
Definition ready (greengrass_path : string) (root source : Fs.path)
    (s : Generator.state) : Prop :=
  Generator.self s = Generator.make greengrass_path
  ∧ own_writable (Generator.fs s) (root ++ ["certs"])
  ∧ own_writable (Generator.fs s) (root ++ ["config"])
  ∧ (∀ d y, writable_or_new (Generator.fs s) (root ++ [d; y]))
  ∧ Fs.nodes (Generator.fs s) !! source = None.

End Props.

(** ** Concrete inputs used in the examples *)

Module Examples.

(** Library functions for the examples: every document prints as an
    empty object, no text parses, every time prints as the epoch. *)
Definition externals : Externals :=
  {| json_dump := λ _ _, "{}";
     json_parse := λ _, None;
     put_time_utc := λ _, "1970-01-01T00:00:00Z" |}.

(** A file system with nothing but its top directory (mode 0755, owned
    by the process) and the usual mask 022. *)
Definition empty_fs : Fs.filesystem :=
  {| Fs.nodes := {[ [] := Fs.Dir 493%N true ]}; Fs.umask := 18%N |}.

(** A reporter as its constructor leaves it. *)
Definition fresh_reporter : Status.state :=
  {| Status.reporter :=
       {| Status.status_file_path_ := "/run/greengrass-provisioning.status";
          Status.current_status_ :=
            {| Status.status := Status.STARTING;
               Status.message := "Service is starting";
               Status.timestamp := 0;
               Status.progress_percentage := 0;
               Status.error_details := EmptyString |} |};
     Status.fs := empty_fs |}.

(** A device record with the required fields and a port. *)
Definition thing1 : Database.DeviceConfig :=
  {| Database.device_id := "d1";
     Database.thing_name := "Thing1";
     Database.iot_endpoint := "iot.example.com";
     Database.aws_region := "us-east-1";
     Database.root_ca_path := "<CA-PEM>";
     Database.certificate_pem := "<CERT-PEM>";
     Database.private_key_pem := "<KEY-PEM>";
     Database.role_alias := "Role1";
     Database.role_alias_endpoint := "cred.example.com";
     Database.nucleus_version := EmptyString;
     Database.deployment_group := EmptyString;
     Database.initial_components := [];
     Database.proxy_url := None;
     Database.mqtt_port := Some 8883%Z;
     Database.custom_domain := None |}.

(** The same record without the port: required fields only. *)
Definition thing1_minimal : Database.DeviceConfig :=
  {| Database.device_id := "d1";
     Database.thing_name := "Thing1";
     Database.iot_endpoint := "iot.example.com";
     Database.aws_region := "us-east-1";
     Database.root_ca_path := "<CA-PEM>";
     Database.certificate_pem := "<CERT-PEM>";
     Database.private_key_pem := "<KEY-PEM>";
     Database.role_alias := "Role1";
     Database.role_alias_endpoint := "cred.example.com";
     Database.nucleus_version := EmptyString;
     Database.deployment_group := EmptyString;
     Database.initial_components := [];
     Database.proxy_url := None;
     Database.mqtt_port := None;
     Database.custom_domain := None |}.

(** A generator for [/greengrass/v2] on the empty file system. *)
Definition generator_on_empty_fs : Generator.state :=
  {| Generator.self := Generator.make "/greengrass/v2";
     Generator.fs := empty_fs |}.

(** The file system after [generate_config] for [thing1]. *)
Definition provisioned_fs : Fs.filesystem :=
  Generator.fs (Generator.generate_config thing1 generator_on_empty_fs).2.

(** The value [generate_config] returns there. *)
Definition generated_thing1 : Generator.GeneratedConfig :=
  {| Generator.config_file_path :=
       ["greengrass"; "v2"; "config"; "config.yaml"];
     Generator.certificate_path :=
       ["greengrass"; "v2"; "certs"; "Thing1.cert.pem"];
     Generator.private_key_path :=
       ["greengrass"; "v2"; "certs"; "Thing1.private.key"];
     Generator.root_ca_path := ["greengrass"; "v2"; "certs"; "root.ca.pem"];
     Generator.success := true;
     Generator.error_message := EmptyString |}.

(** A file system in which the key file of [thing1] is already there,
    owned by another user and writable by everyone (mode 0666). *)
Definition fs_with_foreign_key : Fs.filesystem :=
  {| Fs.nodes :=
       <[ ["greengrass"; "v2"; "certs"; "Thing1.private.key"]
          := Fs.File "-----OLD KEY-----" 438%N false ]>
       (<[ ["greengrass"; "v2"; "certs"] := Fs.Dir 493%N true ]>
       (<[ ["greengrass"; "v2"] := Fs.Dir 493%N true ]>
       (<[ ["greengrass"] := Fs.Dir 493%N true ]>
       {[ [] := Fs.Dir 493%N true ]})));
     Fs.umask := 18%N |}.

Definition generator_on_foreign_key : Generator.state :=
  {| Generator.self := Generator.make "/greengrass/v2";
     Generator.fs := fs_with_foreign_key |}.

(** What the checker reports on it. *)
Definition provisioned_status : Checker.ProvisioningStatus :=
  {| Checker.is_provisioned := true;
     Checker.greengrass_version := "v2.x";
     Checker.thing_name := Str.quoted "Thing1";
     Checker.config_file_path := "/greengrass/v2/config/config.yaml";
     Checker.missing_components := [];
     Checker.details := "Greengrass is fully provisioned" |}.

(** Command-line options whose status file is to be placed below
    [/etc/hostname]. *)
Definition options_status_below_file : Main.ProgramOptions :=
  {| Main.database_path := "/opt/config/devices.db";
     Main.greengrass_path := "/greengrass/v2";
     Main.status_file := "/etc/hostname/status.json";
     Main.verbose := false;
     Main.help := false |}.

(** A run with the options above: no network, no database, every step
    of the operating system succeeding. *)
Definition environment_status_below_file : Main.environment :=
  {| Main.parsed_arguments := Some options_status_below_file;
     Main.now := 0;
     Main.getenv := λ _, None;
     Main.net := {| Connectivity.resolves := λ _, false;
                    Connectivity.head_request := λ _, None |};
     Main.sqlite3_open := λ _, None;
     Main.gethostname := Some "edge-device";
     Main.os :=
       {| Provisioner.create_greengrass_user := Returned true;
          Provisioner.nucleus_ready := Returned true;
          Provisioner.install_greengrass_nucleus := Returned true;
          Provisioner.configure_systemd_service := Returned true;
          Provisioner.start_greengrass_service := Returned true;
          Provisioner.verify_greengrass_connection := Returned true |} |}.

(** A file system where [/etc/hostname] is a regular file and
    [/greengrass/v2] an empty directory. *)
Definition fs_with_hostname_file : Fs.filesystem :=
  {| Fs.nodes :=
       <[ ["greengrass"; "v2"] := Fs.Dir 493%N true ]>
       (<[ ["greengrass"] := Fs.Dir 493%N true ]>
       (<[ ["etc"; "hostname"] := Fs.File "edge-device" 420%N false ]>
       (<[ ["etc"] := Fs.Dir 493%N false ]>
       {[ [] := Fs.Dir 493%N true ]})));
     Fs.umask := 18%N |}.

(** A file system with a writable [/run], and a reporter on it. *)
Definition fs_with_run : Fs.filesystem :=
  {| Fs.nodes := <[ ["run"] := Fs.Dir 493%N true ]>
                 {[ [] := Fs.Dir 493%N true ]};
     Fs.umask := 18%N |}.

(** A reporter as its constructor leaves it, on that file system. *)
Definition reporter_in_run : Status.state :=
  {| Status.reporter := Status.reporter fresh_reporter;
     Status.fs := fs_with_run |}.

(** Library functions for an installation of the first generation: every
    text parses to a document with a [coreThing] section. *)
Definition externals_v1 : Externals :=
  {| json_dump := λ _ _, "{}";
     json_parse := λ _,
       Some (Json.JObject
               [("coreThing",
                 Json.JObject [("thingName", Json.JString "Thing1")])]);
     put_time_utc := λ _, "1970-01-01T00:00:00Z" |}.

(** A root with [config/config.json], a certificate, a key and
    [ggc-root]. *)
Definition fs_v1 : Fs.filesystem :=
  {| Fs.nodes :=
       <[ ["greengrass"; "ggc-root"] := Fs.Dir 493%N true ]>
       (<[ ["greengrass"; "certs"; "core.key"]
           := Fs.File "<KEY-PEM>" 384%N true ]>
       (<[ ["greengrass"; "certs"; "core.crt"]
           := Fs.File "<CERT-PEM>" 416%N true ]>
       (<[ ["greengrass"; "certs"] := Fs.Dir 488%N true ]>
       (<[ ["greengrass"; "config"; "config.json"]
           := Fs.File "{ }" 416%N true ]>
       (<[ ["greengrass"; "config"] := Fs.Dir 493%N true ]>
       (<[ ["greengrass"] := Fs.Dir 493%N true ]>
       {[ [] := Fs.Dir 493%N true ]}))))));
     Fs.umask := 18%N |}.

(** [thing1] as another device: other identifier, credentials,
    components and domain, the same thing name and endpoints. *)
Definition thing1_elsewhere : Database.DeviceConfig :=
  {| Database.device_id := "d9";
     Database.thing_name := "Thing1";
     Database.iot_endpoint := "iot.example.com";
     Database.aws_region := "us-east-1";
     Database.root_ca_path := "/etc/ssl/AmazonRootCA1.pem";
     Database.certificate_pem := "<OTHER-CERT-PEM>";
     Database.private_key_pem := "<OTHER-KEY-PEM>";
     Database.role_alias := "Role1";
     Database.role_alias_endpoint := "cred.example.com";
     Database.nucleus_version := EmptyString;
     Database.deployment_group := EmptyString;
     Database.initial_components := ["aws.greengrass.Cli"];
     Database.proxy_url := None;
     Database.mqtt_port := Some 8883%Z;
     Database.custom_domain := Some "example.org" |}.

(** A run with an answering network and no database file. *)
Definition environment_without_database : Main.environment :=
  {| Main.parsed_arguments := Some options_status_below_file;
     Main.now := 0;
     Main.getenv := λ _, None;
     Main.net := {| Connectivity.resolves := λ _, true;
                    Connectivity.head_request := λ _, Some 200%Z |};
     Main.sqlite3_open := λ _, None;
     Main.gethostname := Some "edge-device";
     Main.os := Main.os environment_status_below_file |}.

(** The state of [main] with a fresh reporter on the empty file
    system. *)
Definition fresh_main_state : Main.state :=
  {| Main.status_reporter := Status.reporter fresh_reporter;
     Main.fs := empty_fs |}.

(** The minimal record with a thing name that has a ['/']. *)
Definition thing_in_subdirectory : Database.DeviceConfig :=
  {| Database.device_id := "d1";
     Database.thing_name := "plant/line-3";
     Database.iot_endpoint := "iot.example.com";
     Database.aws_region := "us-east-1";
     Database.root_ca_path := "<CA-PEM>";
     Database.certificate_pem := "<CERT-PEM>";
     Database.private_key_pem := "<KEY-PEM>";
     Database.role_alias := "Role1";
     Database.role_alias_endpoint := "cred.example.com";
     Database.nucleus_version := EmptyString;
     Database.deployment_group := EmptyString;
     Database.initial_components := [];
     Database.proxy_url := None;
     Database.mqtt_port := None;
     Database.custom_domain := None |}.

(** A root in which [certs] is a regular file. *)
Definition fs_with_certs_file : Fs.filesystem :=
  {| Fs.nodes :=
       <[ ["greengrass"; "v2"; "certs"] := Fs.File "x" 420%N true ]>
       (<[ ["greengrass"; "v2"] := Fs.Dir 493%N true ]>
       (<[ ["greengrass"] := Fs.Dir 493%N true ]>
       {[ [] := Fs.Dir 493%N true ]}));
     Fs.umask := 18%N |}.

(** The row of [thing1] with a port that does not fit 32 bits, a row
    with a device id that is not a plain literal, and the identifiers of
    both. *)
Definition row_of_thing1 : Database.device_config_row :=
  {| Database.col_device_id := Some "d1";
     Database.col_thing_name := Some "Thing1";
     Database.col_iot_endpoint := Some "iot.example.com";
     Database.col_aws_region := Some "us-east-1";
     Database.col_root_ca_path := Some "<CA-PEM>";
     Database.col_certificate_pem := Some "<CERT-PEM>";
     Database.col_private_key_pem := Some "<KEY-PEM>";
     Database.col_role_alias := Some "Role1";
     Database.col_role_alias_endpoint := Some "cred.example.com";
     Database.col_nucleus_version := None;
     Database.col_deployment_group := None;
     Database.col_initial_components := Some "aws.greengrass.Cli,,";
     Database.col_proxy_url := None;
     Database.col_mqtt_port := Some 4294976179%Z;
     Database.col_custom_domain := None |}.

Definition connected_database : Database.ConfigDatabase :=
  {| Database.database_path_ := "/opt/config/devices.db";
     Database.db_ :=
       Some {| Database.device_config := Some [row_of_thing1];
               Database.device_identifiers :=
                 Some [ {| Database.id_mac_address := Some "0242ac110002";
                           Database.id_serial_number := None;
                           Database.id_device_id := Some "d1" |} ];
               Database.spliced_device_config := λ _, None;
               Database.spliced_identifier := λ _, None |};
     Database.last_error_ := EmptyString |}.

End Examples.

(** * Properties *)

(** ** The computation monad *)

Lemma bind_returned {S A B} (m : M S A) (k : A → M S B) s b s' :
  bind m k s = (Returned b, s') →
  ∃ a s1, m s = (Returned a, s1) ∧ k a s1 = (Returned b, s').
Proof.
  unfold bind. destruct (m s) as [[a|e] s1]; [eauto | discriminate].
Qed.

Lemma bind_thrown {S A B} (m : M S A) (k : A → M S B) s e s' :
  bind m k s = (Thrown e, s') →
  m s = (Thrown e, s') ∨ ∃ a s1, m s = (Returned a, s1) ∧ k a s1 = (Thrown e, s').
Proof.
  unfold bind. destruct (m s) as [[a|e1] s1]; [eauto | left; congruence].
Qed.

Lemma try_catch_cases {S A} (m : M S A) (h : string → M S A) s r s' :
  try_catch m h s = (r, s') →
  (∃ a, m s = (Returned a, s') ∧ r = Returned a)
  ∨ (∃ e s1, m s = (Thrown e, s1) ∧ h e s1 = (r, s')).
Proof.
  unfold try_catch. destruct (m s) as [[a|e] s1]; intros E.
  - left. exists a. by inversion E.
  - right. eauto.
Qed.

(** ** Status reporter *)

Section StatusFacts.
Context `{Externals}.
Import Status Props.

Lemma in_fs_reporter {A} (m : M Fs.filesystem A) s :
  reporter (in_fs m s).2 = reporter s.
Proof. unfold in_fs. by destruct (m (fs s)). Qed.

Lemma write_status_file_reporter s :
  reporter (write_status_file s).2 = reporter s.
Proof.
  unfold write_status_file, try_catch, bind, gets, ret, throw; simpl.
  destruct (Json.well_encoded _).
  2:{ pose proof (in_fs_reporter
        (Fs.ofstream
           (Fs.path_of_string (status_file_path_ (reporter s) +:+ ".tmp"))
           EmptyString) s) as E1.
      by destruct (in_fs _ s) as [[[]|e] s1]. }
  pose proof (in_fs_reporter
    (Fs.ofstream (Fs.path_of_string (status_file_path_ (reporter s) +:+ ".tmp"))
       (json_dump 4 (status_json (current_status_ (reporter s))) +:+ Str.nl)) s)
    as E1.
  destruct (in_fs _ s) as [[[]|e] s1]; simpl in *; try done.
  pose proof (in_fs_reporter
    (Fs.rename (Fs.path_of_string (status_file_path_ (reporter s) +:+ ".tmp"))
       (Fs.path_of_string (status_file_path_ (reporter s)))) s1) as E2.
  destruct (in_fs _ s1) as [[[]|e] s2]; simpl in *; try congruence.
  pose proof (in_fs_reporter
    (Fs.permissions (Fs.path_of_string (status_file_path_ (reporter s)))
       status_file_perms) s2) as E3.
  destruct (in_fs _ s2) as [[[]|e] s3]; simpl in *; congruence.
Qed.

Lemma write_status_file_returns s :
  (write_status_file s).1 = Returned ().
Proof.
  unfold write_status_file, try_catch, bind, gets, ret, throw; simpl.
  destruct (Json.well_encoded _);
    [|by destruct (in_fs _ s) as [[[]|e] s1]].
  destruct (in_fs _ s) as [[[]|e] s1]; simpl; try done.
  destruct (in_fs _ s1) as [[[]|e] s2]; simpl; try done.
  destruct (in_fs _ s2) as [[[]|e] s3]; simpl; done.
Qed.

Lemma update_status_current now st msg progress s :
  current (update_status now st msg progress s).2 =
  {| status := st;
     timestamp := now;
     message := if negb (Str.is_empty msg) then msg else default_message st;
     progress_percentage :=
       if (0 <=? progress)%Z && (progress <=? 100)%Z then progress
       else auto_progress st (progress_percentage (current s));
     error_details :=
       if decide (st ≠ ERROR) then EmptyString
       else error_details (current s) |}.
Proof.
  unfold update_status, bind, modify, current; simpl.
  match goal with |- context [write_status_file ?x] =>
    pose proof (write_status_file_reporter x) as E;
    pose proof (write_status_file_returns x) as R;
    destruct (write_status_file x) as [[[]|e] s1]
  end; simpl in *; try discriminate.
  by rewrite E.
Qed.

Lemma update_status_returns now st msg progress s :
  (update_status now st msg progress s).1 = Returned ().
Proof.
  unfold update_status, bind, modify; simpl.
  match goal with |- context [write_status_file ?x] =>
    pose proof (write_status_file_returns x) as R;
    destruct (write_status_file x) as [[[]|e] s1]
  end; simpl in *; done.
Qed.

Lemma report_error_current now msg details s :
  current (report_error now msg details s).2 =
  {| status := ERROR;
     message := msg;
     error_details := details;
     timestamp := now;
     progress_percentage := progress_percentage (current s) |}.
Proof.
  unfold report_error, bind, modify, current; simpl.
  match goal with |- context [write_status_file ?x] =>
    pose proof (write_status_file_reporter x) as E;
    pose proof (write_status_file_returns x) as R;
    destruct (write_status_file x) as [[[]|e] s1]
  end; simpl in *; try discriminate.
  by rewrite E.
Qed.

Lemma auto_progress_range st cur :
  (st ≠ ERROR ∨ (0 ≤ cur ≤ 100))%Z →
  (0 ≤ auto_progress st cur ≤ 100)%Z.
Proof. destruct st; simpl; intros [?|?]; try lia; congruence. Qed.

End StatusFacts.

(** ** File-system calls *)

Section FsFacts.
Import Fs.

Lemma ofstream_cases p c fs :
  ofstream p c fs = (Returned false, fs)
  ∨ ∃ m o,
      ofstream p c fs =
        (Returned true, with_nodes fs (<[p := File c m o]> (nodes fs)))
      ∧ match nodes fs !! p with
        | Some n => ∃ c0, n = File c0 m o
        | None => o = true ∧ m = N.ldiff 438%N (umask fs)
        end.
Proof.
  unfold ofstream. destruct (nodes fs !! p) as [[c0 m o|m o]|] eqn:E.
  - destruct (can_write _); [right; exists m, o; eauto | by left].
  - by left.
  - destruct p as [|x p]; [by left|].
    destruct (nodes fs !! parent_path (x :: p)) as [[?|m o]|]; try by left.
    destruct (can_write _); [right; eauto | by left].
Qed.

Lemma permissions_cases p m fs :
  (∃ e, permissions p m fs = (Thrown e, fs)
        ∧ ∀ n, nodes fs !! p = Some n → node_mine n = false)
  ∨ ∃ n, nodes fs !! p = Some n ∧ node_mine n = true
         ∧ permissions p m fs =
             (Returned (), with_nodes fs (<[p := set_mode m n]> (nodes fs))).
Proof.
  unfold permissions. destruct (nodes fs !! p) as [n|] eqn:E.
  - destruct (node_mine n) eqn:O; [right; eauto|].
    left. eexists. split; [done|]. intros ? [= <-]. done.
  - left. eexists. split; [done|]. discriminate.
Qed.

Lemma rename_cases src dst fs :
  (∃ e, rename src dst fs = (Thrown e, fs))
  ∨ ∃ c m o, nodes fs !! src = Some (File c m o)
             ∧ rename src dst fs =
                 (Returned (),
                  with_nodes fs (<[dst := File c m o]> (delete src (nodes fs)))).
Proof.
  unfold rename. destruct (nodes fs !! src) as [[c m o|m o]|]; eauto.
  destruct (nodes fs !! parent_path src) as [[?|sm so]|]; eauto.
  destruct (nodes fs !! parent_path dst) as [[?|dm do]|]; eauto.
  destruct (_ && _); eauto.
  destruct dst as [|x dst]; [destruct (nodes fs !! []) as [[]|]; eauto|].
  destruct (nodes fs !! (x :: dst)) as [[]|]; eauto 10.
Qed.

End FsFacts.

(** ** Calls that go through *)

Section FsForward.
Import Fs.

Lemma ofstream_new d y c fs m o :
  nodes fs !! (d ++ [y]) = None →
  nodes fs !! d = Some (Dir m o) → can_write (Dir m o) = true →
  ofstream (d ++ [y]) c fs
  = (Returned true,
     with_nodes fs
       (<[d ++ [y] := File c (N.ldiff 438 (umask fs)) true]> (nodes fs))).
Proof.
  intros Hn Hd W. unfold ofstream. rewrite Hn. unfold parent_path.
  destruct (d ++ [y]) as [|z l] eqn:E; [by destruct d|].
  by rewrite <- E, removelast_last, Hd, W.
Qed.

Lemma rename_file_forward src dst fs c m o sm so dm do :
  nodes fs !! src = Some (File c m o) →
  nodes fs !! parent_path src = Some (Dir sm so) →
  nodes fs !! parent_path dst = Some (Dir dm do) →
  can_write (Dir sm so) = true → can_write (Dir dm do) = true →
  is_directory fs dst = false → dst ≠ [] →
  rename src dst fs
  = (Returned (),
     with_nodes fs (<[dst := File c m o]> (delete src (nodes fs)))).
Proof.
  intros Hs Hps Hpd Ws Wd Nd ne. unfold rename.
  rewrite Hs, Hps, Hpd, Ws, Wd. simpl.
  unfold is_directory in Nd.
  destruct dst as [|x dst]; [done|].
  by destruct (nodes fs !! (x :: dst)) as [[]|].
Qed.

Lemma permissions_forward p X fs n :
  nodes fs !! p = Some n → node_mine n = true →
  permissions p X fs
  = (Returned (), with_nodes fs (<[p := set_mode X n]> (nodes fs))).
Proof. intros Hn Hm. unfold permissions. by rewrite Hn, Hm. Qed.

End FsForward.

(** ** The temporary file is another file *)

Section TemporaryFile.

Lemma split_on_app_tmp s :
  ∃ l x, Str.split_on "/" s = l ++ [x]
         ∧ Str.split_on "/" (s +:+ ".tmp") = l ++ [x +:+ ".tmp"].
Proof.
  induction s as [|c r (l & x & E1 & E2)].
  - by exists [], EmptyString.
  - change (String c r +:+ ".tmp") with (String c (r +:+ ".tmp")).
    cbn [Str.split_on]. destruct (Ascii.eqb c "/").
    + exists (EmptyString :: l), x. by rewrite E1, E2.
    + rewrite E1, E2. destruct l as [|h l]; simpl.
      * by exists [], (String c x).
      * by exists (String c h :: l), x.
Qed.

Lemma length_app_tmp (x : string) :
  String.length (x +:+ ".tmp") = (String.length x + 4)%nat.
Proof. induction x as [|c x IH]; [done|]. simpl. by rewrite IH. Qed.

Lemma keep_component_tmp x : Fs.keep_component (x +:+ ".tmp") = true.
Proof.
  unfold Fs.keep_component. destruct x as [|c x]; [done|].
  change (String c x +:+ ".tmp") with (String c (x +:+ ".tmp")).
  pose proof (length_app_tmp x) as L.
  destruct (x +:+ ".tmp") as [|b y]; [simpl in L; lia|].
  simpl. by destruct (Ascii.eqb c ".").
Qed.

Lemma path_of_string_tmp_ne s :
  Fs.path_of_string (s +:+ ".tmp") ≠ Fs.path_of_string s.
Proof.
  unfold Fs.path_of_string.
  destruct (split_on_app_tmp s) as (l & x & -> & ->).
  rewrite !List.filter_app. simpl. rewrite keep_component_tmp.
  destruct (Fs.keep_component x); intros E; apply app_inv_head in E;
    [|discriminate E].
  injection E as E. apply (f_equal String.length) in E.
  rewrite length_app_tmp in E. lia.
Qed.

End TemporaryFile.

(** ** The status document and the status file *)

Section StatusFile.
Context `{Externals}.
Import Status Props.

Lemma status_json_contains info :
  Json.contains (status_json info) "error_details" = true
  ↔ error_details info ≠ EmptyString.
Proof.
  unfold status_json. destruct (error_details info) as [|a d]; simpl.
  - split; [discriminate | congruence].
  - split; [discriminate | done].
Qed.

Lemma write_status_file_persists s :
  persisted_or_unchanged s (write_status_file s).2.
Proof.
  unfold persisted_or_unchanged, status_file_node.
  rewrite write_status_file_reporter.
  unfold current. rewrite write_status_file_reporter.
  set (P := Fs.path_of_string (status_file_path_ (reporter s))).
  set (c := json_dump 4 (status_json (current_status_ (reporter s)))
            +:+ Str.nl).
  unfold write_status_file, try_catch, bind, gets, ret, throw, in_fs; simpl.
  set (T := Fs.path_of_string (status_file_path_ (reporter s) +:+ ".tmp")).
  fold P c.
  assert (TP : T ≠ P) by apply path_of_string_tmp_ne.
  destruct (Json.well_encoded _).
  2:{ destruct (ofstream_cases T EmptyString (fs s))
        as [->|(m & o & -> & _)]; simpl; [by left|].
      left. by rewrite lookup_insert_ne. }
  destruct (ofstream_cases T c (fs s)) as [->|(m & o & -> & _)]; simpl;
    [by left|].
  set (fs1 := Fs.with_nodes (fs s) _).
  assert (E1 : Fs.nodes fs1 !! T = Some (Fs.File c m o))
    by (simpl; apply lookup_insert_eq).
  destruct (rename_cases T P fs1) as [[e ->]|(c' & m' & o' & E & ->)]; simpl.
  - destruct (decide (T = P)) as [<-|ne].
    + right. eauto.
    + left. by rewrite lookup_insert_ne.
  - rewrite E1 in E. injection E as <- <- <-.
    set (fs2 := Fs.with_nodes fs1 _).
    assert (E2 : Fs.nodes fs2 !! P = Some (Fs.File c m o))
      by (simpl; apply lookup_insert_eq).
    destruct (permissions_cases P status_file_perms fs2)
      as [(e & -> & _)|(n & En & _ & ->)]; simpl.
    + right. rewrite lookup_insert_eq. eauto.
    + right. rewrite lookup_insert_eq. rewrite E2 in En.
      injection En as <-. simpl. eauto.
Qed.

Lemma update_status_persists now st msg progress s :
  persisted_or_unchanged s (update_status now st msg progress s).2.
Proof.
  unfold update_status, bind, modify; simpl.
  match goal with |- context [write_status_file ?x] =>
    pose proof (write_status_file_persists x) as P;
    pose proof (write_status_file_returns x) as R;
    destruct (write_status_file x) as [[[]|e] s1]
  end; simpl in *; try discriminate.
  exact P.
Qed.

Lemma report_error_persists now msg details s :
  persisted_or_unchanged s (report_error now msg details s).2.
Proof.
  unfold report_error, bind, modify; simpl.
  match goal with |- context [write_status_file ?x] =>
    pose proof (write_status_file_persists x) as P;
    pose proof (write_status_file_returns x) as R;
    destruct (write_status_file x) as [[[]|e] s1]
  end; simpl in *; try discriminate.
  exact P.
Qed.

Lemma make_current now path fs0 r fs1 :
  make now path fs0 = (Returned r, fs1) →
  error_details (current_status_ r) = EmptyString
  ∧ progress_percentage (current_status_ r) = 0%Z.
Proof.
  unfold make.
  destruct (Fs.create_directories _ fs0) as [[[]|e] fs']; [|discriminate].
  match goal with |- context [write_status_file ?x] =>
    pose proof (write_status_file_reporter x) as E;
    destruct (write_status_file x) as [[[]|e] s1]
  end; simpl in *; [|discriminate].
  intros [= <- <-]. by rewrite E.
Qed.

Lemma reachable_error_details s :
  reachable s →
  error_details (current s) ≠ EmptyString → status (current s) = ERROR.
Proof.
  induction 1 as [now path fs0 r fs1 E|now st msg progress s R IH
                 |now msg details s R IH].
  - unfold current; simpl.
    by rewrite (proj1 (make_current _ _ _ _ _ E)).
  - rewrite update_status_current; simpl.
    destruct (decide (st ≠ ERROR)) as [ne|e]; [done|].
    intros _. by destruct (decide (st = ERROR)).
  - by rewrite report_error_current.
Qed.

Lemma reachable_progress_range s :
  reachable s → (0 ≤ progress_percentage (current s) ≤ 100)%Z.
Proof.
  induction 1 as [now path fs0 r fs1 E|now st msg progress s R IH
                 |now msg details s R IH].
  - unfold current; simpl.
    rewrite (proj2 (make_current _ _ _ _ _ E)). lia.
  - rewrite update_status_current; simpl.
    destruct (Z.leb_spec 0 progress), (Z.leb_spec progress 100); simpl;
      try lia; apply auto_progress_range; by right.
  - by rewrite report_error_current.
Qed.

End StatusFile.

(** C6.  A progress outside 0..100 is accepted by [update_status], but it
    is not saturated at the nearer end of the range: the value stored is
    the fixed progress of the phase, which for [PROVISIONING] is 80 where
    saturation of 150 gives 100. *)
Lemma update_status_does_not_clamp :
  Status.progress_percentage
    (Props.current
       (@Status.update_status Examples.externals 0 Status.PROVISIONING
          "Over progress" 150 Examples.fresh_reporter).2)
  = 80%Z
  ∧ Props.clamp_progress 150 = 100%Z.
Proof. rewrite update_status_current. split; reflexivity. Qed.

(** C6, as the code has it.  A call of [update_status] whose progress is
    outside 0..100 returns normally; the progress it stores is the fixed
    progress of the phase (5, 10, 100, 20, 20, 40, 60, 80, 100) and, for
    [ERROR], the progress stored before.  The stored value is within
    0..100 for every phase but [ERROR], and for [ERROR] whenever the
    progress stored before was, which is so in every state a reporter
    goes through: -10 gives a value of at least 0 and 150 a value of at
    most 100. *)
Theorem update_status_out_of_range_progress :
  ∀ (ext : Externals) now st msg (progress : Z) (s : Status.state),
    ¬ (0 ≤ progress ≤ 100)%Z →
    let s' := (Status.update_status now st msg progress s).2 in
    (Status.update_status now st msg progress s).1 = Returned ()
    ∧ Status.progress_percentage (Props.current s')
      = Status.auto_progress st (Status.progress_percentage (Props.current s))
    ∧ ((st ≠ Status.ERROR
        ∨ (0 ≤ Status.progress_percentage (Props.current s) ≤ 100)%Z
        ∨ Props.reachable s) →
       (0 ≤ Status.progress_percentage (Props.current s') ≤ 100)%Z).
Proof.
  intros ext now st msg progress s Hout s'. subst s'.
  rewrite update_status_current, update_status_returns; simpl.
  assert ((0 <=? progress)%Z && (progress <=? 100)%Z = false) as ->.
  { apply andb_false_iff.
    destruct (Z.leb_spec 0 progress), (Z.leb_spec progress 100); auto; lia. }
  split; [done|]. split; [done|].
  intros [ne|[range|R]]; apply auto_progress_range; auto.
  right. by apply reachable_progress_range.
Qed.

Lemma update_status_out_of_range_progress_witness :
  ¬ (0 ≤ 150 ≤ 100)%Z
  ∧ (@Status.update_status Examples.externals 7 Status.ERROR "boom" 150
       Examples.fresh_reporter).1 = Returned ()
  ∧ Status.progress_percentage
      (Props.current
         (@Status.update_status Examples.externals 7 Status.ERROR "boom" 150
            Examples.fresh_reporter).2) = 0%Z.
Proof.
  assert (Hout : ¬ (0 ≤ 150 ≤ 100)%Z) by lia.
  split; [exact Hout|].
  destruct (update_status_out_of_range_progress Examples.externals 7
              Status.ERROR "boom" 150 Examples.fresh_reporter Hout)
    as (R & P & _).
  split; [exact R | exact P].
Defined.

(** C7.  The phase [ERROR] has a default message too: an empty message
    passed with [ERROR] stores "An error occurred during provisioning",
    and the defaults of the ten phases are ten different texts. *)
Lemma error_status_has_default_message :
  Status.message
    (Props.current
       (@Status.update_status Examples.externals 0 Status.ERROR EmptyString
          (-1) Examples.fresh_reporter).2)
  = "An error occurred during provisioning"
  ∧ length (remove_dups (Status.default_message <$> Props.all_statuses))
    = 10%nat.
Proof. rewrite update_status_current. split; reflexivity. Qed.

(** C7, as the code has it.  For every phase, [ERROR] included, a call of
    [update_status] with an empty message stores the fixed default
    message of the phase (for [PROVISIONING], "Provisioning Greengrass
    device"); the default is never empty and no two phases share one, so
    there are ten defaults. *)
Theorem update_status_empty_message_default :
  ∀ (ext : Externals) now st (progress : Z) (s : Status.state),
    Status.message
      (Props.current (Status.update_status now st EmptyString progress s).2)
    = Status.default_message st
    ∧ Status.default_message st ≠ EmptyString
    ∧ (∀ st', Status.default_message st' = Status.default_message st →
              st' = st)
    ∧ Status.default_message Status.PROVISIONING
      = "Provisioning Greengrass device"
    ∧ Status.default_message Status.ERROR
      = "An error occurred during provisioning".
Proof.
  intros ext now st progress s. rewrite update_status_current; simpl.
  split; [done|]. split; [by destruct st|].
  split; [|done]. intros st'. destruct st, st'; simpl; congruence.
Qed.


(** C9.  [report_error] sets the phase to [ERROR], stores the message,
    the detail and the time of the call, and leaves the stored progress
    as it was. *)
Theorem report_error_keeps_progress :
  ∀ (ext : Externals) now msg details (s : Status.state),
    let s' := (Status.report_error now msg details s).2 in
    Status.status (Props.current s') = Status.ERROR
    ∧ Status.progress_percentage (Props.current s')
      = Status.progress_percentage (Props.current s)
    ∧ Status.message (Props.current s') = msg
    ∧ Status.error_details (Props.current s') = details
    ∧ Status.timestamp (Props.current s') = now.
Proof.
  intros ext now msg details s s'. subst s'.
  rewrite report_error_current. simpl. done.
Qed.

(** ** The database look-up of [main] *)

Section DatabaseFacts.
Import Database.

Lemma get_device_config_returns id d :
  ∃ r d', get_device_config id d = (Returned r, d').
Proof.
  unfold get_device_config.
  destruct (db_ d) as [h|]; [|eauto].
  destruct (device_config h); [|eauto].
  destruct (plain_literal id); [eauto|].
  destruct (spliced_device_config h id); eauto.
Qed.

Lemma get_device_config_by_identifier_returns id d :
  ∃ r d', get_device_config_by_identifier id d = (Returned r, d').
Proof.
  unfold get_device_config_by_identifier.
  destruct (db_ d) as [h|]; [|eauto].
  destruct (device_identifiers h); [|eauto].
  destruct (if plain_literal id then _ else _); [|eauto].
  destruct (Str.is_empty _); [eauto|]. apply get_device_config_returns.
Qed.

End DatabaseFacts.

(** C10.  The look-up of [main] asks the database for the record of the
    device identifier; when that gives nothing it asks for the record of
    the device id "default"; it throws "No device configuration found in
    database" exactly when both look-ups give nothing, and otherwise
    returns the first record found. *)
Theorem find_device_config_falls_back_to_default :
  ∀ (d : Database.ConfigDatabase) (device_id : string) (s : Main.state),
    let by_identifier :=
      Database.get_device_config_by_identifier device_id d in
    let by_default :=
      Database.get_device_config "default" by_identifier.2 in
    let found := (Main.find_device_config d device_id s).1 in
    (∀ c, by_identifier.1 = Returned (Some c) →
          found = Returned (c, by_identifier.2))
    ∧ (by_identifier.1 = Returned None →
       ∀ c, by_default.1 = Returned (Some c) →
            found = Returned (c, by_default.2))
    ∧ (found = Thrown "No device configuration found in database"
       ↔ by_identifier.1 = Returned None ∧ by_default.1 = Returned None)
    ∧ (Main.find_device_config d device_id s).2 = s.
Proof.
  intros d device_id s by_identifier by_default found.
  subst found by_default by_identifier.
  unfold Main.find_device_config, Main.on_database, bind, ret, throw.
  destruct (get_device_config_by_identifier_returns device_id d)
    as (r1 & d1 & E1).
  rewrite E1; cbn. destruct r1 as [c1|]; cbn.
  - split; [intros c Hc; congruence|].
    split; [discriminate|].
    split; [|done].
    split; [discriminate | intros [? ?]; congruence].
  - destruct (get_device_config_returns "default" d1) as (r2 & d2 & E2).
    rewrite E2; cbn. destruct r2 as [c2|]; cbn.
    + split; [discriminate|].
      split; [intros _ c Hc; congruence|].
      split; [|done].
      split; [discriminate | intros [? ?]; congruence].
    + split; [discriminate|].
      split; [intros _ c Hc; congruence|].
      split; [|done].
      split; done.
Qed.

(** ** The exit code of [main] *)

Section MainFacts.
Context `{Externals}.
Variable env : Main.environment.
Import Main.

Lemma main_update_status_returns st msg progress s :
  update_status env st msg progress s
  = (Returned (), (update_status env st msg progress s).2).
Proof.
  unfold update_status, on_reporter.
  pose proof (update_status_returns (now env) st msg progress
                {| Status.reporter := status_reporter s;
                   Status.fs := fs s |}) as R.
  destruct (Status.update_status _ _ _ _ _) as [r s1]; simpl in *.
  by rewrite R.
Qed.

#[local] Abbreviation conn_result := (Props.conn_result env).
#[local] Abbreviation checked_state := (Props.checked_state env).

Lemma try_block_check_throws options s what :
  Checker.check_provisioning_status (Checker.make (greengrass_path options))
    (fs (checked_state s)) = Thrown what →
  (try_block env options s).1 = Thrown what.
Proof.
  intros E. unfold try_block, bind at 1.
  rewrite main_update_status_returns. fold (Props.checked_state env s).
  unfold bind at 1, reads. by rewrite E.
Qed.

Lemma try_block_already_provisioned options s prov_status :
  Checker.check_provisioning_status (Checker.make (greengrass_path options))
    (fs (checked_state s)) = Returned prov_status →
  Checker.is_provisioned prov_status = true →
  (try_block env options s).1 = Returned 0%Z.
Proof.
  intros E P. unfold try_block, bind at 1.
  rewrite main_update_status_returns. fold (Props.checked_state env s).
  unfold bind at 1, reads. rewrite E, P.
  unfold bind. by rewrite main_update_status_returns.
Qed.

Lemma try_block_no_connectivity options s prov_status :
  Checker.check_provisioning_status (Checker.make (greengrass_path options))
    (fs (checked_state s)) = Returned prov_status →
  Checker.is_provisioned prov_status = false →
  Connectivity.is_connected conn_result = false →
  (try_block env options s).1 = Returned 2%Z.
Proof.
  intros E P C. unfold try_block, bind at 1.
  rewrite main_update_status_returns. fold (Props.checked_state env s).
  unfold bind at 1, reads. rewrite E, P.
  unfold bind at 1. rewrite main_update_status_returns.
  fold (Props.conn_result env). rewrite C. simpl.
  unfold bind. by rewrite main_update_status_returns.
Qed.

Lemma try_block_returns_0_or_2 options s code s' :
  try_block env options s = (Returned code, s') →
  ∃ prov_status,
    Checker.check_provisioning_status
      (Checker.make (greengrass_path options)) (fs (checked_state s))
    = Returned prov_status
    ∧ ((Checker.is_provisioned prov_status = true ∧ code = 0%Z)
       ∨ (Checker.is_provisioned prov_status = false
          ∧ Connectivity.is_connected conn_result = false ∧ code = 2%Z)
       ∨ (Checker.is_provisioned prov_status = false
          ∧ Connectivity.is_connected conn_result = true ∧ code = 0%Z)).
Proof.
  intros E. unfold try_block in E.
  apply bind_returned in E as (? & s1 & E1 & E).
  rewrite main_update_status_returns in E1. injection E1 as _ <-.
  fold (Props.checked_state env s) in E.
  apply bind_returned in E as (prov_status & s2 & E2 & E).
  unfold reads in E2.
  destruct (Checker.check_provisioning_status _ _) as [ps|] eqn:Ec;
    [|discriminate].
  injection E2 as -> <-. exists prov_status. split; [done|].
  destruct (Checker.is_provisioned prov_status) eqn:P.
  { left. apply bind_returned in E as (? & ? & _ & E).
    by injection E as <- _. }
  right.
  apply bind_returned in E as (? & s3 & _ & E).
  fold (Props.conn_result env) in E.
  destruct (Connectivity.is_connected conn_result) eqn:C; simpl in E.
  2:{ left. apply bind_returned in E as (? & ? & _ & E).
      by injection E as <- _. }
  right. split; [done|]. split; [done|].
  repeat (apply bind_returned in E as (? & ? & _ & E);
          try match type of E with
              | (let '(_, _) := ?x in _) _ = _ => destruct x
              end).
  by injection E as <- _.
Qed.

Lemma main_parse_failure fs0 :
  parsed_arguments env = None → (main env fs0).1 = Exit 1.
Proof. unfold main. by intros ->. Qed.

Lemma main_reporter_throws fs0 options what fs1 :
  parsed_arguments env = Some options →
  Status.make (now env) (status_file options) fs0 = (Thrown what, fs1) →
  (main env fs0).1 = Terminate what.
Proof. unfold main. by intros -> ->. Qed.

Lemma main_exit_code fs0 options r fs1 :
  parsed_arguments env = Some options →
  Status.make (now env) (status_file options) fs0 = (Returned r, fs1) →
  (main env fs0).1 =
    match (try_block env options
             {| status_reporter := r; fs := fs1 |}).1 with
    | Returned code => Exit code
    | Thrown _ => Exit 1
    end.
Proof.
  unfold main. intros -> ->. unfold try_catch.
  destruct (try_block env options _) as [[code|what] s1]; simpl; [done|].
  unfold bind, on_reporter.
  pose proof (write_status_file_returns) as W.
  unfold Status.report_error, bind, modify.
  match goal with |- context [Status.write_status_file ?x] =>
    specialize (W x); destruct (Status.write_status_file x) as [[[]|e] s2]
  end; simpl in *; done.
Qed.

End MainFacts.

(** C2.  With a status file that is to be placed below a regular file,
    the constructor of the reporter throws before the [try] block of
    [main] is entered: the run ends through [std::terminate] and not by
    [return 1]. *)
Theorem main_terminates_on_reporter_exception :
  (@Main.main Examples.externals Examples.environment_status_below_file
     Examples.fs_with_hostname_file).1
  = Main.Terminate "Not a directory".
Proof. vm_compute. reflexivity. Qed.

(** ** Directory listings *)

Section ListingFacts.
Import Fs.

Lemma entry_of_spec d k n name n' :
  entry_of d (k, n) = Some (name, n') ↔ k = d ++ [name] ∧ n' = n.
Proof.
  unfold entry_of; simpl. split.
  - destruct (last k) as [x|] eqn:L; [|discriminate].
    destruct (decide (removelast k = d)) as [<-|]; [|discriminate].
    intros [= <- <-]. split; [|done].
    apply last_Some in L as [l' ->]. by rewrite removelast_last.
  - intros [-> ->]. rewrite last_snoc, removelast_last.
    by destruct (decide (d = d)).
Qed.

Lemma elem_of_children fs d name n :
  (name, n) ∈ children fs d ↔ nodes fs !! (d ++ [name]) = Some n.
Proof.
  unfold children. rewrite list_elem_of_omap. split.
  - intros ([k n'] & Hin & E). apply elem_of_map_to_list in Hin.
    apply entry_of_spec in E as [-> ->]. done.
  - intros E. exists (d ++ [name], n). split.
    + by apply elem_of_map_to_list.
    + by apply entry_of_spec.
Qed.

End ListingFacts.

(** ** Paths below the root *)

Lemma join_config p : Fs.join p "config" = p ++ ["config"].
Proof. reflexivity. Qed.
Lemma join_certs p : Fs.join p "certs" = p ++ ["certs"].
Proof. reflexivity. Qed.
Lemma join_logs p : Fs.join p "logs" = p ++ ["logs"].
Proof. reflexivity. Qed.
Lemma join_work p : Fs.join p "work" = p ++ ["work"].
Proof. reflexivity. Qed.
Lemma join_packages p : Fs.join p "packages" = p ++ ["packages"].
Proof. reflexivity. Qed.
Lemma join_deployments p : Fs.join p "deployments" = p ++ ["deployments"].
Proof. reflexivity. Qed.
Lemma join_ggc_root p : Fs.join p "ggc-root" = p ++ ["ggc-root"].
Proof. reflexivity. Qed.
Lemma join_recipes p : Fs.join p "recipes" = p ++ ["recipes"].
Proof. reflexivity. Qed.
Lemma join_config_yaml p : Fs.join p "config.yaml" = p ++ ["config.yaml"].
Proof. reflexivity. Qed.
Lemma join_config_yml p : Fs.join p "config.yml" = p ++ ["config.yml"].
Proof. reflexivity. Qed.
Lemma join_config_json p : Fs.join p "config.json" = p ++ ["config.json"].
Proof. reflexivity. Qed.
Lemma join_root_ca p : Fs.join p "root.ca.pem" = p ++ ["root.ca.pem"].
Proof. reflexivity. Qed.

Create Rewrite HintDb paths.
#[local] Hint Rewrite join_config join_certs join_logs join_work
  join_packages join_deployments join_ggc_root join_recipes
  join_config_yaml join_config_yml join_config_json join_root_ca : paths.

(** ** Provisioning checker *)

Section CheckerFacts.
Context `{Externals}.
Import Checker Props.

Lemma scan_entries entries found_cert found_key :
  fold_left scan_entry entries (found_cert, found_key)
  = (found_cert || existsb is_cert_file entries,
     found_key || existsb is_key_file entries).
Proof.
  revert found_cert found_key.
  induction entries as [|[name n] entries IH]; intros found_cert found_key.
  - simpl. by rewrite !orb_false_r.
  - simpl. unfold scan_entry at 2; simpl.
    destruct n as [c m o|m o]; rewrite IH; simpl.
    + unfold is_cert_file, is_key_file, cert_name, key_name; simpl.
      by rewrite !orb_assoc.
    + unfold is_cert_file, is_key_file; simpl. done.
Qed.

Lemma check_certificates_exist_true self fs :
  check_certificates_exist self fs = Returned true →
  (∃ cert c m o,
     Fs.nodes fs !! (certs_path_ self ++ [cert]) = Some (Fs.File c m o)
     ∧ cert_name cert = true)
  ∧ (∃ key c m o,
       Fs.nodes fs !! (certs_path_ self ++ [key]) = Some (Fs.File c m o)
       ∧ key_name key = true).
Proof.
  unfold check_certificates_exist.
  destruct (negb _); [discriminate|].
  destruct (check_directory_not_empty _ _); [|discriminate].
  destruct (Fs.directory_iterator fs (certs_path_ self)) as [entries|] eqn:D;
    [|discriminate].
  rewrite scan_entries; simpl. intros [= E].
  apply andb_true_iff in E as [Ec Ek].
  assert (entries = Fs.children fs (certs_path_ self)) as ->.
  { unfold Fs.directory_iterator in D.
    destruct (Fs.nodes fs !! certs_path_ self) as [[]|]; try discriminate.
    destruct (Fs.can_read _); by inversion D. }
  split.
  - apply existsb_exists in Ec as ([name n] & Hin & Hc).
    apply list_elem_of_In, elem_of_children in Hin.
    unfold is_cert_file in Hc; simpl in Hc.
    destruct n as [c m o|]; [|discriminate]. eauto 10.
  - apply existsb_exists in Ek as ([name n] & Hin & Hk).
    apply list_elem_of_In, elem_of_children in Hin.
    unfold is_key_file in Hk; simpl in Hk.
    destruct n as [c m o|]; [|discriminate]. eauto 10.
Qed.

Lemma check_config_exists_true self fs :
  check_config_exists self fs = true →
  ∃ name, name ∈ ["config.yaml"; "config.yml"; "config.json"]
          ∧ Fs.exists_ fs (config_path_ self ++ [name]) = true.
Proof.
  unfold check_config_exists. intros E.
  apply orb_true_iff in E as [E|E]; [apply orb_true_iff in E as [E|E]|].
  - exists "config.yaml". split; [set_solver | exact E].
  - exists "config.yml". split; [set_solver | exact E].
  - exists "config.json". split; [set_solver | exact E].
Qed.

Lemma check_greengrass_root_exists_true self fs :
  check_greengrass_root_exists self fs = true →
  Fs.is_directory fs (ggc_root_path_ self) = true.
Proof. unfold check_greengrass_root_exists. by intros [_ ?]%andb_true_iff. Qed.

Lemma is_empty_false content :
  Str.is_empty content = false → content ≠ EmptyString.
Proof. by intros E ->. Qed.

Lemma validate_config_files_true fs configs :
  validate_config_files fs configs = true →
  ∃ config_file, config_file ∈ configs ∧ accepted_config fs config_file.
Proof.
  induction configs as [|config_file rest IH]; simpl; [discriminate|].
  assert (Later : validate_config_files fs rest = true →
                  ∃ p, p ∈ config_file :: rest ∧ accepted_config fs p).
  { intros (p & Hin & Hp)%IH. exists p. split; [by right | done]. }
  destruct (Fs.exists_ fs config_file); [|done].
  destruct (Fs.ifstream fs config_file) as [[content|]|] eqn:I;
    simpl; [|discriminate|done].
  destruct (Str.is_empty content) eqn:Ne; [discriminate|].
  apply is_empty_false in Ne.
  destruct (is_yaml config_file) eqn:Y.
  - destruct (Str.contains "system:" content) eqn:Hs; [|done].
    destruct (Str.contains "services:" content) eqn:Hv; [|done].
    intros _. exists config_file. split; [by left|].
    exists content. split; [done|]. split; [done|]. left.
    split; [|done].
    unfold is_yaml in Y. apply orb_true_iff in Y as [Y|Y];
      apply String.eqb_eq in Y; rewrite Y; set_solver.
  - destruct (String.eqb (Fs.extension config_file) ".json") eqn:J; [|done].
    apply String.eqb_eq in J.
    destruct (json_parse content) as [json|] eqn:P; [|discriminate].
    destruct (Json.contains json "coreThing") eqn:K1; simpl.
    + intros _. exists config_file. split; [by left|].
      exists content. split; [done|]. split; [done|]. right.
      split; [done|]. exists json. split; [done | by left].
    + destruct (Json.contains json "system") eqn:K2; [|done].
      intros _. exists config_file. split; [by left|].
      exists content. split; [done|]. split; [done|]. right.
      split; [done|]. exists json. split; [done | by right].
Qed.

Lemma validate_config_file_true self fs :
  validate_config_file self fs = true →
  ∃ name, name ∈ ["config.yaml"; "config.yml"; "config.json"]
          ∧ accepted_config fs (config_path_ self ++ [name]).
Proof.
  unfold validate_config_file, possible_configs.
  intros (p & Hin & Hp)%validate_config_files_true.
  autorewrite with paths in Hin.
  apply elem_of_cons in Hin as [->|Hin]; [exists "config.yaml"; set_solver|].
  apply elem_of_cons in Hin as [->|Hin]; [exists "config.yml"; set_solver|].
  apply elem_of_cons in Hin as [->|Hin]; [exists "config.json"; set_solver|].
  by apply elem_of_nil in Hin.
Qed.

End CheckerFacts.

(** C1.  When [check_provisioning_status] reports [is_provisioned], one
    of [config.yaml], [config.yml], [config.json] exists in the [config]
    directory of the root, the [certs] directory holds a regular file
    with a certificate name and one with a key name, [ggc-root] is a
    directory, and [validate_config_file] accepts the configuration:
    one of the three files opens, is not empty and holds the keys
    looked for.  When the root exists, the three components are there and the
    validation fails, the result is not provisioned, its details are
    "Configuration file is invalid or corrupted" and no component is
    listed as missing. *)
Theorem provisioned_only_if_complete_and_valid :
  ∀ (ext : Externals) (greengrass_path : string) (fs : Fs.filesystem)
    (status : Checker.ProvisioningStatus),
    let root := Fs.path_of_string greengrass_path in
    let self := Checker.make greengrass_path in
    Checker.check_provisioning_status self fs = Returned status →
    (Checker.is_provisioned status = true →
       (∃ name, name ∈ ["config.yaml"; "config.yml"; "config.json"]
                ∧ Fs.exists_ fs (root ++ ["config"; name]) = true)
       ∧ (∃ cert c m o,
            Fs.nodes fs !! (root ++ ["certs"; cert]) = Some (Fs.File c m o)
            ∧ Props.cert_name cert = true)
       ∧ (∃ key c m o,
            Fs.nodes fs !! (root ++ ["certs"; key]) = Some (Fs.File c m o)
            ∧ Props.key_name key = true)
       ∧ Fs.is_directory fs (root ++ ["ggc-root"]) = true
       ∧ Checker.validate_config_file self fs = true
       ∧ (∃ name, name ∈ ["config.yaml"; "config.yml"; "config.json"]
                  ∧ Props.accepted_config fs (root ++ ["config"; name])))
    ∧ (Fs.exists_ fs root = true →
       Checker.check_config_exists self fs = true →
       Checker.check_certificates_exist self fs = Returned true →
       Checker.check_greengrass_root_exists self fs = true →
       Checker.validate_config_file self fs = false →
       Checker.is_provisioned status = false
       ∧ Checker.details status = "Configuration file is invalid or corrupted"
       ∧ Checker.missing_components status = []).
Proof.
  intros ext greengrass_path fs status root self E.
  unfold Checker.check_provisioning_status in E.
  split.
  - intros P.
    destruct (negb _); [injection E as <-; discriminate|].
    destruct (Checker.check_certificates_exist self fs) as [has_certs|] eqn:C;
      [|discriminate].
    destruct (Checker.check_config_exists self fs) eqn:Hc; simpl in E;
      [|injection E as <-; discriminate].
    destruct has_certs; simpl in E; [|injection E as <-; discriminate].
    destruct (Checker.check_greengrass_root_exists self fs) eqn:Hr;
      simpl in E; [|injection E as <-; discriminate].
    destruct (Checker.validate_config_file self fs) eqn:V;
      [|injection E as <-; discriminate].
    apply check_config_exists_true in Hc as (name & Hin & Hc).
    apply check_certificates_exist_true in C as [Hcert Hkey].
    apply check_greengrass_root_exists_true in Hr.
    pose proof (validate_config_file_true _ _ V) as (vname & Vin & Hv).
    subst self root. unfold Checker.make in *. simpl in *.
    autorewrite with paths in *.
    destruct Hcert as (cert & c & m & o & Hcert & Ncert).
    destruct Hkey as (key & c' & m' & o' & Hkey & Nkey).
    rewrite <- !app_assoc in *. simpl in *.
    split; [by exists name|].
    split; [by exists cert, c, m, o|].
    split; [by exists key, c', m', o'|].
    split; [exact Hr|]. split; [done|]. by exists vname.
  - intros R Hc C Hr V.
    change (Checker.greengrass_path_ self) with root in E.
    rewrite R, C, Hc, Hr, V in E. simpl in E. by injection E as <-.
Qed.

Lemma provisioned_only_if_complete_and_valid_witness :
  @Checker.check_provisioning_status Examples.externals
    (Checker.make "/greengrass/v2") Examples.provisioned_fs
  = Returned Examples.provisioned_status
  ∧ Fs.is_directory Examples.provisioned_fs ["greengrass"; "v2"; "ggc-root"]
    = true
  ∧ @Checker.validate_config_file Examples.externals
      (Checker.make "/greengrass/v2") Examples.provisioned_fs = true.
Proof.
  assert (E : @Checker.check_provisioning_status Examples.externals
                (Checker.make "/greengrass/v2") Examples.provisioned_fs
              = Returned Examples.provisioned_status)
    by (vm_compute; reflexivity).
  split; [exact E|].
  destruct (provisioned_only_if_complete_and_valid Examples.externals
              "/greengrass/v2" Examples.provisioned_fs
              Examples.provisioned_status E) as [P _].
  destruct (P eq_refl) as (_ & _ & _ & D & V & _).
  split; [exact D | exact V].
Defined.

(** ** Texts and file names *)

Section StringFacts.

Lemma starts_with_app p s : Str.starts_with p (p +:+ s) = true.
Proof.
  induction p as [|a p IH]; simpl; [done|].
  by rewrite Ascii.eqb_refl, IH.
Qed.

Lemma starts_with_app_l p s b :
  Str.starts_with p s = true → Str.starts_with p (s +:+ b) = true.
Proof.
  revert s. induction p as [|a p IH]; intros s; [done|].
  destruct s as [|c s]; simpl; [done|].
  intros [-> E]%andb_true_iff. simpl. by apply IH.
Qed.

Lemma contains_unfold pat s :
  Str.contains pat s =
  Str.starts_with pat s
  || match s with
     | EmptyString => false
     | String _ s' => Str.contains pat s'
     end.
Proof. by destruct s. Qed.

Lemma contains_here pat s : Str.contains pat (pat +:+ s) = true.
Proof. by rewrite contains_unfold, starts_with_app. Qed.

Lemma contains_app_r pat a s :
  Str.contains pat s = true → Str.contains pat (a +:+ s) = true.
Proof.
  intros E. induction a as [|c a IH]; simpl; [done|].
  rewrite IH. apply orb_true_r.
Qed.

Lemma contains_app_l pat s b :
  Str.contains pat s = true → Str.contains pat (s +:+ b) = true.
Proof.
  induction s as [|c s IH].
  - simpl. rewrite orb_false_r. intros E.
    rewrite contains_unfold. destruct pat; [done | discriminate].
  - rewrite contains_unfold. intros [E|E]%orb_true_iff.
    + rewrite contains_unfold.
      by rewrite (starts_with_app_l _ _ _ E).
    + simpl. rewrite IH; [apply orb_true_r | done].
Qed.

Lemma contains_slash_cons c r :
  Str.contains "/" (String c r) = false →
  Ascii.eqb c "/"%char = false ∧ Str.contains "/" r = false.
Proof.
  rewrite contains_unfold. intros [E1 E2]%orb_false_iff.
  split; [|done]. cbn [Str.starts_with] in E1.
  rewrite andb_true_r in E1. by rewrite Ascii.eqb_sym.
Qed.

Lemma contains_slash_app a b :
  Str.contains "/" a = false → Str.contains "/" b = false →
  Str.contains "/" (a +:+ b) = false.
Proof.
  induction a as [|c a IH]; [done|]. intros Ea Eb.
  apply contains_slash_cons in Ea as [Ec Ea].
  change (String c a +:+ b) with (String c (a +:+ b)).
  rewrite contains_unfold, (IH Ea Eb), orb_false_r.
  cbn [Str.starts_with]. by rewrite Ascii.eqb_sym, Ec.
Qed.

Lemma split_on_nonempty sep s : Str.split_on sep s ≠ [].
Proof.
  destruct s as [|c r]; simpl; [done|].
  destruct (Ascii.eqb c sep); [done|]. by destruct (Str.split_on sep r).
Qed.

Lemma split_on_no_slash s :
  Str.contains "/" s = false → Str.split_on "/" s = [s].
Proof.
  induction s as [|c r IH]; [done|]. intros E.
  apply contains_slash_cons in E as [Ec Er]. simpl.
  by rewrite Ec, (IH Er).
Qed.

(** The pieces of [s +:+ t] when [t] has no ['/']: those of [s], with
    [t] added to the last one. *)
Lemma split_on_app_no_slash s t :
  Str.contains "/" t = false →
  ∃ l x, Str.split_on "/" s = l ++ [x]
         ∧ Str.split_on "/" (s +:+ t) = l ++ [x +:+ t].
Proof.
  intros Et. induction s as [|c r (l & x & E1 & E2)].
  - exists [], EmptyString. split; [done|]. by apply split_on_no_slash.
  - simpl. destruct (Ascii.eqb c "/").
    + exists (EmptyString :: l), x. by rewrite E1, E2.
    + rewrite E1, E2. destruct l as [|h l]; simpl.
      * by exists [], (String c x).
      * by exists (String c h :: l), x.
Qed.

Lemma last_char_app x t :
  t ≠ EmptyString → Str.last_char (x +:+ t) = Str.last_char t.
Proof.
  intros ne. induction x as [|c x IH]; [done|]. simpl.
  destruct (x +:+ t) eqn:E; [|exact IH].
  destruct x as [|a x]; [by apply ne in E | discriminate E].
Qed.

Lemma app_not_empty x t : t ≠ EmptyString → x +:+ t ≠ EmptyString.
Proof. destruct x; simpl; [done | discriminate]. Qed.

Lemma keep_component_app x t :
  String.length t ≥ 2 → Fs.keep_component (x +:+ t) = true.
Proof.
  intros L. unfold Fs.keep_component.
  destruct x as [|c x]; simpl.
  - destruct t as [|a [|b t]]; simpl in *; try lia.
    destruct (Ascii.eqb a "."); simpl; done.
  - destruct (x +:+ t) eqn:E.
    + destruct x as [|a x]; [|discriminate E].
      change (t = EmptyString) in E. subst. simpl in L. lia.
    + by destruct (Ascii.eqb c ".").
Qed.

End StringFacts.

Section PathFacts.
Import Fs Props.

Lemma path_of_string_no_slash x t :
  Str.contains "/" x = false → Str.contains "/" t = false →
  String.length t ≥ 2 →
  path_of_string (x +:+ t) = [x +:+ t].
Proof.
  intros Ex Et L. unfold path_of_string.
  rewrite split_on_no_slash by by apply contains_slash_app.
  simpl. by rewrite keep_component_app.
Qed.

Lemma is_absolute_no_slash s :
  Str.contains "/" s = false → is_absolute s = false.
Proof.
  unfold is_absolute. destruct s as [|c r]; [done|].
  intros [Ec _]%contains_slash_cons. cbn [Str.starts_with].
  by rewrite Ascii.eqb_sym, Ec.
Qed.

(** A name without ['/'] is entered directly below [p]. *)
Lemma join_no_slash p x t :
  Str.contains "/" x = false → Str.contains "/" t = false →
  String.length t ≥ 2 →
  join p (x +:+ t) = p ++ [x +:+ t].
Proof.
  intros Ex Et L. unfold join.
  rewrite is_absolute_no_slash by by apply contains_slash_app.
  by rewrite path_of_string_no_slash.
Qed.

(** Whatever [s] is, the file name of [p / (s +:+ t)] ends with [t]. *)
Lemma last_path_of_string_app s t :
  Str.contains "/" t = false → String.length t ≥ 2 →
  ∃ x, last (path_of_string (s +:+ t)) = Some (x +:+ t).
Proof.
  intros Et L. unfold path_of_string.
  destruct (split_on_app_no_slash s t Et) as (l & x & _ & ->).
  exists x. rewrite List.filter_app. simpl. rewrite keep_component_app by done.
  apply last_snoc.
Qed.

Lemma last_join_app p s t :
  Str.contains "/" t = false → String.length t ≥ 2 →
  ∃ x, last (join p (s +:+ t)) = Some (x +:+ t).
Proof.
  intros Et L. destruct (last_path_of_string_app s t Et L) as [x E].
  exists x. unfold join. destruct (is_absolute _); [done|].
  apply last_Some in E as [l' ->]. rewrite app_assoc. apply last_snoc.
Qed.

Lemma final_char_join_app p s t :
  Str.contains "/" t = false → String.length t ≥ 2 →
  final_char (join p (s +:+ t)) = Str.last_char t.
Proof.
  intros Et L. destruct (last_join_app p s t Et L) as [x E].
  unfold final_char. rewrite E. simpl. apply last_char_app.
  destruct t; simpl in *; [lia | done].
Qed.

Lemma final_char_snoc p name :
  final_char (p ++ [name]) = Str.last_char name.
Proof. unfold final_char. by rewrite last_snoc. Qed.

Lemma filename_snoc p name : filename (p ++ [name]) = name.
Proof. unfold filename. by rewrite last_snoc. Qed.

End PathFacts.

(** ** What the file-system calls keep *)

Section FsInvariants.
Import Fs Props.

Lemma ofstream_lookup_other p c fs r fs' q :
  ofstream p c fs = (r, fs') → q ≠ p → nodes fs' !! q = nodes fs !! q.
Proof.
  intros E ne.
  destruct (ofstream_cases p c fs) as [E'|(m & o & E' & _)];
    rewrite E' in E; injection E as <- <-; [done|].
  simpl. by rewrite lookup_insert_ne.
Qed.

Lemma ofstream_true_lookup p c fs fs' :
  ofstream p c fs = (Returned true, fs') →
  ∃ m o, nodes fs' !! p = Some (File c m o).
Proof.
  intros E.
  destruct (ofstream_cases p c fs) as [E'|(m & o & E' & _)];
    rewrite E' in E; [discriminate|].
  injection E as <-. exists m, o. simpl. apply lookup_insert_eq.
Qed.

Lemma ofstream_true_not_dir p c fs fs' m o :
  ofstream p c fs = (Returned true, fs') → nodes fs !! p ≠ Some (Dir m o).
Proof.
  unfold ofstream. intros E D. rewrite D in E. discriminate.
Qed.

Lemma ofstream_file p c fs r fs' q c0 m o :
  ofstream p c fs = (r, fs') →
  nodes fs !! q = Some (File c0 m o) →
  ∃ c1, nodes fs' !! q = Some (File c1 m o).
Proof.
  intros E Hq.
  destruct (ofstream_cases p c fs) as [E'|(m' & o' & E' & Hp)];
    rewrite E' in E; injection E as <- <-; [eauto|].
  simpl. destruct (decide (p = q)) as [->|ne].
  - rewrite lookup_insert_eq. rewrite Hq in Hp.
    destruct Hp as [c2 Hp]. simplify_eq. eauto.
  - rewrite lookup_insert_ne by done. eauto.
Qed.

Lemma ofstream_dir p c fs r fs' q m o :
  ofstream p c fs = (r, fs') →
  nodes fs !! q = Some (Dir m o) → nodes fs' !! q = Some (Dir m o).
Proof.
  intros E Hq.
  destruct (ofstream_cases p c fs) as [E'|(m' & o' & E' & Hp)];
    rewrite E' in E; injection E as <- <-; [done|].
  simpl. destruct (decide (p = q)) as [->|ne].
  - rewrite Hq in Hp. by destruct Hp.
  - by rewrite lookup_insert_ne.
Qed.

Lemma permissions_lookup_other p X fs r fs' q :
  permissions p X fs = (r, fs') → q ≠ p → nodes fs' !! q = nodes fs !! q.
Proof.
  intros E ne.
  destruct (permissions_cases p X fs) as [(e & E' & _)|(n & _ & _ & E')];
    rewrite E' in E; injection E as <- <-; [done|].
  simpl. by rewrite lookup_insert_ne.
Qed.

Lemma permissions_file p X fs r fs' q c m o :
  permissions p X fs = (r, fs') →
  nodes fs !! q = Some (File c m o) →
  ∃ m', nodes fs' !! q = Some (File c m' o)
        ∧ (q ≠ p → m' = m) ∧ (q = p → o = true → m' = X)
        ∧ (m' = m ∨ m' = X).
Proof.
  intros E Hq.
  destruct (permissions_cases p X fs) as [(e & E' & F)|(n & Hp & O & E')];
    rewrite E' in E; injection E as <- <-.
  - exists m. split; [done|]. split; [done|]. split; [|by left].
    intros -> ->. by specialize (F _ Hq).
  - simpl. destruct (decide (p = q)) as [->|ne].
    + rewrite lookup_insert_eq. rewrite Hq in Hp. injection Hp as <-.
      exists X. simpl. split; [done|]. split; [done|]. split; [done|by right].
    + rewrite lookup_insert_ne by done. exists m.
      split; [done|]. split; [done|]. split; [congruence | by left].
Qed.

Lemma permissions_dir p X fs r fs' q m o :
  permissions p X fs = (r, fs') →
  nodes fs !! q = Some (Dir m o) →
  ∃ m', nodes fs' !! q = Some (Dir m' o)
        ∧ (q ≠ p → m' = m) ∧ (q = p → r = Returned () → m' = X ∧ o = true).
Proof.
  intros E Hq.
  destruct (permissions_cases p X fs) as [(e & E' & F)|(n & Hp & O & E')];
    rewrite E' in E; injection E as <- <-.
  - exists m. split; [done|]. split; [done|]. discriminate.
  - simpl. destruct (decide (p = q)) as [->|ne].
    + rewrite lookup_insert_eq. rewrite Hq in Hp. injection Hp as <-.
      exists X. simpl in *. split; [done|]. split; [done|]. done.
    + rewrite lookup_insert_ne by done. exists m.
      split; [done|]. split; [done|]. congruence.
Qed.

(** A file just written is not the directory [q]: writing it and
    changing its mode leave [q] as it is. *)
Lemma write_chmod_dir p c X fs fs1 r fs2 q m o :
  ofstream p c fs = (Returned true, fs1) →
  permissions p X fs1 = (r, fs2) →
  nodes fs !! q = Some (Dir m o) → nodes fs2 !! q = Some (Dir m o).
Proof.
  intros E1 E2 Hq.
  assert (q ≠ p) as ne.
  { intros ->. by apply (ofstream_true_not_dir _ _ _ _ m o E1). }
  rewrite (permissions_lookup_other _ _ _ _ _ _ E2 ne).
  by rewrite (ofstream_lookup_other _ _ _ _ _ _ E1 ne).
Qed.

Lemma file_with_mode_ofstream p c fs r fs' q X :
  ofstream p c fs = (r, fs') →
  file_with_mode fs q X → file_with_mode fs' q X.
Proof.
  intros E (c0 & m & o & Hq & Hm).
  destruct (ofstream_file _ _ _ _ _ _ _ _ _ E Hq) as [c1 Hq'].
  by exists c1, m, o.
Qed.

Lemma file_with_mode_permissions p X' fs r fs' q X :
  permissions p X' fs = (r, fs') →
  p ≠ q ∨ X' = X →
  file_with_mode fs q X → file_with_mode fs' q X.
Proof.
  intros E Hor (c0 & m & o & Hq & Hm).
  destruct (permissions_file _ _ _ _ _ _ _ _ _ E Hq) as (m' & Hq' & Hne & _ & Hcase).
  exists c0, m', o. split; [done|]. intros O.
  destruct Hor as [ne| ->].
  - rewrite Hne by done. by apply Hm.
  - destruct Hcase as [->| ->]; [by apply Hm | done].
Qed.

Lemma file_with_mode_written p c X fs fs1 r fs2 :
  ofstream p c fs = (Returned true, fs1) →
  permissions p X fs1 = (r, fs2) →
  ∃ m o, nodes fs2 !! p = Some (File c m o) ∧ (o = true → m = X).
Proof.
  intros E1 E2.
  destruct (ofstream_true_lookup _ _ _ _ E1) as (m & o & Hp).
  destruct (permissions_file _ _ _ _ _ _ _ _ _ E2 Hp) as (m' & Hp' & _ & Hm & _).
  exists m', o. split; [done|]. by apply Hm.
Qed.

Lemma mkdirs_extends todo : ∀ done fs r fs' q n,
  mkdirs done todo fs = (r, fs') →
  nodes fs !! q = Some n → nodes fs' !! q = Some n.
Proof.
  induction todo as [|c rest IH]; intros done fs r fs' q n E Hq; simpl in E.
  - by injection E as <- <-.
  - destruct (nodes fs !! (done ++ [c])) as [[c0 m o|m o]|] eqn:L.
    + by injection E as <- <-.
    + by eapply IH.
    + destruct (nodes fs !! done) as [[c0 m o|m o]|];
        try by injection E as <- <-.
      destruct (can_write _); [|by injection E as <- <-].
      eapply IH; [exact E|]. simpl.
      rewrite lookup_insert_ne; [done|]. intros <-. congruence.
Qed.

Lemma mkdirs_directory todo : ∀ done fs fs',
  mkdirs done todo fs = (Returned (), fs') →
  is_directory fs done = true →
  is_directory fs' (done ++ todo) = true.
Proof.
  induction todo as [|c rest IH]; intros done fs fs' E D; simpl in E.
  - injection E as <-. by rewrite app_nil_r.
  - replace (done ++ c :: rest) with ((done ++ [c]) ++ rest)
      by by rewrite <- app_assoc.
    destruct (nodes fs !! (done ++ [c])) as [[c0 m o|m o]|] eqn:L.
    + discriminate.
    + eapply IH; [exact E|]. unfold is_directory. by rewrite L.
    + destruct (nodes fs !! done) as [[c0 m o|m o]|]; try discriminate.
      destruct (can_write _); [|discriminate].
      eapply IH; [exact E|]. unfold is_directory. simpl.
      by rewrite lookup_insert_eq.
Qed.

Lemma create_directories_extends p fs r fs' q n :
  create_directories p fs = (r, fs') →
  nodes fs !! q = Some n → nodes fs' !! q = Some n.
Proof.
  unfold create_directories. intros E Hq.
  destruct (nodes fs !! []) as [[]|]; try by injection E as <- <-.
  by eapply mkdirs_extends.
Qed.

Lemma create_directories_directory p fs fs' :
  create_directories p fs = (Returned (), fs') →
  is_directory fs' p = true.
Proof.
  unfold create_directories. intros E.
  destruct (nodes fs !! []) as [[]|] eqn:T; try discriminate.
  apply (mkdirs_directory p [] fs fs' E). unfold is_directory. by rewrite T.
Qed.

Lemma is_directory_lookup fs q :
  is_directory fs q = true ↔ ∃ m o, nodes fs !! q = Some (Dir m o).
Proof.
  unfold is_directory. split.
  - destruct (nodes fs !! q) as [[]|]; try discriminate. eauto.
  - by intros (m & o & ->).
Qed.

Lemma create_directories_keeps_directory p fs r fs' q :
  create_directories p fs = (r, fs') →
  is_directory fs q = true → is_directory fs' q = true.
Proof.
  intros E (m & o & Hq)%is_directory_lookup.
  apply is_directory_lookup. exists m, o.
  by eapply create_directories_extends.
Qed.

Lemma permissions_keeps_directory p X fs r fs' q :
  permissions p X fs = (r, fs') →
  is_directory fs q = true → is_directory fs' q = true.
Proof.
  intros E (m & o & Hq)%is_directory_lookup.
  destruct (permissions_dir _ _ _ _ _ _ _ _ E Hq) as (m' & Hq' & _).
  apply is_directory_lookup. eauto.
Qed.

End FsInvariants.

(** ** Configuration generator *)

Section GeneratorFacts.
Import Generator Props.

Lemma in_fs_inv {A} (m : M Fs.filesystem A) s r s' :
  in_fs m s = (r, s') → m (fs s) = (r, fs s') ∧ self s' = self s.
Proof.
  unfold in_fs. destruct (m (fs s)) as [r1 f1]. by intros [= <- <-].
Qed.

Lemma gets_inv {S A} (f : S → A) s r s' :
  gets f s = (r, s') → r = Returned (f s) ∧ s' = s.
Proof. by intros [= <- <-]. Qed.

Lemma reads_inv {S A} (f : S → outcome A) s r s' :
  reads f s = (r, s') → r = f s ∧ s' = s.
Proof. by intros [= <- <-]. Qed.

Lemma ret_inv {S A} (a : A) (s : S) r s' :
  ret a s = (r, s') → r = Returned a ∧ s' = s.
Proof. by intros [= <- <-]. Qed.

Lemma write_file_inv p c s r s' :
  write_file p c s = (r, s') →
  ∃ b, r = Returned b
       ∧ Fs.ofstream p c (fs s) = (Returned b, fs s')
       ∧ (b = true → self s' = self s).
Proof.
  unfold write_file, try_catch, bind, in_fs, set_last_error, modify, ret.
  destruct (ofstream_cases p c (fs s)) as [E|(m & o & E & _)]; rewrite E;
    cbn; intros [= <- <-].
  - by exists false.
  - by exists true.
Qed.

Lemma set_file_permissions_inv p k s r s' :
  set_file_permissions p k s = (r, s') →
  r = Returned true ∧ self s' = self s
  ∧ ∃ r', Fs.permissions p
            (if k then private_key_perms else other_file_perms) (fs s)
          = (r', fs s').
Proof.
  unfold set_file_permissions, try_catch, bind, in_fs, ret.
  destruct (Fs.permissions p _ (fs s)) as [[[]|e] f1] eqn:E; simpl;
    intros [= <- <-]; simpl; eauto.
Qed.

Lemma create_directory_structure_inv s s' :
  create_directory_structure s = (Returned true, s') →
  self s' = self s
  ∧ Fs.is_directory (fs s') (greengrass_path_ (self s)) = true
  ∧ Fs.nodes (fs s') !! certs_path_ (self s) = Some (Fs.Dir dir_perms true)
  ∧ Fs.is_directory (fs s')
      (Fs.join (greengrass_path_ (self s)) "ggc-root") = true.
Proof.
  unfold create_directory_structure. intros E.
  apply try_catch_cases in E as [(a & E & [= <-])|(e & s1 & _ & E)].
  2:{ apply bind_returned in E as (? & ? & _ & E). discriminate. }
  apply bind_returned in E as (g & s0 & [[= ->] ->]%gets_inv & E).
  apply bind_returned in E as (? & s1 & [E1 S1]%in_fs_inv & E).
  apply bind_returned in E as (? & s2 & [E2 S2]%in_fs_inv & E).
  apply bind_returned in E as (? & s3 & [E3 S3]%in_fs_inv & E).
  apply bind_returned in E as (? & s4 & [E4 S4]%in_fs_inv & E).
  apply bind_returned in E as (? & s5 & [E5 S5]%in_fs_inv & E).
  apply bind_returned in E as (? & s6 & [E6 S6]%in_fs_inv & E).
  apply bind_returned in E as (? & s7 & [E7 S7]%in_fs_inv & E).
  apply bind_returned in E as (? & s8 & [E8 S8]%in_fs_inv & E).
  apply bind_returned in E as (? & s9 & [E9 S9]%in_fs_inv & E).
  apply bind_returned in E as (? & s10 & [E10 S10]%in_fs_inv & E).
  apply ret_inv in E as [_ ->].
  repeat match goal with x : () |- _ => destruct x end.
  split; [congruence|]. split; [|split].
  - apply create_directories_directory in E1.
    do 7 (eapply create_directories_keeps_directory in E1; [|eassumption]).
    do 2 (eapply permissions_keeps_directory in E1; [|eassumption]).
    exact E1.
  - apply create_directories_directory in E3.
    do 5 (eapply create_directories_keeps_directory in E3; [|eassumption]).
    eapply permissions_keeps_directory in E3; [|exact E9].
    apply is_directory_lookup in E3 as (m & o & Hq).
    destruct (permissions_dir _ _ _ _ _ _ _ _ E10 Hq) as (m' & Hq' & _ & Hm).
    destruct (Hm eq_refl eq_refl) as [-> ->]. exact Hq'.
  - apply create_directories_directory in E8.
    do 2 (eapply permissions_keeps_directory in E8; [|eassumption]).
    exact E8.
Qed.

Lemma write_certificates_inv device_config s s' :
  write_certificates device_config s = (Returned true, s') →
  let cert_path :=
    Fs.join (certs_path_ (self s)) (cert_file_name device_config) in
  let key_path :=
    Fs.join (certs_path_ (self s)) (key_file_name device_config) in
  let root_ca_path := Fs.join (certs_path_ (self s)) "root.ca.pem" in
  self s' = self s
  ∧ ∃ f1 r1 f2 f3 r2 f4 ca f5 r3,
      Fs.ofstream cert_path (Database.certificate_pem device_config) (fs s)
      = (Returned true, f1)
      ∧ Fs.permissions cert_path other_file_perms f1 = (r1, f2)
      ∧ Fs.ofstream key_path (Database.private_key_pem device_config) f2
        = (Returned true, f3)
      ∧ Fs.permissions key_path private_key_perms f3 = (r2, f4)
      ∧ Fs.ofstream root_ca_path ca f4 = (Returned true, f5)
      ∧ Fs.permissions root_ca_path other_file_perms f5 = (r3, fs s').
Proof.
  unfold write_certificates. intros E.
  apply try_catch_cases in E as [(a & E & [= <-])|(e & s1 & _ & E)].
  2:{ apply bind_returned in E as (? & ? & _ & E). discriminate. }
  apply bind_returned in E as (g & s0 & [[= ->] ->]%gets_inv & E).
  apply bind_returned in E as (ok1 & s1 & W1 & E).
  apply write_file_inv in W1 as (b1 & [= ->] & W1 & S1).
  destruct b1; [|discriminate]. simpl in E.
  apply bind_returned in E as (? & s2 & P1 & E).
  apply set_file_permissions_inv in P1 as (_ & S2 & r1 & P1).
  apply bind_returned in E as (ok2 & s3 & W2 & E).
  apply write_file_inv in W2 as (b2 & [= ->] & W2 & S3).
  destruct b2; [|discriminate]. simpl in E.
  apply bind_returned in E as (? & s4 & P2 & E).
  apply set_file_permissions_inv in P2 as (_ & S4 & r2 & P2).
  apply bind_returned in E as (ca & s5 & [_ ->]%reads_inv & E).
  apply bind_returned in E as (ok3 & s6 & W3 & E).
  apply write_file_inv in W3 as (b3 & [= ->] & W3 & S6).
  destruct b3; [|discriminate]. simpl in E.
  apply bind_returned in E as (? & s7 & P3 & E).
  apply set_file_permissions_inv in P3 as (_ & S7 & r3 & P3).
  apply ret_inv in E as [_ ->].
  split; [rewrite S7, S6, S4, S3, S2, S1; done|].
  exists (fs s1), r1, (fs s2), (fs s3), r2, (fs s4), ca, (fs s6), r3.
  done.
Qed.

Lemma generate_greengrass_v2_config_inv device_config s s' :
  generate_greengrass_v2_config device_config s = (Returned true, s') →
  let config_file_path := Fs.join (config_path_ (self s)) "config.yaml" in
  self s' = self s
  ∧ ∃ f1 r1,
      Fs.ofstream config_file_path
        (generate_yaml_config_content (self s) device_config) (fs s)
      = (Returned true, f1)
      ∧ Fs.permissions config_file_path other_file_perms f1 = (r1, fs s').
Proof.
  unfold generate_greengrass_v2_config. intros E.
  apply try_catch_cases in E as [(a & E & [= <-])|(e & s1 & _ & E)].
  2:{ apply bind_returned in E as (? & ? & _ & E). discriminate. }
  apply bind_returned in E as (g & s0 & [[= ->] ->]%gets_inv & E).
  apply bind_returned in E as (ok1 & s1 & W1 & E).
  apply write_file_inv in W1 as (b1 & [= ->] & W1 & S1).
  destruct b1; [|discriminate]. simpl in E.
  apply bind_returned in E as (? & s2 & P1 & E).
  apply set_file_permissions_inv in P1 as (_ & S2 & r1 & P1).
  apply ret_inv in E as [_ ->].
  split; [rewrite S2, S1; done|]. by exists (fs s1), r1.
Qed.

Lemma validate_configuration_state s s' :
  validate_configuration s = (Returned true, s') → s' = s.
Proof.
  unfold validate_configuration, bind, gets, reads, set_last_error, modify,
    ret.
  destruct (negb _); [discriminate|].
  destruct (Fs.directory_iterator _ _); [|discriminate].
  destruct (negb _); [discriminate|]. by intros [= <-].
Qed.

Lemma validate_configuration_true s :
  Fs.exists_ (fs s) (Fs.join (config_path_ (self s)) "config.yaml") = true →
  (∃ m, Fs.nodes (fs s) !! certs_path_ (self s)
        = Some (Fs.Dir m true) ∧ Fs.has_bit m Fs.owner_read = true) →
  (∃ name n, Fs.nodes (fs s) !! (certs_path_ (self s) ++ [name]) = Some n
             ∧ is_cert_entry (name, n) = true) →
  validate_configuration s = (Returned true, s).
Proof.
  intros Ex (m & D & Rd) (name & n & Hn & Hc).
  unfold validate_configuration, bind, gets, reads. rewrite Ex. simpl.
  unfold Fs.directory_iterator. rewrite D. unfold Fs.can_read; simpl.
  rewrite Rd.
  assert (existsb is_cert_entry (Fs.children (fs s) (certs_path_ (self s)))
          = true) as ->.
  { apply existsb_exists. exists (name, n). split; [|done].
    by apply list_elem_of_In, elem_of_children. }
  done.
Qed.

Lemma final_char_ne p q : final_char p ≠ final_char q → p ≠ q.
Proof. congruence. Qed.

Lemma key_path_final_char p device_config :
  final_char (Fs.join p (key_file_name device_config)) = Some "y"%char.
Proof.
  unfold key_file_name.
  rewrite final_char_join_app; [done | done | simpl; lia].
Qed.

Lemma cert_path_final_char p device_config :
  final_char (Fs.join p (cert_file_name device_config)) = Some "m"%char.
Proof.
  unfold cert_file_name.
  rewrite final_char_join_app; [done | done | simpl; lia].
Qed.

(** What the first three steps of [generate_config] leave when each of
    them returns [true]. *)
Lemma generation_steps_facts device_config s s1 s2 s3 :
  create_directory_structure s = (Returned true, s1) →
  write_certificates device_config s1 = (Returned true, s2) →
  generate_greengrass_v2_config device_config s2 = (Returned true, s3) →
  let g := self s in
  self s3 = g
  ∧ Fs.is_directory (fs s3) (greengrass_path_ g) = true
  ∧ Fs.nodes (fs s3) !! certs_path_ g = Some (Fs.Dir dir_perms true)
  ∧ Fs.is_directory (fs s3) (Fs.join (greengrass_path_ g) "ggc-root") = true
  ∧ file_with_mode (fs s3)
      (Fs.join (certs_path_ g) (cert_file_name device_config))
      other_file_perms
  ∧ file_with_mode (fs s3)
      (Fs.join (certs_path_ g) (key_file_name device_config))
      private_key_perms
  ∧ file_with_mode (fs s3) (Fs.join (certs_path_ g) "root.ca.pem")
      other_file_perms
  ∧ ∃ m o, Fs.nodes (fs s3) !! Fs.join (config_path_ g) "config.yaml"
           = Some (Fs.File (generate_yaml_config_content g device_config)
                     m o)
           ∧ (o = true → m = other_file_perms).
Proof.
  intros E1 E2 E3 g. subst g.
  apply create_directory_structure_inv in E1 as (S1 & Droot & Dcerts & Dggc).
  apply write_certificates_inv in E2
    as (S2 & f1 & r1 & f2 & f3 & r2 & f4 & ca & f5 & r3
        & W1 & P1 & W2 & P2 & W3 & P3).
  apply generate_greengrass_v2_config_inv in E3
    as (S3 & g1 & r4 & W4 & P4).
  rewrite S2 in W4, P4, S3. rewrite S1 in W1, P1, W2, P2, W3, P3, W4, P4, S3.
  set (T := Fs.join (certs_path_ (self s)) (cert_file_name device_config))
    in *.
  set (K := Fs.join (certs_path_ (self s)) (key_file_name device_config))
    in *.
  set (R := Fs.join (certs_path_ (self s)) "root.ca.pem") in *.
  set (C := Fs.join (config_path_ (self s)) "config.yaml") in *.
  assert (KT : K ≠ T).
  { apply final_char_ne. subst K T.
    by rewrite key_path_final_char, cert_path_final_char. }
  assert (RK : R ≠ K).
  { apply final_char_ne. subst K R.
    rewrite key_path_final_char. autorewrite with paths.
    by rewrite final_char_snoc. }
  assert (CK : C ≠ K).
  { apply final_char_ne. subst K C.
    rewrite key_path_final_char. autorewrite with paths.
    by rewrite final_char_snoc. }
  assert (keep : ∀ q m o, Fs.nodes (fs s1) !! q = Some (Fs.Dir m o) →
                          Fs.nodes (fs s3) !! q = Some (Fs.Dir m o)).
  { intros q m o Hq.
    eapply (write_chmod_dir _ _ _ _ _ _ _ _ _ _ W4 P4).
    eapply (write_chmod_dir _ _ _ _ _ _ _ _ _ _ W3 P3).
    eapply (write_chmod_dir _ _ _ _ _ _ _ _ _ _ W2 P2).
    eapply (write_chmod_dir _ _ _ _ _ _ _ _ _ _ W1 P1). exact Hq. }
  split; [done|].
  split.
  { apply is_directory_lookup in Droot as (m & o & Hq).
    apply is_directory_lookup. eauto. }
  split; [by apply keep|].
  split.
  { apply is_directory_lookup in Dggc as (m & o & Hq).
    apply is_directory_lookup. eauto. }
  split.
  { eapply file_with_mode_permissions; [exact P4 | by right |].
    eapply file_with_mode_ofstream; [exact W4|].
    eapply file_with_mode_permissions; [exact P3 | by right |].
    eapply file_with_mode_ofstream; [exact W3|].
    eapply file_with_mode_permissions; [exact P2 | by left |].
    eapply file_with_mode_ofstream; [exact W2|].
    destruct (file_with_mode_written _ _ _ _ _ _ _ W1 P1) as (m & o & ? & ?).
    by exists (Database.certificate_pem device_config), m, o. }
  split.
  { eapply file_with_mode_permissions; [exact P4 | by left |].
    eapply file_with_mode_ofstream; [exact W4|].
    eapply file_with_mode_permissions; [exact P3 | by left |].
    eapply file_with_mode_ofstream; [exact W3|].
    destruct (file_with_mode_written _ _ _ _ _ _ _ W2 P2) as (m & o & ? & ?).
    by exists (Database.private_key_pem device_config), m, o. }
  split.
  { eapply file_with_mode_permissions; [exact P4 | by right |].
    eapply file_with_mode_ofstream; [exact W4|].
    destruct (file_with_mode_written _ _ _ _ _ _ _ W3 P3) as (m & o & ? & ?).
    by exists ca, m, o. }
  exact (file_with_mode_written _ _ _ _ _ _ _ W4 P4).
Qed.

(** A successful [generate_config] is the four steps, each returning
    [true]. *)
Lemma generate_config_success_inv device_config s gc s' :
  generate_config device_config s = (Returned gc, s') →
  success gc = true →
  ∃ s1 s2 s3,
    create_directory_structure s = (Returned true, s1)
    ∧ write_certificates device_config s1 = (Returned true, s2)
    ∧ generate_greengrass_v2_config device_config s2 = (Returned true, s3)
    ∧ validate_configuration s3 = (Returned true, s')
    ∧ gc = {| config_file_path :=
                Fs.join (config_path_ (self s')) "config.yaml";
              certificate_path :=
                Fs.join (certs_path_ (self s'))
                  (cert_file_name device_config);
              private_key_path :=
                Fs.join (certs_path_ (self s'))
                  (key_file_name device_config);
              root_ca_path := Fs.join (certs_path_ (self s')) "root.ca.pem";
              success := true;
              error_message := EmptyString |}.
Proof.
  unfold generate_config. intros E Hs.
  apply bind_returned in E as (ok1 & s1 & E1 & E).
  destruct ok1; simpl in E.
  2:{ apply bind_returned in E as (? & ? & _ & [[= ->] _]%ret_inv).
      discriminate. }
  apply bind_returned in E as (ok2 & s2 & E2 & E).
  destruct ok2; simpl in E.
  2:{ apply bind_returned in E as (? & ? & _ & [[= ->] _]%ret_inv).
      discriminate. }
  apply bind_returned in E as (ok3 & s3 & E3 & E).
  destruct ok3; simpl in E.
  2:{ apply bind_returned in E as (? & ? & _ & [[= ->] _]%ret_inv).
      discriminate. }
  apply bind_returned in E as (ok4 & s4 & E4 & E).
  destruct ok4; simpl in E.
  2:{ apply bind_returned in E as (? & ? & _ & [[= ->] _]%ret_inv).
      discriminate. }
  apply bind_returned in E as (g & s5 & [[= ->] ->]%gets_inv & E).
  apply ret_inv in E as [[= ->] ->].
  by exists s1, s2, s3.
Qed.

End GeneratorFacts.




(** ** The generated configuration text *)

Section ConfigContent.
Import Generator.

(** The text begins with the sixteen lines of the first [fmt::format],
    whatever optional blocks follow. *)
Ltac through_optional_blocks :=
  unfold generate_yaml_config_content;
  match goal with
  | |- context [Str.lines ?l +:+ _] =>
      let head := fresh "head" in
      let Hh := fresh "Hh" in
      set (head := Str.lines l);
      match goal with
      | |- Str.contains ?pat _ = true =>
          assert (Hh : Str.contains pat head = true);
          [ subst head; cbn [Str.lines fold_right Str.is_empty]
          | clearbody head;
            repeat match goal with
                   | |- context [match ?x with _ => _ end] => destruct x
                   end;
            repeat apply contains_app_l; exact Hh ]
      end
  end.

Lemma yaml_content_has_system g device_config :
  Str.contains "system:" (generate_yaml_config_content g device_config)
  = true.
Proof.
  through_optional_blocks.
  do 2 apply contains_app_r. apply contains_here.
Qed.

Lemma yaml_content_has_services g device_config :
  Str.contains "services:" (generate_yaml_config_content g device_config)
  = true.
Proof.
  through_optional_blocks.
  do 16 apply contains_app_r. apply contains_here.
Qed.

Lemma yaml_content_has_default_version g device_config :
  Database.nucleus_version device_config = EmptyString →
  Str.contains ("version: " +:+ Str.quoted "2.9.0")
    (generate_yaml_config_content g device_config) = true.
Proof.
  intros V. through_optional_blocks.
  rewrite V. cbn [Str.is_empty].
  do 20 apply contains_app_r. apply contains_app_l. reflexivity.
Qed.

Lemma contains_not_empty pat s :
  pat ≠ EmptyString → Str.contains pat s = true → Str.is_empty s = false.
Proof. destruct s; [|done]. destruct pat; [done | discriminate]. Qed.

End ConfigContent.

(** ** A first installation *)

Section FreshDirectories.
Import Fs Props.

Lemma owner_write_of_all m :
  N.land m owner_all = owner_all → has_bit m owner_write = true.
Proof.
  intros E. unfold has_bit.
  assert (N.land m owner_write = owner_write) as ->; [|done].
  change owner_write with (N.land owner_all owner_write).
  by rewrite N.land_assoc, E.
Qed.

Lemma new_directory_writable u :
  N.land u owner_all = 0%N →
  has_bit (N.ldiff 511 u) owner_write = true.
Proof.
  intros E. unfold has_bit.
  assert (N.land (N.ldiff 511 u) owner_write = owner_write) as ->; [|done].
  apply N.bits_inj. intros n.
  rewrite N.land_spec, N.ldiff_spec.
  apply (f_equal (λ x, N.testbit x n)) in E.
  rewrite N.land_spec, N.bits_0 in E.
  change owner_write with (2 ^ 7)%N. rewrite N.pow2_bits_eqb.
  destruct (N.eqb_spec 7 n) as [<-|ne]; [|apply andb_false_r].
  change (N.testbit owner_all 7) with true in E.
  rewrite andb_true_r in E. by rewrite E.
Qed.

Lemma mkdirs_forward todo : ∀ done fs,
  own_writable fs done →
  (∀ k, (0 < k ≤ length todo)%nat →
        nodes fs !! (done ++ take k todo) = None
        ∨ own_writable fs (done ++ take k todo)) →
  has_bit (N.ldiff 511 (umask fs)) owner_write = true →
  ∃ fs',
    mkdirs done todo fs = (Returned (), fs')
    ∧ umask fs' = umask fs
    ∧ (∀ q n, nodes fs !! q = Some n → nodes fs' !! q = Some n)
    ∧ (∀ q n, nodes fs' !! q = Some n →
              nodes fs !! q = Some n
              ∨ (n = Dir (N.ldiff 511 (umask fs)) true
                 ∧ ∃ k, (0 < k ≤ length todo)%nat
                        ∧ q = done ++ take k todo)).
Proof.
  induction todo as [|c rest IH]; intros done fs Hd Hp Hu.
  { exists fs. simpl. repeat split; auto. }
  assert (Next : ∀ k, (done ++ [c]) ++ take k rest
                      = done ++ take (S k) (c :: rest)).
  { intros k. by rewrite <- app_assoc. }
  cbn [mkdirs]. assert (H1 : (0 < 1 ≤ length (c :: rest))%nat) by (simpl; lia).
  destruct (Hp 1%nat H1) as [Hq|(m & Hq & Wq)];
    change (take 1 (c :: rest)) with [c] in Hq; rewrite Hq.
  - destruct Hd as (md & Hd & Wd). rewrite Hd.
    unfold can_write. simpl. rewrite Wd.
    set (q := done ++ [c]) in *.
    set (fs1 := with_nodes fs _).
    assert (Far : ∀ k, (0 < k ≤ length rest)%nat → q ++ take k rest ≠ q).
    { intros k Hk E. apply (f_equal length) in E.
      rewrite length_app, length_take in E. lia. }
    destruct (IH q fs1) as (fs' & E & U & Ext & Add).
    + exists (N.ldiff 511 (umask fs)). split; [|done].
      simpl. apply lookup_insert_eq.
    + intros k Hk.
      assert (Hk' : (0 < S k ≤ length (c :: rest))%nat) by (simpl; lia).
      destruct (Hp (S k) Hk') as [Hn|(m & Hn & Wn)];
        rewrite <- Next in Hn.
      * left. simpl. rewrite lookup_insert_ne; [done|].
        intros E'. by apply (Far k).
      * right. exists m. split; [|done]. simpl.
        rewrite lookup_insert_ne; [done|].
        intros E'. by apply (Far k).
    + done.
    + exists fs'. split; [exact E|]. split; [by rewrite U|]. split.
      * intros x n Hx. apply Ext. simpl.
        rewrite lookup_insert_ne; [done|]. intros <-. congruence.
      * intros x n Hx. apply Add in Hx as [Hx|(-> & k & Hk & ->)].
        -- simpl in Hx. destruct (decide (x = q)) as [->|ne].
           ++ rewrite lookup_insert_eq in Hx. injection Hx as <-.
              right. split; [done|]. exists 1%nat. split; [simpl; lia|done].
           ++ rewrite lookup_insert_ne in Hx by done. by left.
        -- right. split; [done|]. exists (S k). split; [simpl; lia|].
           apply Next.
  - set (q := done ++ [c]) in *.
    destruct (IH q fs) as (fs' & E & U & Ext & Add).
    + by exists m.
    + intros k Hk. rewrite Next. apply Hp. simpl. lia.
    + done.
    + exists fs'. split; [exact E|]. split; [done|]. split; [done|].
      intros x n Hx. apply Add in Hx as [Hx|(-> & k & Hk & ->)]; [by left|].
      right. split; [done|]. exists (S k). split; [simpl; lia|]. apply Next.
Qed.

Lemma create_directories_forward p fs :
  own_writable fs [] →
  (∀ k, (0 < k ≤ length p)%nat →
        nodes fs !! take k p = None ∨ own_writable fs (take k p)) →
  has_bit (N.ldiff 511 (umask fs)) owner_write = true →
  ∃ fs',
    create_directories p fs = (Returned (), fs')
    ∧ umask fs' = umask fs
    ∧ (∀ q n, nodes fs !! q = Some n → nodes fs' !! q = Some n)
    ∧ (∀ q n, nodes fs' !! q = Some n →
              nodes fs !! q = Some n
              ∨ (n = Dir (N.ldiff 511 (umask fs)) true
                 ∧ ∃ k, (0 < k ≤ length p)%nat ∧ q = take k p)).
Proof.
  intros Ht Hp Hu. unfold create_directories.
  destruct Ht as (m & Ht & Wt). rewrite Ht.
  apply (mkdirs_forward p [] fs); [by exists m | done | done].
Qed.

Lemma installing_start fs0 c below :
  own_writable fs0 [] → Props.unused_name fs0 c →
  installing fs0 (c :: below) fs0.
Proof.
  intros Ht Hc. split; [done|]. split; [done|]. split; [|done].
  intros q n Hq Hh. destruct q as [|x q]; [done|].
  injection Hh as ->. by rewrite Hc in Hq.
Qed.

Lemma take_snoc_prefix (root : path) sub k :
  take k (root ++ [sub]) `prefix_of` root
  ∨ take k (root ++ [sub]) = root ++ [sub].
Proof.
  destruct (decide (k ≤ length root)%nat) as [Hk|Hk].
  - left. rewrite take_app_le by done. apply prefix_take.
  - right. apply take_ge. rewrite length_app. simpl. lia.
Qed.

Lemma installing_create fs0 c below p fs :
  let root := c :: below in
  installing fs0 root fs →
  N.land (umask fs0) owner_all = 0%N →
  p = root ∨ (∃ sub, p = root ++ [sub]) →
  ∃ fs', create_directories p fs = (Returned (), fs')
         ∧ installing fs0 root fs'
         ∧ is_directory fs' p = true.
Proof.
  intros root (U & Ht & Hin & Hout) Hu Hp.
  assert (Hc : ∀ k, (0 < k ≤ length p)%nat → head (take k p) = head root).
  { intros k Hk. destruct Hp as [->|[sub ->]];
      destruct k as [|k]; simpl in *; try lia; done. }
  assert (Pre : ∀ k, take k p `prefix_of` root
                     ∨ ∃ sub, take k p = root ++ [sub]).
  { intros k. destruct Hp as [->|[sub ->]].
    - left. apply prefix_take.
    - destruct (take_snoc_prefix root sub k); eauto. }
  destruct (create_directories_forward p fs) as (fs' & E & U' & Ext & Add).
  - done.
  - intros k Hk. destruct (nodes fs !! take k p) as [n|] eqn:Hq; [|by left].
    right. by apply (Hin _ n), Hc.
  - rewrite U. by apply new_directory_writable.
  - exists fs'. split; [exact E|]. split.
    + split; [congruence|]. split.
      { destruct Ht as (m & Ht & Wt). exists m. split; [by apply Ext|done]. }
      assert (Keep : ∀ q, own_writable fs q → own_writable fs' q).
      { intros q (m & Hq & Wq). exists m. split; [by apply Ext|done]. }
      split.
      * intros q n Hq Hh. pose proof Hq as Hq'.
        apply Add in Hq as [Hq|(-> & k & Hk & ->)].
        -- destruct (Hin q n Hq Hh) as [W P]. split; [by apply Keep|done].
        -- split; [|apply Pre]. eexists. split; [exact Hq'|].
           rewrite U. by apply new_directory_writable.
      * intros q Hh. rewrite <- Hout by done.
        destruct (nodes fs' !! q) as [n|] eqn:Hq.
        -- apply Add in Hq as [Hq|(-> & k & Hk & ->)]; [done|].
           by apply Hc in Hk.
        -- destruct (nodes fs !! q) as [n|] eqn:Hq0; [|done].
           apply Ext in Hq0. congruence.
    + by eapply create_directories_directory.
Qed.

Lemma installing_permissions fs0 root p fs :
  installing fs0 root fs →
  is_directory fs p = true → head p = head root →
  ∃ fs', permissions p Generator.dir_perms fs = (Returned (), fs')
         ∧ installing fs0 root fs'
         ∧ nodes fs' !! p = Some (Dir Generator.dir_perms true)
         ∧ ∀ q, is_directory fs q = true → is_directory fs' q = true.
Proof.
  intros (U & Ht & Hin & Hout) D Hh.
  apply is_directory_lookup in D as (m & o & Hp).
  destruct (Hin p _ Hp Hh) as [(m' & Hp' & W) Pre].
  rewrite Hp in Hp'. injection Hp' as <- ->.
  eexists. split; [by eapply permissions_forward|]. simpl.
  assert (Keep : ∀ q, own_writable fs q →
                      own_writable
                        (with_nodes fs
                           (<[p := Dir Generator.dir_perms true]> (nodes fs)))
                        q).
  { intros q (mq & Hq & Wq). destruct (decide (q = p)) as [->|ne].
    - eexists. split; [apply lookup_insert_eq | done].
    - exists mq. split; [|done]. simpl. by rewrite lookup_insert_ne. }
  split; [|split; [apply lookup_insert_eq|]].
  - split; [done|]. split; [by apply Keep|]. split.
    + intros q n Hq Hh'. simpl in Hq. destruct (decide (q = p)) as [->|ne].
      * split; [|done]. apply Keep. by exists m.
      * rewrite lookup_insert_ne in Hq by done.
        destruct (Hin q n Hq Hh') as [Wq Pq]. split; [by apply Keep|done].
    + intros q Hh'. simpl. rewrite lookup_insert_ne; [by apply Hout|].
      intros <-. congruence.
  - intros q Dq. apply is_directory_lookup in Dq as (mq & oq & Hq).
    apply is_directory_lookup. destruct (decide (q = p)) as [->|ne].
    + eexists _, _. apply lookup_insert_eq.
    + exists mq, oq. simpl. by rewrite lookup_insert_ne.
Qed.

End FreshDirectories.

(** After three successful steps the validation passes, and
    [generate_config] returns its successful result. *)
Lemma generate_config_after_steps :
  ∀ (greengrass_path : string) (device_config : Database.DeviceConfig)
    (fs0 : Fs.filesystem) (s1 s2 s3 : Generator.state),
    let s := {| Generator.self := Generator.make greengrass_path;
                Generator.fs := fs0 |} in
    Generator.create_directory_structure s = (Returned true, s1) →
    Generator.write_certificates device_config s1 = (Returned true, s2) →
    Generator.generate_greengrass_v2_config device_config s2
    = (Returned true, s3) →
    ∃ gc m o,
      Generator.generate_config device_config s = (Returned gc, s3)
      ∧ Generator.success gc = true
      ∧ Fs.nodes (Generator.fs s3) !! Generator.config_file_path gc
        = Some (Fs.File
                  (Generator.generate_yaml_config_content
                     (Generator.make greengrass_path) device_config) m o)
      ∧ (Database.nucleus_version device_config = EmptyString →
         Str.contains ("version: " +:+ Str.quoted "2.9.0")
           (Generator.generate_yaml_config_content
              (Generator.make greengrass_path) device_config) = true).
Proof.
  intros greengrass_path device_config fs0 s1 s2 s3 s E1 E2 E3.
  destruct (generation_steps_facts _ _ _ _ _ E1 E2 E3)
    as (S & _ & Dcerts & _ & _ & _ & FR & m & o & HC & _).
  change (Generator.self s) with (Generator.make greengrass_path) in *.
  assert (V : Generator.validate_configuration s3 = (Returned true, s3)).
  { apply validate_configuration_true; rewrite S.
    - unfold Fs.exists_. by rewrite HC.
    - exists Generator.dir_perms. split; [exact Dcerts | done].
    - destruct FR as (c & mr & or & Hq & _).
      exists "root.ca.pem", (Fs.File c mr or). split; [exact Hq | done]. }
  eexists _, m, o. split.
  - unfold Generator.generate_config, bind.
    rewrite E1; simpl. rewrite E2; simpl. rewrite E3; simpl.
    rewrite V; simpl. unfold gets, ret. rewrite S. reflexivity.
  - simpl. split; [done|]. split; [exact HC|].
    apply yaml_content_has_default_version.
Qed.

Section FreshGeneration.
Import Generator Props.

Lemma create_directory_structure_fresh greengrass_path fs0 c below :
  Fs.path_of_string greengrass_path = c :: below →
  installing fs0 (c :: below) fs0 →
  N.land (Fs.umask fs0) Fs.owner_all = 0%N →
  ∃ s1,
    create_directory_structure
      {| self := make greengrass_path; fs := fs0 |} = (Returned true, s1)
    ∧ self s1 = make greengrass_path
    ∧ installing fs0 (c :: below) (fs s1)
    ∧ Fs.nodes (fs s1) !! ((c :: below) ++ ["certs"])
      = Some (Fs.Dir dir_perms true)
    ∧ Fs.is_directory (fs s1) ((c :: below) ++ ["config"]) = true.
Proof.
  intros Hr I0 Hu.
  unfold create_directory_structure, try_catch, bind, gets, in_fs, ret, make.
  cbn [self fs greengrass_path_ config_path_ certs_path_ logs_path_
       work_path_].
  autorewrite with paths. rewrite Hr.
  set (root := c :: below) in *.
  destruct (installing_create fs0 c below root fs0 I0 Hu)
    as (f1 & E1 & I1 & D1); [by left|]. rewrite E1. cbn [fs].
  destruct (installing_create fs0 c below (root ++ ["config"]) f1 I1 Hu)
    as (f2 & E2 & I2 & D2); [right; eauto|]. rewrite E2. cbn [fs].
  destruct (installing_create fs0 c below (root ++ ["certs"]) f2 I2 Hu)
    as (f3 & E3 & I3 & D3); [right; eauto|]. rewrite E3. cbn [fs].
  destruct (installing_create fs0 c below (root ++ ["logs"]) f3 I3 Hu)
    as (f4 & E4 & I4 & D4); [right; eauto|]. rewrite E4. cbn [fs].
  destruct (installing_create fs0 c below (root ++ ["work"]) f4 I4 Hu)
    as (f5 & E5 & I5 & D5); [right; eauto|]. rewrite E5. cbn [fs].
  destruct (installing_create fs0 c below (root ++ ["packages"]) f5 I5 Hu)
    as (f6 & E6 & I6 & D6); [right; eauto|]. rewrite E6. cbn [fs].
  destruct (installing_create fs0 c below (root ++ ["deployments"]) f6 I6 Hu)
    as (f7 & E7 & I7 & D7); [right; eauto|]. rewrite E7. cbn [fs].
  destruct (installing_create fs0 c below (root ++ ["ggc-root"]) f7 I7 Hu)
    as (f8 & E8 & I8 & D8); [right; eauto|]. rewrite E8. cbn [fs].
  assert (Droot : Fs.is_directory f8 root = true).
  { do 7 (eapply create_directories_keeps_directory; [eassumption|]).
    exact D1. }
  destruct (installing_permissions fs0 root root f8 I8 Droot eq_refl)
    as (f9 & E9 & I9 & _ & K9). rewrite E9. cbn [fs].
  assert (Dcerts : Fs.is_directory f9 (root ++ ["certs"]) = true).
  { apply K9.
    do 5 (eapply create_directories_keeps_directory; [eassumption|]).
    exact D3. }
  destruct (installing_permissions fs0 root (root ++ ["certs"]) f9 I9 Dcerts
              eq_refl) as (f10 & E10 & I10 & C10 & K10).
  rewrite E10. cbn [fs].
  eexists. split; [reflexivity|]. cbn [self fs].
  split; [reflexivity|].
  split; [done|]. split; [done|].
  apply K10, K9.
  do 6 (eapply create_directories_keeps_directory; [eassumption|]).
  exact D2.
Qed.

Lemma join_file_name p x t :
  Str.contains "/" x = false → Str.contains "/" t = false →
  String.length t ≥ 2 →
  Fs.join p (x +:+ t) = p ++ [x +:+ t].
Proof.
  intros Hx Ht L.
  assert (Hs : Str.contains "/" (x +:+ t) = false)
    by by apply contains_slash_app.
  unfold Fs.join, Fs.is_absolute.
  assert (Str.starts_with "/" (x +:+ t) = false) as ->.
  { rewrite contains_unfold in Hs. by apply orb_false_iff in Hs as [? _]. }
  unfold Fs.path_of_string. rewrite split_on_no_slash by done. simpl.
  by rewrite keep_component_app.
Qed.

Lemma write_file_forward d y c k s :
  own_writable (fs s) d →
  writable_or_new (fs s) (d ++ [y]) →
  ∃ s1 s',
    write_file (d ++ [y]) c s = (Returned true, s1)
    ∧ set_file_permissions (d ++ [y]) k s1 = (Returned true, s')
    ∧ self s' = self s
    ∧ Fs.nodes (fs s') !! (d ++ [y])
      = Some (Fs.File c (if k then private_key_perms else other_file_perms)
                true)
    ∧ ∀ q, q ≠ d ++ [y] → Fs.nodes (fs s') !! q = Fs.nodes (fs s) !! q.
Proof.
  intros (md & Hd & Wd) Hp.
  assert (∃ m,
            Fs.ofstream (d ++ [y]) c (fs s)
            = (Returned true,
               Fs.with_nodes (fs s)
                 (<[d ++ [y] := Fs.File c m true]> (Fs.nodes (fs s)))))
    as (m & O).
  { destruct Hp as [Hp|(c0 & m & Hp & Wp)].
    - eexists. by eapply ofstream_new.
    - exists m. unfold Fs.ofstream. rewrite Hp.
      unfold Fs.can_write. simpl. by rewrite Wp. }
  set (f1 := Fs.with_nodes (fs s) _) in O.
  set (X := if k then private_key_perms else other_file_perms).
  assert (P : Fs.permissions (d ++ [y]) X f1
              = (Returned (),
                 Fs.with_nodes f1
                   (<[d ++ [y] := Fs.File c X true]> (Fs.nodes f1)))).
  { rewrite (permissions_forward _ X f1 (Fs.File c m true)); try done.
    simpl. apply lookup_insert_eq. }
  eexists _, _. split.
  { unfold write_file, try_catch, bind, in_fs. rewrite O. reflexivity. }
  split.
  { unfold set_file_permissions, try_catch, bind, in_fs. cbn [fs self].
    fold X. rewrite P. reflexivity. }
  cbn [self fs]. split; [done|]. split; [apply lookup_insert_eq|].
  intros q ne. simpl. by rewrite !lookup_insert_ne.
Qed.

Lemma perms_owner_write (k : bool) :
  Fs.has_bit (if k then private_key_perms else other_file_perms)
    Fs.owner_write = true.
Proof. by destruct k. Qed.

Section Steps.
Variable greengrass_path : string.
Variable device_config : Database.DeviceConfig.
Variables (root source : Fs.path).
Hypothesis Hroot : Fs.path_of_string greengrass_path = root.
Hypothesis Hthing :
  Str.contains "/" (Database.thing_name device_config) = false.
Hypothesis Hsource :
  Fs.path_of_string (Database.root_ca_path device_config) = source.
Hypothesis Hhead : ∀ q, source ≠ root ++ q.

#[local] Abbreviation ready := (Props.ready greengrass_path root source).

Lemma ready_written d y c (k : bool) s s' :
  ready s →
  d = "certs" ∨ d = "config" →
  self s' = self s →
  Fs.nodes (fs s') !! (root ++ [d; y])
  = Some (Fs.File c (if k then private_key_perms else other_file_perms)
            true) →
  (∀ q, q ≠ root ++ [d; y] →
        Fs.nodes (fs s') !! q = Fs.nodes (fs s) !! q) →
  ready s'.
Proof.
  intros (S & Wc & Wg & Wf & Hs) Hd S' Hp Ho.
  assert (ne : ∀ x, root ++ [x] ≠ root ++ [d; y]).
  { intros x E. by apply app_inv_head in E. }
  split; [congruence|]. split.
  { destruct Wc as (m & ? & ?). exists m. by rewrite Ho. }
  split.
  { destruct Wg as (m & ? & ?). exists m. by rewrite Ho. }
  split.
  - intros d' y'. destruct (decide (root ++ [d'; y'] = root ++ [d; y]))
      as [->|ne'].
    + right. eexists _, _. split; [exact Hp | apply perms_owner_write].
    + unfold writable_or_new. rewrite Ho by done. apply Wf.
  - rewrite Ho; [done|]. apply Hhead.
Qed.

Lemma write_certificates_forward s :
  ready s →
  ∃ s', write_certificates device_config s = (Returned true, s')
        ∧ ready s'.
Proof.
  intros R. pose proof R as (S & Wc & Wg & Wf & Hs).
  unfold write_certificates, try_catch, bind, gets. rewrite S.
  unfold make. cbn [certs_path_]. autorewrite with paths. rewrite Hroot.
  unfold cert_file_name, key_file_name.
  rewrite !join_file_name by (done || (simpl; lia)).
  rewrite <- !app_assoc. cbn [app].
  destruct (write_file_forward (root ++ ["certs"])
              (Database.thing_name device_config +:+ ".cert.pem")
              (Database.certificate_pem device_config) false s)
    as (s1 & s2 & E1 & E2 & S2 & P2 & O2);
    [done | rewrite <- app_assoc; apply Wf |].
  rewrite <- app_assoc in E1, E2, P2, O2. cbn [app] in E1, E2, P2, O2.
  rewrite E1. cbn [negb]. rewrite E2.
  assert (R2 : ready s2)
    by exact (ready_written "certs" _ _ false s s2 R (or_introl eq_refl)
                S2 P2 O2).
  pose proof R2 as (_ & Wc2 & _ & Wf2 & _).
  destruct (write_file_forward (root ++ ["certs"])
              (Database.thing_name device_config +:+ ".private.key")
              (Database.private_key_pem device_config) true s2)
    as (s3 & s4 & E3 & E4 & S4 & P4 & O4);
    [done | rewrite <- app_assoc; apply Wf2 |].
  rewrite <- app_assoc in E3, E4, P4, O4. cbn [app] in E3, E4, P4, O4.
  rewrite E3. cbn [negb]. rewrite E4.
  assert (R4 : ready s4)
    by exact (ready_written "certs" _ _ true s2 s4 R2 (or_introl eq_refl)
                S4 P4 O4).
  pose proof R4 as (_ & Wc4 & _ & Wf4 & Hs4).
  unfold reads. rewrite Hsource. unfold Fs.exists_. rewrite Hs4.
  destruct (write_file_forward (root ++ ["certs"]) "root.ca.pem"
              (Database.root_ca_path device_config) false s4)
    as (s5 & s6 & E5 & E6 & S6 & P6 & O6);
    [done | rewrite <- app_assoc; apply Wf4 |].
  rewrite <- app_assoc in E5, E6, P6, O6. cbn [app] in E5, E6, P6, O6.
  rewrite E5. cbn [negb]. rewrite E6.
  eexists. split; [reflexivity|].
  exact (ready_written "certs" _ _ false s4 s6 R4 (or_introl eq_refl)
           S6 P6 O6).
Qed.

Lemma generate_greengrass_v2_config_forward s :
  ready s →
  ∃ s', generate_greengrass_v2_config device_config s = (Returned true, s')
        ∧ ready s'.
Proof.
  intros R. pose proof R as (S & Wc & Wg & Wf & Hs).
  unfold generate_greengrass_v2_config, try_catch, bind, gets. rewrite S.
  change (config_path_ (make greengrass_path))
    with (Fs.path_of_string greengrass_path ++ ["config"]).
  autorewrite with paths. rewrite Hroot. rewrite <- !app_assoc. cbn [app].
  destruct (write_file_forward (root ++ ["config"]) "config.yaml"
              (generate_yaml_config_content (make greengrass_path)
                 device_config) false s)
    as (s1 & s2 & E1 & E2 & S2 & P2 & O2);
    [done | rewrite <- app_assoc; apply Wf |].
  rewrite <- app_assoc in E1, E2, P2, O2. cbn [app] in E1, E2, P2, O2.
  rewrite E1. cbn [negb]. rewrite E2.
  eexists. split; [reflexivity|].
  exact (ready_written "config" _ _ false s s2 R (or_intror eq_refl)
           S2 P2 O2).
Qed.

End Steps.

Lemma ready_after_directories greengrass_path device_config fs0 c below
    c_ca below_ca s1 :
  Fs.path_of_string greengrass_path = c :: below →
  Fs.path_of_string (Database.root_ca_path device_config)
  = c_ca :: below_ca →
  c_ca ≠ c → Props.unused_name fs0 c_ca →
  self s1 = make greengrass_path →
  installing fs0 (c :: below) (fs s1) →
  Fs.nodes (fs s1) !! ((c :: below) ++ ["certs"])
  = Some (Fs.Dir dir_perms true) →
  Fs.is_directory (fs s1) ((c :: below) ++ ["config"]) = true →
  ready greengrass_path (c :: below) (c_ca :: below_ca) s1.
Proof.
  intros Hr Hs ne Hca S (U & Ht & Hin & Hout) Hc Dg.
  split; [done|]. split; [by exists dir_perms|]. split.
  { apply is_directory_lookup in Dg as (m & o & Hg).
    by apply (Hin _ _ Hg). }
  split.
  - intros d y.
    destruct (Fs.nodes (fs s1) !! ((c :: below) ++ [d; y])) as [n|] eqn:Hq;
      [|by left].
    destruct (Hin _ _ Hq eq_refl) as [_ [Pre|[sub E]]].
    + apply prefix_length in Pre. rewrite length_app in Pre.
      simpl in Pre. lia.
    + apply (f_equal length) in E. rewrite !length_app in E.
      simpl in E. lia.
  - rewrite Hout; [apply Hca|]. simpl. congruence.
Qed.

End FreshGeneration.




(** ** Detection after generation *)

Section DetectAfterGenerate.
Context `{Externals}.
Import Props.

Lemma exists_of_lookup fs q n :
  Fs.nodes fs !! q = Some n → Fs.exists_ fs q = true.
Proof. unfold Fs.exists_. by intros ->. Qed.

Lemma exists_of_is_directory fs q :
  Fs.is_directory fs q = true → Fs.exists_ fs q = true.
Proof.
  intros (m & o & Hq)%is_directory_lookup. by eapply exists_of_lookup.
Qed.

Lemma check_certificates_exist_found self fs cert key c1 m1 o1 c2 m2 o2 m :
  Fs.nodes fs !! Checker.certs_path_ self = Some (Fs.Dir m true) →
  Fs.has_bit m Fs.owner_read = true →
  Fs.nodes fs !! (Checker.certs_path_ self ++ [cert])
  = Some (Fs.File c1 m1 o1) →
  Fs.nodes fs !! (Checker.certs_path_ self ++ [key])
  = Some (Fs.File c2 m2 o2) →
  cert_name cert = true → key_name key = true →
  Checker.check_certificates_exist self fs = Returned true.
Proof.
  intros D Rd Hc Hk Nc Nk.
  assert (I : Fs.directory_iterator fs (Checker.certs_path_ self)
              = Returned (Fs.children fs (Checker.certs_path_ self))).
  { unfold Fs.directory_iterator. rewrite D. unfold Fs.can_read; simpl.
    by rewrite Rd. }
  assert (Ic : (cert, Fs.File c1 m1 o1)
               ∈ Fs.children fs (Checker.certs_path_ self))
    by by apply elem_of_children.
  assert (Ik : (key, Fs.File c2 m2 o2)
               ∈ Fs.children fs (Checker.certs_path_ self))
    by by apply elem_of_children.
  unfold Checker.check_certificates_exist.
  rewrite (exists_of_lookup _ _ _ D). simpl.
  unfold Checker.check_directory_not_empty.
  rewrite (exists_of_lookup _ _ _ D).
  unfold Fs.is_empty. rewrite D, I.
  destruct (Fs.children fs (Checker.certs_path_ self)) as [|e l] eqn:Ch.
  { by apply not_elem_of_nil in Ic. }
  simpl negb. cbv iota. rewrite <- Ch. rewrite scan_entries. simpl.
  assert (existsb is_cert_file (Fs.children fs (Checker.certs_path_ self))
          = true) as ->.
  { apply existsb_exists. exists (cert, Fs.File c1 m1 o1).
    split; [rewrite Ch; by apply list_elem_of_In | done]. }
  assert (existsb is_key_file (Fs.children fs (Checker.certs_path_ self))
          = true) as ->.
  { apply existsb_exists. exists (key, Fs.File c2 m2 o2).
    split; [rewrite Ch; by apply list_elem_of_In | done]. }
  done.
Qed.

Lemma validate_yaml_config self fs content :
  Fs.ifstream fs (Checker.config_path_ self ++ ["config.yaml"])
  = Some (Fs.Chars content) →
  Str.contains "system:" content = true →
  Str.contains "services:" content = true →
  Checker.validate_config_file self fs = true.
Proof.
  intros I Hs Hv.
  unfold Checker.validate_config_file, Checker.possible_configs.
  autorewrite with paths. simpl.
  assert (Fs.exists_ fs (Checker.config_path_ self ++ ["config.yaml"])
          = true) as ->.
  { unfold Fs.ifstream in I. unfold Fs.exists_.
    by destruct (Fs.nodes fs !! _). }
  rewrite I. simpl.
  rewrite (contains_not_empty "system:" content) by done.
  unfold Checker.is_yaml, Fs.extension. rewrite filename_snoc. simpl.
  by rewrite Hs, Hv.
Qed.

Lemma detect_greengrass_version_spec self fs :
  Checker.detect_greengrass_version self fs =
  if Fs.exists_ fs (Checker.greengrass_path_ self ++ ["recipes"])
     || Fs.exists_ fs (Checker.config_path_ self ++ ["config.yaml"])
     || Fs.exists_ fs (Checker.config_path_ self ++ ["config.yml"])
  then "v2.x"
  else if Fs.exists_ fs (Checker.config_path_ self ++ ["config.json"])
       then "v1.x"
       else "unknown".
Proof.
  unfold Checker.detect_greengrass_version. autorewrite with paths.
  destruct (Fs.exists_ fs (Checker.greengrass_path_ self ++ ["recipes"]));
    [done|].
  destruct (Fs.exists_ fs (Checker.config_path_ self ++ ["config.yaml"]));
    [done|].
  by destruct (Fs.exists_ fs (Checker.config_path_ self ++ ["config.yml"])).
Qed.

Lemma detect_after_generate greengrass_path device_config fs0 gc s' :
  Generator.generate_config device_config
    {| Generator.self := Generator.make greengrass_path;
       Generator.fs := fs0 |} = (Returned gc, s') →
  Generator.success gc = true →
  Str.contains "/" (Database.thing_name device_config) = false →
  Fs.ifstream (Generator.fs s') (Generator.config_file_path gc) ≠ None →
  ∃ status,
    Checker.check_provisioning_status (Checker.make greengrass_path)
      (Generator.fs s') = Returned status
    ∧ Checker.is_provisioned status = true
    ∧ Checker.greengrass_version status = "v2.x".
Proof.
  intros E Hs Hn Hr.
  apply generate_config_success_inv in E
    as (s1 & s2 & s3 & E1 & E2 & E3 & E4 & ->); [|done].
  apply validate_configuration_state in E4 as ->.
  destruct (generation_steps_facts _ _ _ _ _ E1 E2 E3)
    as (S & Droot & Dcerts & Dggc & FT & FK & _ & m & o & HC & _).
  simpl in S. rewrite S in Hr. simpl in *.
  set (root := Fs.path_of_string greengrass_path) in *.
  autorewrite with paths in *.
  unfold Generator.cert_file_name, Generator.key_file_name in *.
  rewrite join_no_slash in FT, FK by (done || (simpl; lia)).
  destruct FT as (c1 & m1 & o1 & HT & _).
  destruct FK as (c2 & m2 & o2 & HK & _).
  set (self := Checker.make greengrass_path).
  assert (Pc : Checker.config_path_ self = root ++ ["config"]) by done.
  assert (Pt : Checker.certs_path_ self = root ++ ["certs"]) by done.
  assert (Pg : Checker.ggc_root_path_ self = root ++ ["ggc-root"]) by done.
  assert (Pr : Checker.greengrass_path_ self = root) by done.
  assert (C : Checker.check_certificates_exist self (Generator.fs s3)
              = Returned true).
  { eapply (check_certificates_exist_found self _
              (Database.thing_name device_config +:+ ".cert.pem")
              (Database.thing_name device_config +:+ ".private.key"));
      rewrite ?Pt; try eassumption; try done.
    - unfold cert_name. rewrite contains_app_r; done.
    - unfold key_name. rewrite contains_app_r; done. }
  assert (X : Fs.exists_ (Generator.fs s3)
                (root ++ ["config"] ++ ["config.yaml"]) = true).
  { rewrite app_assoc. by eapply exists_of_lookup. }
  assert (V : Checker.validate_config_file self (Generator.fs s3) = true).
  { destruct (Fs.ifstream (Generator.fs s3)
                ((root ++ ["config"]) ++ ["config.yaml"])) as [file|] eqn:I;
      [|done].
    assert (file = Fs.Chars (Generator.generate_yaml_config_content
                               (Generator.make greengrass_path) device_config))
      as ->.
    { unfold Fs.ifstream in I. rewrite HC in I.
      destruct (Fs.can_read _); by inversion I. }
    eapply validate_yaml_config; rewrite ?Pc; [exact I | |].
    - apply yaml_content_has_system.
    - apply yaml_content_has_services. }
  unfold Checker.check_provisioning_status.
  rewrite Pr, (exists_of_is_directory _ _ Droot). simpl.
  rewrite C.
  assert (Checker.check_config_exists self (Generator.fs s3) = true) as ->.
  { unfold Checker.check_config_exists. rewrite Pc.
    autorewrite with paths. rewrite <- app_assoc. by rewrite X. }
  assert (Checker.check_greengrass_root_exists self (Generator.fs s3) = true)
    as ->.
  { unfold Checker.check_greengrass_root_exists. rewrite Pg.
    by rewrite (exists_of_is_directory _ _ Dggc), Dggc. }
  simpl. rewrite V. eexists. split; [reflexivity|]. split; [done|].
  simpl. rewrite detect_greengrass_version_spec, Pc, Pr.
  rewrite <- (app_assoc root ["config"] ["config.yaml"]), X.
  by rewrite orb_true_r.
Qed.

End DetectAfterGenerate.




(** * Further properties of the code *)

(** ** Status calls *)

Section StatusCalls.
Context `{Externals}.
Import Status Props.

Lemma report_error_returns now msg details s :
  (report_error now msg details s).1 = Returned ().
Proof.
  unfold report_error, bind, modify; simpl.
  match goal with |- context [write_status_file ?x] =>
    pose proof (write_status_file_returns x) as R;
    destruct (write_status_file x) as [[[]|e] s1]
  end; simpl in *; done.
Qed.

Lemma update_status_reporter_path now st msg progress s :
  status_file_path_ (reporter (update_status now st msg progress s).2)
  = status_file_path_ (reporter s).
Proof.
  unfold update_status, bind, modify; simpl.
  match goal with |- context [write_status_file ?x] =>
    pose proof (write_status_file_reporter x) as E;
    destruct (write_status_file x) as [[[]|e] s1]
  end; simpl in *; by rewrite E.
Qed.

Lemma report_error_reporter_path now msg details s :
  status_file_path_ (reporter (report_error now msg details s).2)
  = status_file_path_ (reporter s).
Proof.
  unfold report_error, bind, modify; simpl.
  match goal with |- context [write_status_file ?x] =>
    pose proof (write_status_file_reporter x) as E;
    destruct (write_status_file x) as [[[]|e] s1]
  end; simpl in *; by rewrite E.
Qed.

End StatusCalls.

(** X1.  [update_status] and [report_error] return normally in every
    state of the reporter and of the file system: what the file-system
    calls of [write_status_file] throw is caught there.  The status
    object is changed all the same, and it keeps its file path. *)
Theorem status_calls_never_throw :
  ∀ (ext : Externals) now st msg progress details (s : Status.state),
    let updated := Status.update_status now st msg progress s in
    let failed := Status.report_error now msg details s in
    updated.1 = Returned ()
    ∧ failed.1 = Returned ()
    ∧ Status.status (Props.current updated.2) = st
    ∧ Status.timestamp (Props.current updated.2) = now
    ∧ Status.status (Props.current failed.2) = Status.ERROR
    ∧ Status.error_details (Props.current failed.2) = details
    ∧ Status.status_file_path_ (Status.reporter updated.2)
      = Status.status_file_path_ (Status.reporter s)
    ∧ Status.status_file_path_ (Status.reporter failed.2)
      = Status.status_file_path_ (Status.reporter s).
Proof.
  intros ext now st msg progress details s updated failed.
  subst updated failed.
  rewrite update_status_returns, report_error_returns.
  rewrite update_status_current, report_error_current.
  rewrite update_status_reporter_path, report_error_reporter_path.
  done.
Qed.

(** ** The status file after a call *)

Section MoreStringFacts.

Lemma append_cons x (a b : string) : String x a +:+ b = String x (a +:+ b).
Proof. reflexivity. Qed.

Lemma append_assoc (a b c : string) : (a +:+ b) +:+ c = a +:+ (b +:+ c).
Proof.
  induction a as [|x a IH]; [done|]. rewrite !append_cons. by f_equal.
Qed.

Lemma length_append (a b : string) :
  String.length (a +:+ b) = String.length a + String.length b.
Proof.
  induction a as [|x a IH]; [done|]. rewrite append_cons. simpl. by f_equal.
Qed.

Lemma append_inv_l (a b c : string) : a +:+ b = a +:+ c → b = c.
Proof.
  induction a as [|x a IH]; [done|]. rewrite !append_cons.
  intros [= E]. auto.
Qed.

End MoreStringFacts.

Section MorePathFacts.
Import Fs.

(** The path of [prefix +:+ name] and of the same text followed by a
    suffix, for a [name] without ['/']: one directory, two file names. *)
Lemma path_of_string_sibling prefix name suffix :
  Str.contains "/" name = false → String.length name ≥ 2 →
  Str.contains "/" suffix = false →
  ∃ d x,
    path_of_string (prefix +:+ name) = d ++ [x +:+ name]
    ∧ path_of_string ((prefix +:+ name) +:+ suffix)
      = d ++ [(x +:+ name) +:+ suffix].
Proof.
  intros Hn L Hs.
  destruct (split_on_app_no_slash prefix name Hn) as (l & x & E1 & E2).
  assert (Hns : Str.contains "/" (name +:+ suffix) = false)
    by by apply contains_slash_app.
  destruct (split_on_app_no_slash prefix (name +:+ suffix) Hns)
    as (l' & x' & E1' & E2').
  rewrite E1 in E1'. apply app_inj_tail in E1' as [<- <-].
  exists (List.filter keep_component l), x.
  unfold path_of_string. rewrite append_assoc, E2, E2'.
  rewrite !List.filter_app. simpl.
  rewrite keep_component_app by done.
  assert (keep_component (x +:+ name +:+ suffix) = true) as ->.
  { apply keep_component_app. rewrite length_append. lia. }
  by rewrite append_assoc.
Qed.

End MorePathFacts.

Section StatusWrite.
Context `{Externals}.
Import Status Props.

Lemma write_status_file_replaces s prefix name :
  Str.contains "/" name = false → String.length name ≥ 2 →
  status_file_path_ (reporter s) = prefix +:+ name →
  let P := Fs.path_of_string (prefix +:+ name) in
  let T := Fs.path_of_string ((prefix +:+ name) +:+ ".tmp") in
  (∃ m o, Fs.nodes (fs s) !! Fs.parent_path P = Some (Fs.Dir m o)
          ∧ Fs.can_write (Fs.Dir m o) = true) →
  Fs.nodes (fs s) !! T = None →
  Fs.is_directory (fs s) P = false →
  Json.well_encoded (status_json (current s)) = true →
  let s' := (write_status_file s).2 in
  Fs.nodes (fs s') !! P
  = Some (Fs.File (json_dump 4 (status_json (current s)) +:+ Str.nl)
            status_file_perms true)
  ∧ Fs.nodes (fs s') !! T = None
  ∧ ∀ q, q ≠ P → q ≠ T → Fs.nodes (fs s') !! q = Fs.nodes (fs s) !! q.
Proof.
  intros Hn L Hp P T (m & o & Hd & W) HT HP Hw s'. subst s'.
  destruct (path_of_string_sibling prefix name ".tmp" Hn L eq_refl)
    as (d & x & EP & ET).
  assert (PT : P ≠ T).
  { subst P T. rewrite EP, ET. intros E. apply app_inj_tail in E as [_ E].
    apply (f_equal String.length) in E. rewrite !length_append in E.
    simpl in E. lia. }
  assert (Pd : Fs.parent_path P = d)
    by (subst P; rewrite EP; apply removelast_last).
  assert (Td : Fs.parent_path T = d)
    by (subst T; rewrite ET; apply removelast_last).
  rewrite Pd in Hd.
  set (c := json_dump 4 (status_json (current s)) +:+ Str.nl).
  unfold write_status_file, try_catch, bind, gets, ret, in_fs; simpl.
  unfold current in Hw. rewrite Hw.
  rewrite Hp. fold P T. unfold current in c. fold c.
  assert (O : Fs.ofstream T c (fs s)
              = (Returned true,
                 Fs.with_nodes (fs s)
                   (<[T := Fs.File c (N.ldiff 438 (Fs.umask (fs s))) true]>
                      (Fs.nodes (fs s))))).
  { subst T. rewrite ET in *. by eapply ofstream_new. }
  rewrite O. simpl.
  set (fs1 := Fs.with_nodes (fs s) _).
  assert (R : Fs.rename T P fs1
              = (Returned (),
                 Fs.with_nodes fs1
                   (<[P := Fs.File c (N.ldiff 438 (Fs.umask (fs s))) true]>
                      (delete T (Fs.nodes fs1))))).
  { eapply rename_file_forward.
    - simpl. apply lookup_insert_eq.
    - rewrite Td. simpl. rewrite lookup_insert_ne; [exact Hd|].
      subst T. rewrite ET. intros E. apply (f_equal length) in E.
      rewrite length_app in E. simpl in E. lia.
    - rewrite Pd. simpl. rewrite lookup_insert_ne; [exact Hd|].
      subst T. rewrite ET. intros E. apply (f_equal length) in E.
      rewrite length_app in E. simpl in E. lia.
    - exact W.
    - exact W.
    - unfold Fs.is_directory in *. simpl.
      by rewrite lookup_insert_ne.
    - subst P. rewrite EP. by destruct d. }
  rewrite R. simpl.
  set (fs2 := Fs.with_nodes fs1 _).
  rewrite (permissions_forward P status_file_perms fs2
             (Fs.File c (N.ldiff 438 (Fs.umask (fs s))) true));
    [|simpl; apply lookup_insert_eq | done].
  simpl. split; [apply lookup_insert_eq|]. split.
  - rewrite !lookup_insert_ne by done. apply lookup_delete_eq.
  - intros q nP nT. rewrite !lookup_insert_ne by done.
    rewrite lookup_delete_ne by done. by rewrite lookup_insert_ne.
Qed.

End StatusWrite.



(** ** The constructor of the reporter *)

Section FsForward2.
Import Fs.

Lemma rename_dir src dst fs r fs' q m o :
  rename src dst fs = (r, fs') →
  nodes fs !! q = Some (Dir m o) → nodes fs' !! q = Some (Dir m o).
Proof.
  unfold rename. intros E Hq.
  repeat case_match; simplify_eq; simpl; try done;
    rewrite lookup_insert_ne by congruence;
    by rewrite lookup_delete_ne by congruence.
Qed.

End FsForward2.

Section StatusConstructor.
Context `{Externals}.
Import Status Props.

Lemma write_status_file_keeps_directory s q m o :
  Fs.nodes (fs s) !! q = Some (Fs.Dir m o) →
  Fs.nodes (fs (write_status_file s).2) !! q = Some (Fs.Dir m o).
Proof.
  intros Hq.
  set (P := Fs.path_of_string (status_file_path_ (reporter s))).
  set (c := json_dump 4 (status_json (current_status_ (reporter s)))
            +:+ Str.nl).
  unfold write_status_file, try_catch, bind, gets, ret, throw, in_fs; simpl.
  set (T := Fs.path_of_string (status_file_path_ (reporter s) +:+ ".tmp")).
  fold P c.
  destruct (Json.well_encoded _).
  2:{ destruct (Fs.ofstream T EmptyString (fs s)) as [[[]|e] fs1] eqn:O;
        simpl; by eapply ofstream_dir. }
  destruct (Fs.ofstream T c (fs s)) as [[[]|e] fs1] eqn:O; simpl;
    try (by eapply ofstream_dir).
  pose proof (ofstream_dir _ _ _ _ _ _ _ _ O Hq) as H1.
  destruct (Fs.rename T P fs1) as [[[]|e] fs2] eqn:R; simpl;
    try (by eapply rename_dir).
  pose proof (rename_dir _ _ _ _ _ _ _ _ R H1) as H2.
  destruct (Fs.permissions P status_file_perms fs2) as [[[]|e] fs3] eqn:Pm;
    simpl.
  - destruct (permissions_dir _ _ _ _ _ _ _ _ Pm H2) as (m' & H3 & Hne & _).
    destruct (decide (q = P)) as [->|ne]; [|by rewrite H3, (Hne ne)].
    exfalso.
    destruct (rename_cases T P fs1) as [[e E]|(c' & m0 & o0 & _ & E)];
      rewrite E in R; [discriminate|].
    injection R as <-. simpl in H2. rewrite lookup_insert_eq in H2.
    discriminate.
  - destruct (permissions_cases P status_file_perms fs2)
      as [(e' & E & _)|(n & _ & _ & E)]; rewrite E in Pm;
      [|discriminate].
    by injection Pm as _ <-.
Qed.

End StatusConstructor.

(** X3.  The constructor of the reporter throws exactly when the
    directory of the status file cannot be created.  When the directory
    can be created the constructor returns, also if the first status
    file cannot be written: the reporter then holds the path it was
    given and the status [STARTING] with message "Service is starting",
    progress 0, the time of the call and no error detail, the directory
    of the status file exists, and the status file is as it was or holds
    the printed document of that status. *)
Theorem reporter_constructor :
  ∀ (ext : Externals) (now : Z) (path : string) (fs0 : Fs.filesystem),
    let parent := Fs.parent_path (Fs.path_of_string path) in
    (∀ e fs1,
       Fs.create_directories parent fs0 = (Thrown e, fs1) →
       Status.make now path fs0 = (Thrown e, fs1))
    ∧ (∀ fs1,
         Fs.create_directories parent fs0 = (Returned (), fs1) →
         ∃ r fs2,
           Status.make now path fs0 = (Returned r, fs2)
           ∧ r = {| Status.status_file_path_ := path;
                    Status.current_status_ :=
                      {| Status.status := Status.STARTING;
                         Status.message := "Service is starting";
                         Status.timestamp := now;
                         Status.progress_percentage := 0;
                         Status.error_details := EmptyString |} |}
           ∧ Fs.is_directory fs2 parent = true
           ∧ Props.persisted_or_unchanged
               {| Status.reporter := r; Status.fs := fs1 |}
               {| Status.reporter := r; Status.fs := fs2 |}).
Proof.
  intros ext now path fs0 parent. split.
  - intros e fs1 E. unfold Status.make. fold parent. by rewrite E.
  - intros fs1 E. unfold Status.make. fold parent. rewrite E.
    match goal with |- context [Status.write_status_file ?x] =>
      pose proof (write_status_file_reporter x) as Er;
      pose proof (write_status_file_returns x) as Rt;
      pose proof (write_status_file_persists x) as Pe;
      pose proof (λ q m o, write_status_file_keeps_directory x q m o) as Kd;
      destruct (Status.write_status_file x) as [[[]|e] s1]
    end; simpl in *; [|discriminate].
    eexists _, _. split; [reflexivity|]. split; [exact Er|].
    split.
    + apply create_directories_directory in E.
      apply is_directory_lookup in E as (m & o & Hq).
      apply is_directory_lookup. exists m, o. by apply Kd.
    + destruct s1 as [r1 f1]. simpl in *. subst r1. exact Pe.
Qed.

(** ** Edges of the provisioning check *)

Section MoreStringFacts2.

Lemma starts_with_inv p s :
  Str.starts_with p s = true → ∃ r, s = p +:+ r.
Proof.
  revert s. induction p as [|a p IH]; intros s; [by exists s|].
  destruct s as [|b s]; [discriminate|]. cbn [Str.starts_with].
  intros [->%Ascii.eqb_eq [r ->]%IH]%andb_true_iff. by exists r.
Qed.

End MoreStringFacts2.

Section CheckerEdges.
Context `{Externals}.
Import Checker Props.

Lemma check_certificates_exist_thrown self fs e :
  check_certificates_exist self fs = Thrown e
  ↔ (∃ c m o, Fs.nodes fs !! certs_path_ self = Some (Fs.File c m o)
              ∧ c ≠ EmptyString)
    ∧ e = "Not a directory".
Proof.
  unfold check_certificates_exist, check_directory_not_empty, Fs.exists_,
    Fs.is_empty, Fs.directory_iterator.
  destruct (Fs.nodes fs !! certs_path_ self) as [[c m o|m o]|]; simpl.
  - destruct c as [|a c]; simpl.
    + split; [discriminate|]. by intros [(? & ? & ? & [= <- <- <-] & ?) _].
    + split.
      * intros [= <-]. split; [|done]. by exists (String a c), m, o.
      * by intros [_ ->].
  - split; [|by intros [(? & ? & ? & ? & _) _]].
    destruct (Fs.can_read _); simpl; [|discriminate].
    destruct (Fs.children fs (certs_path_ self)); simpl; [discriminate|].
    by destruct (fold_left _ _ _).
  - split; [discriminate|]. by intros [(? & ? & ? & ? & _) _].
Qed.

Lemma check_certificates_exist_iff self fs :
  check_certificates_exist self fs = Returned true
  ↔ (∃ m o, Fs.nodes fs !! certs_path_ self = Some (Fs.Dir m o)
            ∧ Fs.can_read (Fs.Dir m o) = true)
    ∧ (∃ cert c m o,
         Fs.nodes fs !! (certs_path_ self ++ [cert]) = Some (Fs.File c m o)
         ∧ cert_name cert = true)
    ∧ (∃ key c m o,
         Fs.nodes fs !! (certs_path_ self ++ [key]) = Some (Fs.File c m o)
         ∧ key_name key = true).
Proof.
  split.
  - intros E. split; [|by apply check_certificates_exist_true].
    revert E.
    unfold check_certificates_exist, check_directory_not_empty, Fs.exists_,
      Fs.is_empty, Fs.directory_iterator.
    destruct (Fs.nodes fs !! certs_path_ self) as [[c m o|m o]|]; simpl;
      [by destruct c | | discriminate].
    destruct (Fs.can_read (Fs.Dir m o)) eqn:R; simpl; [|discriminate].
    intros _. by exists m, o.
  - intros ((m & o & D & Rd) & (cert & c1 & m1 & o1 & Hc & Nc)
            & (key & c2 & m2 & o2 & Hk & Nk)).
    assert (I : Fs.directory_iterator fs (certs_path_ self)
                = Returned (Fs.children fs (certs_path_ self))).
    { unfold Fs.directory_iterator. by rewrite D, Rd. }
    assert (Ic : (cert, Fs.File c1 m1 o1)
                 ∈ Fs.children fs (certs_path_ self))
      by by apply elem_of_children.
    assert (Ik : (key, Fs.File c2 m2 o2)
                 ∈ Fs.children fs (certs_path_ self))
      by by apply elem_of_children.
    unfold check_certificates_exist.
    rewrite (exists_of_lookup _ _ _ D). simpl.
    unfold check_directory_not_empty.
    rewrite (exists_of_lookup _ _ _ D).
    unfold Fs.is_empty. rewrite D, I.
    destruct (Fs.children fs (certs_path_ self)) as [|e l] eqn:Ch.
    { by apply not_elem_of_nil in Ic. }
    simpl negb. cbv iota. rewrite <- Ch. rewrite scan_entries. simpl.
    assert (existsb is_cert_file (Fs.children fs (certs_path_ self))
            = true) as ->.
    { apply existsb_exists. exists (cert, Fs.File c1 m1 o1).
      split; [rewrite Ch; by apply list_elem_of_In | done]. }
    assert (existsb is_key_file (Fs.children fs (certs_path_ self))
            = true) as ->.
    { apply existsb_exists. exists (key, Fs.File c2 m2 o2).
      split; [rewrite Ch; by apply list_elem_of_In | done]. }
    done.
Qed.

End CheckerEdges.

(** X4.  [check_provisioning_status] throws when the root, given as a
    resolved path, exists and [certs] below it is a regular file that
    is not empty.  The emptiness test takes such a file for a directory
    with entries, and the listing that follows is not guarded. *)
Theorem check_provisioning_status_throws_for_certs_file :
  ∀ (ext : Externals) (greengrass_path : string) (fs : Fs.filesystem),
    let root := Fs.path_of_string greengrass_path in
    Props.resolved_path greengrass_path →
    Fs.exists_ fs root = true →
    (∃ c m o, Fs.nodes fs !! (root ++ ["certs"]) = Some (Fs.File c m o)
              ∧ c ≠ EmptyString) →
    ∃ e,
      Checker.check_provisioning_status (Checker.make greengrass_path) fs
      = Thrown e.
Proof.
  intros ext greengrass_path fs root _ Ex F.
  assert (C : Checker.check_certificates_exist
                (Checker.make greengrass_path) fs
              = Thrown "Not a directory")
    by by apply check_certificates_exist_thrown.
  unfold Checker.check_provisioning_status.
  change (Checker.greengrass_path_ (Checker.make greengrass_path)) with root.
  rewrite Ex, C. simpl. eauto.
Qed.

Lemma check_provisioning_status_throws_for_certs_file_witness :
  ∃ e,
    @Checker.check_provisioning_status Examples.externals
      (Checker.make "/greengrass/v2") Examples.fs_with_certs_file
    = Thrown e.
Proof.
  assert (Re : Props.resolved_path "/greengrass/v2").
  { split; [reflexivity|]. vm_compute. intros H.
    repeat (apply elem_of_cons in H as [H|H]; [discriminate H|]).
    by apply elem_of_nil in H. }
  apply (check_provisioning_status_throws_for_certs_file Examples.externals
           "/greengrass/v2" Examples.fs_with_certs_file Re eq_refl).
  by exists "x", 420%N, true.
Defined.

(** X5.  [check_certificates_exist] returns [true] exactly when [certs]
    is a directory that can be listed and holds a regular file whose
    name contains ".cert.pem" or ".crt" and a regular file whose name
    contains ".key" (the pattern ".private.key" adds nothing to it).
    Directories with such names do not count, and one file may serve as
    both. *)
Theorem check_certificates_exist_exactly :
  ∀ (ext : Externals) (greengrass_path : string) (fs : Fs.filesystem),
    let certs := Fs.path_of_string greengrass_path ++ ["certs"] in
    (Checker.check_certificates_exist (Checker.make greengrass_path) fs
     = Returned true
     ↔ (∃ m o, Fs.nodes fs !! certs = Some (Fs.Dir m o)
               ∧ Fs.can_read (Fs.Dir m o) = true)
       ∧ (∃ cert c m o,
            Fs.nodes fs !! (certs ++ [cert]) = Some (Fs.File c m o)
            ∧ (Str.contains ".cert.pem" cert = true
               ∨ Str.contains ".crt" cert = true))
       ∧ (∃ key c m o,
            Fs.nodes fs !! (certs ++ [key]) = Some (Fs.File c m o)
            ∧ Str.contains ".key" key = true))
    ∧ (∀ name, Str.contains ".private.key" name = true →
               Str.contains ".key" name = true).
Proof.
  intros ext greengrass_path fs certs.
  assert (K : ∀ name, Str.contains ".private.key" name = true →
                      Str.contains ".key" name = true).
  { intros name. induction name as [|a name IH]; [done|].
    rewrite (contains_unfold ".private.key" (String a name)).
    intros [E|E]%orb_true_iff;
      [|rewrite contains_unfold, (IH E); apply orb_true_r].
    clear IH. apply starts_with_inv in E as [r ->].
    change (".private.key" +:+ r) with (".private" +:+ (".key" +:+ r)).
    apply contains_app_r, contains_here. }
  split; [|exact K].
  pose proof (check_certificates_exist_iff
                (Checker.make greengrass_path) fs) as I.
  simpl in I. autorewrite with paths in I. fold certs in I.
  rewrite I. unfold Props.cert_name, Props.key_name.
  split.
  - intros (D & (cert & c & m & o & Hc & Nc) & (key & c' & m' & o' & Hk & Nk)).
    split; [done|]. split.
    + exists cert, c, m, o. split; [done|]. by apply orb_true_iff.
    + exists key, c', m', o'. split; [done|].
      apply orb_true_iff in Nk as [Nk|Nk]; [by apply K | done].
  - intros (D & (cert & c & m & o & Hc & Nc) & (key & c' & m' & o' & Hk & Nk)).
    split; [done|]. split.
    + exists cert, c, m, o. split; [done|]. by apply orb_true_iff.
    + exists key, c', m', o'. split; [done|]. rewrite Nk.
      apply orb_true_r.
Qed.

(** ** The configuration files tried *)

Section ValidateFacts.
Context `{Externals}.
Import Checker Props.

Lemma is_yaml_extension p :
  is_yaml p = true ↔ Fs.extension p ∈ [".yaml"; ".yml"].
Proof.
  unfold is_yaml. rewrite orb_true_iff, !String.eqb_eq.
  rewrite !elem_of_cons, elem_of_nil. tauto.
Qed.

Lemma json_not_yaml : ".json" ∈ [".yaml"; ".yml"] → False.
Proof. rewrite !elem_of_cons, elem_of_nil. by intros [|[|[]]]. Qed.

Lemma is_empty_true content :
  Str.is_empty content = true ↔ content = EmptyString.
Proof. by destruct content. Qed.

Lemma validate_config_files_iff fs configs :
  validate_config_files fs configs = true
  ↔ ∃ before p after,
      configs = before ++ p :: after
      ∧ Fs.exists_ fs p = true
      ∧ accepted_config fs p
      ∧ Forall (skipped_config fs) before.
Proof.
  induction configs as [|q rest IH].
  { simpl. split; [discriminate|].
    intros (before & p & after & E & _). by destruct before. }
  assert (Skip : validate_config_files fs rest = true ∧ skipped_config fs q
                 → ∃ before p after,
                     q :: rest = before ++ p :: after
                     ∧ Fs.exists_ fs p = true
                     ∧ accepted_config fs p
                     ∧ Forall (skipped_config fs) before).
  { intros [(before & p & after & -> & X & A & F)%IH S].
    exists (q :: before), p, after. split; [done|]. split; [done|].
    split; [done|]. by constructor. }
  split.
  - simpl. destruct (Fs.exists_ fs q) eqn:X.
    2:{ intros V. apply Skip. split; [done|]. by left. }
    destruct (Fs.ifstream fs q) as [[content|]|] eqn:I; simpl;
      [|discriminate|].
    2:{ intros V. apply Skip. split; [done|]. right. by left. }
    destruct (Str.is_empty content) eqn:Ne; [discriminate|].
    apply is_empty_false in Ne.
    destruct (is_yaml q) eqn:Y.
    + apply is_yaml_extension in Y.
      destruct (Str.contains "system:" content) eqn:Hs; simpl.
      * destruct (Str.contains "services:" content) eqn:Hv; simpl.
        -- intros _. exists [], q, rest. split; [done|]. split; [done|].
           split; [|constructor]. exists content.
           split; [done|]. split; [done|]. by left.
        -- intros V. apply Skip. split; [done|]. right. right.
           exists content. split; [done|]. split; [done|]. split.
           ++ intros (c & I' & _ & [(_ & _ & Hv')|(J & _)]).
              ** congruence.
              ** rewrite J in Y. by apply json_not_yaml in Y.
           ++ intros J. rewrite J in Y. by apply json_not_yaml in Y.
      * intros V. apply Skip. split; [done|]. right. right.
        exists content. split; [done|]. split; [done|]. split.
        -- intros (c & I' & _ & [(_ & Hs' & _)|(J & _)]).
           ++ congruence.
           ++ rewrite J in Y. by apply json_not_yaml in Y.
        -- intros J. rewrite J in Y. by apply json_not_yaml in Y.
    + assert (nY : Fs.extension q ∉ [".yaml"; ".yml"]).
      { intros Y'%is_yaml_extension. congruence. }
      destruct (String.eqb (Fs.extension q) ".json") eqn:J.
      * apply String.eqb_eq in J.
        destruct (json_parse content) as [json|] eqn:P; [|discriminate].
        destruct (Json.contains json "coreThing") eqn:K1; simpl.
        { intros _. exists [], q, rest. split; [done|]. split; [done|].
          split; [|constructor]. exists content.
          split; [done|]. split; [done|]. right. split; [done|].
          exists json. split; [done|]. by left. }
        destruct (Json.contains json "system") eqn:K2; simpl.
        { intros _. exists [], q, rest. split; [done|]. split; [done|].
          split; [|constructor]. exists content.
          split; [done|]. split; [done|]. right. split; [done|].
          exists json. split; [done|]. by right. }
        intros V. apply Skip. split; [done|]. right. right.
        exists content. split; [done|]. split; [done|]. split.
        -- intros (c & I' & _ & [(Y' & _)|(_ & j & Pj & [K|K])]).
           ++ done.
           ++ congruence.
           ++ congruence.
        -- intros _. congruence.
      * apply String.eqb_neq in J.
        intros V. apply Skip. split; [done|]. right. right.
        exists content. split; [done|]. split; [done|]. split.
        -- intros (c & I' & _ & [(Y' & _)|(J' & _)]); done.
        -- done.
  - intros (before & p & after & E & X & A & F).
    destruct before as [|b before]; simpl in E; injection E as -> ->.
    + simpl. rewrite X.
      destruct A as (content & I & Ne & A). rewrite I. simpl.
      assert (Str.is_empty content = false) as ->
        by (destruct content; done).
      destruct A as [(Y & Hs & Hv)|(J & json & P & K)].
      * apply is_yaml_extension in Y. by rewrite Y, Hs, Hv.
      * assert (is_yaml p = false) as ->.
        { apply not_true_iff_false. intros Y%is_yaml_extension.
          rewrite J in Y. by apply json_not_yaml in Y. }
        rewrite J. simpl. rewrite P.
        destruct K as [-> | ->]; [done|]. by rewrite orb_true_r.
    + apply Forall_cons in F as [S F].
      assert (V : validate_config_files fs (before ++ p :: after) = true).
      { apply IH. by exists before, p, after. }
      simpl. destruct S as [->|[N|(content & I & Ne & nA & Jp)]]; [done| |].
      * destruct (Fs.exists_ fs b); [|done]. by rewrite N.
      * destruct (Fs.exists_ fs b) eqn:Xb; [|done]. rewrite I. simpl.
        assert (Str.is_empty content = false) as ->
          by (destruct content; done).
        destruct (is_yaml b) eqn:Y.
        -- destruct (Str.contains "system:" content) eqn:Hs; simpl; [|done].
           destruct (Str.contains "services:" content) eqn:Hv; simpl; [|done].
           exfalso. apply nA. exists content. split; [done|].
           split; [done|]. left. by apply is_yaml_extension in Y.
        -- destruct (String.eqb (Fs.extension b) ".json") eqn:J; [|done].
           apply String.eqb_eq in J.
           destruct (json_parse content) as [json|] eqn:P;
             [|by destruct (Jp J)].
           destruct (Json.contains json "coreThing") eqn:K1; simpl.
           { exfalso. apply nA. exists content. split; [done|].
             split; [done|]. right. split; [done|]. exists json. auto. }
           destruct (Json.contains json "system") eqn:K2; simpl; [|done].
           exfalso. apply nA. exists content. split; [done|].
           split; [done|]. right. split; [done|]. exists json. auto.
Qed.

End ValidateFacts.

(** X6.  [validate_config_file] goes through [config.yaml], [config.yml]
    and [config.json] in this order and accepts exactly when one of them
    is accepted (it opens, is not empty and holds the keys looked for)
    and every candidate before it is passed over: absent, not opened, or
    read, not empty and without the keys.  A candidate that is read and
    empty, or a [config.json] that does not parse, ends the search with
    a rejection: an empty [config.yaml] rejects whatever the other two
    files hold. *)
Theorem validate_config_file_decision :
  ∀ (ext : Externals) (greengrass_path : string) (fs : Fs.filesystem),
    let config := Fs.path_of_string greengrass_path ++ ["config"] in
    let candidates :=
      [config ++ ["config.yaml"]; config ++ ["config.yml"];
       config ++ ["config.json"]] in
    (Checker.validate_config_file (Checker.make greengrass_path) fs = true
     ↔ ∃ before p after,
         candidates = before ++ p :: after
         ∧ Props.accepted_config fs p
         ∧ Forall (Props.skipped_config fs) before)
    ∧ (Fs.ifstream fs (config ++ ["config.yaml"])
       = Some (Fs.Chars EmptyString) →
       Checker.validate_config_file (Checker.make greengrass_path) fs
       = false).
Proof.
  intros ext greengrass_path fs config candidates.
  assert (E : Checker.validate_config_file (Checker.make greengrass_path) fs
              = Checker.validate_config_files fs candidates).
  { unfold Checker.validate_config_file, Checker.possible_configs.
    simpl. by autorewrite with paths. }
  rewrite E. split.
  - rewrite validate_config_files_iff. split.
    + intros (before & p & after & ? & _ & ? & ?). by exists before, p, after.
    + intros (before & p & after & ? & A & ?). exists before, p, after.
      split; [done|]. split; [|done].
      destruct A as (c & I & _). unfold Fs.ifstream in I. unfold Fs.exists_.
      by destruct (Fs.nodes fs !! p).
  - intros I. subst candidates. cbn [Checker.validate_config_files].
    rewrite I. simpl.
    unfold Fs.ifstream in I. unfold Fs.exists_.
    by destruct (Fs.nodes fs !! _).
Qed.

(** ** The record of the check *)

Section PathRoundTrip.
Import Fs.

Lemma append_nil_r (s : string) : s +:+ EmptyString = s.
Proof. induction s as [|a s IH]; [done|]. by rewrite append_cons, IH. Qed.

Lemma split_on_app_piece c t h tl :
  Str.contains "/" c = false →
  Str.split_on "/" t = h :: tl →
  Str.split_on "/" (c +:+ t) = (c +:+ h) :: tl.
Proof.
  intros Hc Ht. induction c as [|a c IH]; [done|].
  apply contains_slash_cons in Hc as [Ea Hc].
  rewrite append_cons. simpl. by rewrite Ea, (IH Hc).
Qed.

Lemma split_on_to_string p :
  Forall (λ c, Str.contains "/" c = false) p →
  Str.split_on "/" (to_string p) = EmptyString :: p.
Proof.
  induction 1 as [|c p Hc _ IH]; [done|].
  cbn [to_string fold_right]. fold (to_string p).
  change ("/" +:+ c +:+ to_string p) with (String "/" (c +:+ to_string p)).
  cbn [Str.split_on]. rewrite Ascii.eqb_refl.
  rewrite (split_on_app_piece c _ _ _ Hc IH). by rewrite append_nil_r.
Qed.

Lemma split_on_pieces s :
  Forall (λ c, Str.contains "/" c = false) (Str.split_on "/" s).
Proof.
  induction s as [|a s IH]; [by repeat constructor|].
  cbn [Str.split_on]. destruct (Ascii.eqb a "/") eqn:Ea.
  { constructor; [done | exact IH]. }
  assert (Ha : ∀ h, Str.contains "/" h = false →
                    Str.contains "/" (String a h) = false).
  { intros h Hh. rewrite contains_unfold, Hh, orb_false_r.
    cbn [Str.starts_with]. by rewrite Ascii.eqb_sym, Ea. }
  destruct (Str.split_on "/" s) as [|h t].
  { constructor; [by apply Ha | constructor]. }
  apply Forall_cons in IH as [Hh Ht]. constructor; [by apply Ha | done].
Qed.

Lemma path_of_string_components s : Forall Props.path_component (path_of_string s).
Proof.
  apply Forall_forall. intros c Hin.
  apply list_elem_of_In, filter_In in Hin as [Hin K]. split; [|done].
  pose proof (split_on_pieces s) as F.
  rewrite Forall_forall in F. by apply F, list_elem_of_In.
Qed.

(** The path of the text of a path is that path. *)
Lemma path_of_string_to_string p :
  Forall Props.path_component p → path_of_string (to_string p) = p.
Proof.
  intros F. unfold path_of_string.
  rewrite split_on_to_string by (eapply Forall_impl; [exact F|]; by intros c []).
  simpl. induction F as [|c p [_ K] _ IH]; [done|]. simpl. by rewrite K, IH.
Qed.

Lemma to_string_app p q : to_string (p ++ q) = to_string p +:+ to_string q.
Proof.
  induction p as [|c p IH]; [done|].
  cbn [to_string fold_right app]. fold (to_string (p ++ q)) (to_string p).
  rewrite IH. by rewrite !append_assoc.
Qed.

End PathRoundTrip.

Section StatusRecord.
Context `{Externals}.
Import Checker Props.

Lemma detect_known_version self fs :
  check_config_exists self fs = true →
  detect_greengrass_version self fs = "v2.x"
  ∨ (detect_greengrass_version self fs = "v1.x"
     ∧ Fs.exists_ fs (config_path_ self ++ ["config.yaml"]) = false
     ∧ Fs.exists_ fs (config_path_ self ++ ["config.json"]) = true).
Proof.
  unfold check_config_exists. autorewrite with paths.
  rewrite detect_greengrass_version_spec.
  destruct (Fs.exists_ fs (greengrass_path_ self ++ ["recipes"])); simpl;
    [by left|].
  destruct (Fs.exists_ fs (config_path_ self ++ ["config.yaml"])); simpl;
    [by left|].
  destruct (Fs.exists_ fs (config_path_ self ++ ["config.yml"])); simpl;
    [by left|].
  intros ->. by right.
Qed.

End StatusRecord.

(** X7.  What the record returned by [check_provisioning_status] says.
    It reports [is_provisioned] exactly with the details "Greengrass is
    fully provisioned"; then no component is listed as missing and the
    version tag is "v2.x" or "v1.x", never "unknown".  A record that is
    not provisioned has an empty thing name, version and configuration
    path, and when components are listed as missing the details are
    "Missing components: " followed by their names in the order config,
    certificates, ggc-root, separated by ", ". *)
Theorem provisioning_status_record :
  ∀ (ext : Externals) (greengrass_path : string) (fs : Fs.filesystem)
    (status : Checker.ProvisioningStatus),
    Checker.check_provisioning_status (Checker.make greengrass_path) fs
    = Returned status →
    (Checker.is_provisioned status = true
     ↔ Checker.details status = "Greengrass is fully provisioned")
    ∧ (Checker.is_provisioned status = true →
       Checker.missing_components status = []
       ∧ (Checker.greengrass_version status = "v2.x"
          ∨ Checker.greengrass_version status = "v1.x"))
    ∧ (Checker.is_provisioned status = false →
       Checker.thing_name status = EmptyString
       ∧ Checker.greengrass_version status = EmptyString
       ∧ Checker.config_file_path status = EmptyString)
    ∧ (Checker.missing_components status ≠ [] →
       Checker.is_provisioned status = false
       ∧ Checker.details status
         = "Missing components: "
           +:+ Checker.join_comma (Checker.missing_components status)
       ∧ ∃ config certs root : bool,
           Checker.missing_components status
           = (if config then ["config"] else [])
             ++ (if certs then ["certificates"] else [])
             ++ (if root then ["ggc-root"] else [])).
Proof.
  intros ext greengrass_path fs status E.
  unfold Checker.check_provisioning_status in E.
  destruct (negb _).
  { injection E as <-. simpl. split; [done|]. split; [done|]. done. }
  destruct (Checker.check_certificates_exist _ fs) as [has_certs|];
    [|discriminate].
  destruct (Checker.check_config_exists _ fs) eqn:Hc;
    destruct has_certs;
    destruct (Checker.check_greengrass_root_exists _ fs);
    simpl in E;
    try (injection E as <-; simpl;
         split; [done|]; split; [done|]; split; [done|]; intros _;
         split; [done|]; split; [done|];
         first [ by exists true, true, true | by exists true, true, false
               | by exists true, false, true | by exists true, false, false
               | by exists false, true, true | by exists false, true, false
               | by exists false, false, true ]).
  destruct (Checker.validate_config_file _ fs); injection E as <-; simpl.
  - split; [done|]. split; [|done]. intros _. split; [done|].
    destruct (detect_known_version _ _ Hc) as [->|[-> _]]; auto.
  - split; [done|]. split; [done|]. done.
Qed.

Lemma provisioning_status_record_witness :
  Checker.missing_components Examples.provisioned_status = []
  ∧ (Checker.greengrass_version Examples.provisioned_status = "v2.x"
     ∨ Checker.greengrass_version Examples.provisioned_status = "v1.x").
Proof.
  assert (E : @Checker.check_provisioning_status Examples.externals
                (Checker.make "/greengrass/v2") Examples.provisioned_fs
              = Returned Examples.provisioned_status)
    by (vm_compute; reflexivity).
  destruct (provisioning_status_record Examples.externals "/greengrass/v2"
              Examples.provisioned_fs Examples.provisioned_status E)
    as (_ & P & _).
  exact (P eq_refl).
Defined.

(** X8.  The configuration path of a provisioned record is always
    [config/config.yaml] below the root.  For an installation that is
    recognised by its [config.json] (version tag "v1.x") that path names
    a file that does not exist. *)
Theorem v1_status_names_absent_config_file :
  ∀ (ext : Externals) (greengrass_path : string) (fs : Fs.filesystem)
    (status : Checker.ProvisioningStatus),
    let root := Fs.path_of_string greengrass_path in
    Checker.check_provisioning_status (Checker.make greengrass_path) fs
    = Returned status →
    Checker.is_provisioned status = true →
    Fs.path_of_string (Checker.config_file_path status)
    = root ++ ["config"; "config.yaml"]
    ∧ (Checker.greengrass_version status = "v1.x" →
       Fs.exists_ fs (Fs.path_of_string (Checker.config_file_path status))
       = false
       ∧ Fs.exists_ fs (root ++ ["config"; "config.json"]) = true).
Proof.
  intros ext greengrass_path fs status root E P.
  unfold Checker.check_provisioning_status in E.
  destruct (negb _); [injection E as <-; discriminate|].
  destruct (Checker.check_certificates_exist _ fs) as [has_certs|];
    [|discriminate].
  destruct (Checker.check_config_exists _ fs) eqn:Hc; simpl in E;
    [|injection E as <-; discriminate].
  destruct has_certs; simpl in E; [|injection E as <-; discriminate].
  destruct (Checker.check_greengrass_root_exists _ fs); simpl in E;
    [|injection E as <-; discriminate].
  destruct (Checker.validate_config_file _ fs);
    [|injection E as <-; discriminate].
  injection E as <-. simpl. autorewrite with paths. fold root.
  assert (R : Fs.path_of_string
                (Fs.to_string ((root ++ ["config"]) ++ ["config.yaml"]))
              = root ++ ["config"; "config.yaml"]).
  { rewrite <- app_assoc. apply path_of_string_to_string.
    apply Forall_app. split; [apply path_of_string_components|].
    by repeat constructor. }
  split; [exact R|]. rewrite R. intros V.
  destruct (detect_known_version _ _ Hc) as [V2|(_ & X1 & X2)].
  { rewrite V2 in V. discriminate. }
  simpl in X1, X2. autorewrite with paths in X1, X2. fold root in X1, X2.
  by rewrite <- !app_assoc in X1, X2.
Qed.

Lemma v1_status_names_absent_config_file_witness :
  ∃ status,
    @Checker.check_provisioning_status Examples.externals_v1
      (Checker.make "/greengrass") Examples.fs_v1 = Returned status
    ∧ Checker.is_provisioned status = true
    ∧ Checker.greengrass_version status = "v1.x"
    ∧ Fs.exists_ Examples.fs_v1
        (Fs.path_of_string (Checker.config_file_path status)) = false.
Proof.
  eexists.
  assert (E : @Checker.check_provisioning_status Examples.externals_v1
                (Checker.make "/greengrass") Examples.fs_v1
              = Returned
                  {| Checker.is_provisioned := true;
                     Checker.greengrass_version := "v1.x";
                     Checker.thing_name := "Thing1";
                     Checker.config_file_path :=
                       "/greengrass/config/config.yaml";
                     Checker.missing_components := [];
                     Checker.details := "Greengrass is fully provisioned" |})
    by (vm_compute; reflexivity).
  split; [exact E|]. split; [reflexivity|]. split; [reflexivity|].
  exact (proj1 (proj2 (v1_status_names_absent_config_file
                         Examples.externals_v1 "/greengrass"
                         Examples.fs_v1 _ E eq_refl) eq_refl)).
Defined.

(** ** Reading the thing name back *)

Section ThingNameSearch.
Import Checker Props.

Lemma search_skip a s :
  thing_name_here (String a s) = None →
  thing_name_regex_search (String a s) = thing_name_regex_search s.
Proof. intros E. cbn [thing_name_regex_search]. by rewrite E. Qed.

(** A pattern that begins in [u] and runs into [v] holds the first
    character of [v]. *)
Lemma starts_with_straddle pat u b v :
  Str.contains (String b EmptyString) pat = false →
  Str.starts_with pat (u +:+ String b v) = true →
  Str.starts_with pat u = true.
Proof.
  revert u. induction pat as [|p pat IH]; intros u Hb; [done|].
  rewrite contains_unfold in Hb. apply orb_false_iff in Hb as [Hp Hb].
  cbn [Str.starts_with] in Hp. rewrite andb_true_r in Hp.
  destruct u as [|a u].
  - change (EmptyString +:+ String b v) with (String b v).
    cbn [Str.starts_with]. rewrite Ascii.eqb_sym, Hp. done.
  - rewrite append_cons. cbn [Str.starts_with].
    intros [-> E]%andb_true_iff. simpl. by apply IH.
Qed.

Lemma thing_name_here_no_colon u b v :
  Str.contains ":" u = false →
  Str.contains (String b EmptyString) "thingName:" = false →
  thing_name_here (u +:+ String b v) = None.
Proof.
  intros Hu Hb. unfold thing_name_here.
  destruct (Str.starts_with "thingName:" (u +:+ String b v)) eqn:E; [|done].
  apply starts_with_straddle in E; [|done].
  apply starts_with_inv in E as [r ->].
  rewrite (contains_app_l ":" "thingName:" r) in Hu; [done|].
  reflexivity.
Qed.

Lemma search_skip_no_colon u b v :
  Str.contains ":" u = false →
  Str.contains (String b EmptyString) "thingName:" = false →
  thing_name_regex_search (u +:+ String b v)
  = thing_name_regex_search (String b v).
Proof.
  intros Hu Hb. induction u as [|a u IH]; [done|].
  rewrite append_cons. rewrite search_skip.
  - apply IH. rewrite contains_unfold in Hu.
    by apply orb_false_iff in Hu as [_ Hu].
  - rewrite <- append_cons. by apply thing_name_here_no_colon.
Qed.

Lemma take_token_app tok ws rest :
  has_space tok = false → Str.is_space ws = true →
  Str.take_token (tok +:+ String ws rest) = tok.
Proof.
  intros Ht Hw. induction tok as [|c tok IH].
  - change (EmptyString +:+ String ws rest) with (String ws rest).
    cbn [Str.take_token]. by rewrite Hw.
  - cbn [has_space] in Ht. apply orb_false_iff in Ht as [Hc Ht].
    rewrite append_cons. cbn [Str.take_token]. by rewrite Hc, IH.
Qed.

Lemma has_space_app a b :
  has_space (a +:+ b) = has_space a || has_space b.
Proof.
  induction a as [|c a IH]; [done|]. rewrite append_cons.
  cbn [has_space]. by rewrite IH, orb_assoc.
Qed.

Lemma search_here s token :
  thing_name_here s = Some token → thing_name_regex_search s = Some token.
Proof. intros E. destruct s; cbn [thing_name_regex_search]; by rewrite E. Qed.

Lemma thing_name_here_line thing tail :
  has_space thing = false →
  thing_name_here
    ("thingName: "
     +:+ (Str.dq +:+ (thing +:+ (Str.dq +:+ (Str.nl +:+ tail)))))
  = Some (Str.quoted thing).
Proof.
  intros Hs. unfold thing_name_here.
  set (rest := thing +:+ (Str.dq +:+ (Str.nl +:+ tail))).
  change (Str.starts_with _ _) with true. cbv iota.
  change (Str.skip_spaces _) with (String "034" rest).
  cbn [Str.take_token].
  change (Str.is_space "034") with false. cbv iota. subst rest.
  rewrite <- append_assoc.
  change (Str.nl +:+ tail) with (String "010" tail).
  rewrite take_token_app.
  - done.
  - rewrite has_space_app, Hs. reflexivity.
  - reflexivity.
Qed.

End ThingNameSearch.

Section ThingNameInContent.
Import Generator Props.

Lemma append_nil_l (s : string) : EmptyString +:+ s = s.
Proof. reflexivity. Qed.

Lemma lines_app l1 l2 : Str.lines (l1 ++ l2) = Str.lines l1 +:+ Str.lines l2.
Proof.
  induction l1 as [|a l1 IH]; [done|].
  cbn [app Str.lines fold_right]. fold (Str.lines (l1 ++ l2)) (Str.lines l1).
  by rewrite IH, !append_assoc.
Qed.

(** The text begins with the seven lines up to the thing name. *)
Lemma yaml_content_head g device_config :
  ∃ tail,
    generate_yaml_config_content g device_config
    = Str.lines
        [ "---";
          "system:";
          "  certificateFilePath: "
            +:+ Str.quoted (Fs.to_string (greengrass_path_ g) +:+ "/certs/"
                            +:+ Database.thing_name device_config
                            +:+ ".cert.pem");
          "  privateKeyPath: "
            +:+ Str.quoted (Fs.to_string (greengrass_path_ g) +:+ "/certs/"
                            +:+ Database.thing_name device_config
                            +:+ ".private.key");
          "  rootCaPath: "
            +:+ Str.quoted (Fs.to_string (greengrass_path_ g)
                            +:+ "/certs/root.ca.pem");
          "  rootpath: " +:+ Str.quoted (Fs.to_string (greengrass_path_ g));
          "  thingName: "
            +:+ Str.quoted (Database.thing_name device_config) ]
      +:+ tail.
Proof.
  unfold generate_yaml_config_content.
  match goal with
  | |- context [Str.lines (?a :: ?b :: ?c :: ?d :: ?e :: ?f :: ?g0 :: ?tl)] =>
      change (Str.lines (a :: b :: c :: d :: e :: f :: g0 :: tl))
        with (Str.lines ([a; b; c; d; e; f; g0] ++ tl));
      set (rest := tl)
  end.
  rewrite lines_app.
  destruct (negb _), (Database.proxy_url _), (Database.mqtt_port _);
    rewrite ?append_assoc; eexists; reflexivity.
Qed.

Lemma search_thing_name_line root thing tail :
  Str.contains ":" root = false →
  Str.contains ":" thing = false →
  has_space thing = false →
  Checker.thing_name_regex_search
    (Str.lines
       [ "---";
         "system:";
         "  certificateFilePath: "
           +:+ Str.quoted (root +:+ "/certs/" +:+ thing +:+ ".cert.pem");
         "  privateKeyPath: "
           +:+ Str.quoted (root +:+ "/certs/" +:+ thing +:+ ".private.key");
         "  rootCaPath: " +:+ Str.quoted (root +:+ "/certs/root.ca.pem");
         "  rootpath: " +:+ Str.quoted root;
         "  thingName: " +:+ Str.quoted thing ]
     +:+ tail)
  = Some (Str.quoted thing).
Proof.
  intros Hr Ht Hs.
  cbn [Str.lines fold_right]. unfold Str.quoted, Str.nl, Str.dq.
  rewrite !append_assoc. rewrite ?append_cons, ?append_nil_l.
  repeat first
    [ rewrite search_skip by reflexivity
    | rewrite (search_skip_no_colon root) by (exact Hr || reflexivity)
    | rewrite (search_skip_no_colon thing) by (exact Ht || reflexivity) ].
  apply search_here. by apply (thing_name_here_line thing tail).
Qed.

Lemma yaml_thing_name g device_config :
  Str.contains ":" (Fs.to_string (greengrass_path_ g)) = false →
  Str.contains ":" (Database.thing_name device_config) = false →
  has_space (Database.thing_name device_config) = false →
  Checker.thing_name_regex_search
    (generate_yaml_config_content g device_config)
  = Some (Str.quoted (Database.thing_name device_config)).
Proof.
  intros Hr Ht Hs.
  destruct (yaml_content_head g device_config) as [tail ->].
  by apply search_thing_name_line.
Qed.

End ThingNameInContent.

Section ReadAfterGenerate.
Context `{Externals}.
Import Props.

Lemma provisioned_thing_name self fs status :
  Checker.check_provisioning_status self fs = Returned status →
  Checker.is_provisioned status = true →
  Checker.thing_name status = Checker.read_thing_name_from_config self fs.
Proof.
  unfold Checker.check_provisioning_status.
  destruct (negb _); [by intros [= <-]|].
  destruct (Checker.check_certificates_exist self fs); [|discriminate].
  destruct (_ && _); [|by intros [= <-]].
  destruct (Checker.validate_config_file self fs); by intros [= <-].
Qed.

Lemma read_thing_name_yaml self fs content name :
  Fs.ifstream fs (Checker.config_path_ self ++ ["config.yaml"])
  = Some (Fs.Chars content) →
  Checker.thing_name_regex_search content = Some name →
  Checker.read_thing_name_from_config self fs = name.
Proof.
  intros I S.
  unfold Checker.read_thing_name_from_config, Checker.possible_configs.
  autorewrite with paths. cbn [Checker.read_thing_name_from].
  assert (Fs.exists_ fs (Checker.config_path_ self ++ ["config.yaml"])
          = true) as ->.
  { unfold Fs.ifstream in I. unfold Fs.exists_.
    by destruct (Fs.nodes fs !! _). }
  rewrite I. simpl.
  unfold Checker.is_yaml, Fs.extension. rewrite filename_snoc. simpl.
  by rewrite S.
Qed.

End ReadAfterGenerate.



(** ** What the generated files hold *)

Section GeneratedContents.
Import Generator Props.

Lemma file_with_content_ofstream p c fs r fs' q c0 :
  Fs.ofstream p c fs = (r, fs') → q ≠ p →
  file_with_content fs q c0 → file_with_content fs' q c0.
Proof.
  intros E ne (m & o & Hq). exists m, o.
  by rewrite (ofstream_lookup_other _ _ _ _ _ _ E ne).
Qed.

Lemma file_with_content_permissions p X fs r fs' q c0 :
  Fs.permissions p X fs = (r, fs') →
  file_with_content fs q c0 → file_with_content fs' q c0.
Proof.
  intros E (m & o & Hq).
  destruct (permissions_file _ _ _ _ _ _ _ _ _ E Hq) as (m' & Hq' & _).
  by exists m', o.
Qed.

Lemma file_with_content_written p c fs fs' :
  Fs.ofstream p c fs = (Returned true, fs') → file_with_content fs' p c.
Proof. apply ofstream_true_lookup. Qed.

Lemma cert_path_not_root_ca p device_config :
  Fs.join p (cert_file_name device_config) ≠ p ++ ["root.ca.pem"].
Proof.
  unfold cert_file_name. intros E.
  destruct (last_join_app p (Database.thing_name device_config) ".cert.pem"
              eq_refl ltac:(simpl; lia)) as [x L].
  rewrite E, last_snoc in L. injection L as L.
  destruct x as [|a [|b [|c x]]]; try discriminate.
  apply (f_equal String.length) in L. rewrite !append_cons in L.
  simpl in L. rewrite length_append in L. simpl in L. lia.
Qed.

Lemma write_certificates_inv_ca device_config s s' :
  write_certificates device_config s = (Returned true, s') →
  let cert_path :=
    Fs.join (certs_path_ (self s)) (cert_file_name device_config) in
  let key_path :=
    Fs.join (certs_path_ (self s)) (key_file_name device_config) in
  let root_ca_path := Fs.join (certs_path_ (self s)) "root.ca.pem" in
  let source := Fs.path_of_string (Database.root_ca_path device_config) in
  ∃ f1 r1 f2 f3 r2 f4 ca f5 r3,
    Fs.ofstream cert_path (Database.certificate_pem device_config) (fs s)
    = (Returned true, f1)
    ∧ Fs.permissions cert_path other_file_perms f1 = (r1, f2)
    ∧ Fs.ofstream key_path (Database.private_key_pem device_config) f2
      = (Returned true, f3)
    ∧ Fs.permissions key_path private_key_perms f3 = (r2, f4)
    ∧ Returned ca
      = (if Fs.exists_ f4 source then
           match Fs.ifstream f4 source with
           | Some root_ca_file => Fs.read_all root_ca_file
           | None => Returned EmptyString
           end
         else Returned (Database.root_ca_path device_config))
    ∧ Fs.ofstream root_ca_path ca f4 = (Returned true, f5)
    ∧ Fs.permissions root_ca_path other_file_perms f5 = (r3, fs s').
Proof.
  unfold write_certificates. intros E.
  apply try_catch_cases in E as [(a & E & [= <-])|(e & s1 & _ & E)].
  2:{ apply bind_returned in E as (? & ? & _ & E). discriminate. }
  apply bind_returned in E as (g & s0 & [[= ->] ->]%gets_inv & E).
  apply bind_returned in E as (ok1 & s1 & W1 & E).
  apply write_file_inv in W1 as (b1 & [= ->] & W1 & S1).
  destruct b1; [|discriminate]. simpl in E.
  apply bind_returned in E as (? & s2 & P1 & E).
  apply set_file_permissions_inv in P1 as (_ & S2 & r1 & P1).
  apply bind_returned in E as (ok2 & s3 & W2 & E).
  apply write_file_inv in W2 as (b2 & [= ->] & W2 & S3).
  destruct b2; [|discriminate]. simpl in E.
  apply bind_returned in E as (? & s4 & P2 & E).
  apply set_file_permissions_inv in P2 as (_ & S4 & r2 & P2).
  apply bind_returned in E as (ca & s5 & [Eca ->]%reads_inv & E).
  apply bind_returned in E as (ok3 & s6 & W3 & E).
  apply write_file_inv in W3 as (b3 & [= ->] & W3 & S6).
  destruct b3; [|discriminate]. simpl in E.
  apply bind_returned in E as (? & s7 & P3 & E).
  apply set_file_permissions_inv in P3 as (_ & S7 & r3 & P3).
  apply ret_inv in E as [_ ->].
  exists (fs s1), r1, (fs s2), (fs s3), r2, (fs s4), ca, (fs s6), r3.
  done.
Qed.

End GeneratedContents.





(** ** Failures of the generator *)

Section GeneratorFailures.
Import Generator Props.

Lemma try_catch_flag (body : M state bool) (prefix : string) :
  prefix ≠ EmptyString →
  (∀ s ok s', body s = (Returned ok, s') →
              ok = false → last_error_ (self s') ≠ EmptyString) →
  returns_flag
    (try_catch body
       (λ what, set_last_error (prefix +:+ what) ;;; ret false)).
Proof.
  intros ne Hb s. unfold try_catch.
  destruct (body s) as [[ok|e] s1] eqn:E.
  - exists ok, s1. split; [done|]. by apply (Hb s).
  - eexists false, _. split; [reflexivity|]. intros _. simpl.
    destruct prefix; [done | discriminate].
Qed.

Lemma write_file_flag p c : returns_flag (write_file p c).
Proof.
  intros s.
  unfold write_file, try_catch, bind, in_fs, set_last_error, modify, ret.
  destruct (ofstream_cases p c (fs s)) as [E|(m & o & E & _)]; rewrite E;
    cbn.
  - eexists false, _. split; [reflexivity|]. intros _. simpl. discriminate.
  - eexists true, _. split; [reflexivity|]. discriminate.
Qed.

Lemma write_file_false p c s s' :
  write_file p c s = (Returned false, s') →
  last_error_ (self s') ≠ EmptyString.
Proof.
  intros E. destruct (write_file_flag p c s) as (ok & s1 & E1 & H).
  rewrite E in E1. injection E1 as <- <-. by apply H.
Qed.

Lemma create_directory_structure_flag :
  returns_flag create_directory_structure.
Proof.
  apply try_catch_flag; [done|].
  intros s ok s' E.
  repeat (apply bind_returned in E as (? & ? & _ & E)).
  apply ret_inv in E as [[= ->] _]. discriminate.
Qed.

Lemma write_certificates_flag device_config :
  returns_flag (write_certificates device_config).
Proof.
  apply try_catch_flag; [done|].
  intros s ok s' E.
  apply bind_returned in E as (g & s0 & _ & E).
  apply bind_returned in E as (ok1 & s1 & W1 & E).
  destruct ok1; simpl in E.
  2:{ apply ret_inv in E as [_ ->]. intros _.
      by eapply write_file_false. }
  apply bind_returned in E as (? & s2 & _ & E).
  apply bind_returned in E as (ok2 & s3 & W2 & E).
  destruct ok2; simpl in E.
  2:{ apply ret_inv in E as [_ ->]. intros _.
      by eapply write_file_false. }
  apply bind_returned in E as (? & s4 & _ & E).
  apply bind_returned in E as (ca & s5 & _ & E).
  apply bind_returned in E as (ok3 & s6 & W3 & E).
  destruct ok3; simpl in E.
  2:{ apply ret_inv in E as [_ ->]. intros _.
      by eapply write_file_false. }
  apply bind_returned in E as (? & s7 & _ & E).
  apply ret_inv in E as [[= ->] _]. discriminate.
Qed.

Lemma generate_greengrass_v2_config_flag device_config :
  returns_flag (generate_greengrass_v2_config device_config).
Proof.
  apply try_catch_flag; [done|].
  intros s ok s' E.
  apply bind_returned in E as (g & s0 & _ & E).
  apply bind_returned in E as (ok1 & s1 & W1 & E).
  destruct ok1; simpl in E.
  2:{ apply ret_inv in E as [_ ->]. intros _.
      by eapply write_file_false. }
  apply bind_returned in E as (? & s2 & _ & E).
  apply ret_inv in E as [[= ->] _]. discriminate.
Qed.

(** After three successful steps the validation finds what it looks
    for. *)
Lemma validate_after_steps device_config s s1 s2 s3 :
  create_directory_structure s = (Returned true, s1) →
  write_certificates device_config s1 = (Returned true, s2) →
  generate_greengrass_v2_config device_config s2 = (Returned true, s3) →
  validate_configuration s3 = (Returned true, s3).
Proof.
  intros E1 E2 E3.
  destruct (generation_steps_facts _ _ _ _ _ E1 E2 E3)
    as (S & _ & Dcerts & _ & _ & _ & FR & m & o & HC & _).
  apply validate_configuration_true; rewrite S.
  - unfold Fs.exists_. by rewrite HC.
  - exists dir_perms. split; [exact Dcerts | done].
  - destruct FR as (c & mr & or & Hq & _).
    exists "root.ca.pem", (Fs.File c mr or).
    split; [|done]. revert Hq. by autorewrite with paths.
Qed.

Lemma generate_config_returns device_config s :
  ∃ gc s', generate_config device_config s = (Returned gc, s').
Proof.
  unfold generate_config, bind.
  destruct (create_directory_structure_flag s) as (ok1 & s1 & E1 & _).
  rewrite E1. destruct ok1; simpl; [|eauto].
  destruct (write_certificates_flag device_config s1)
    as (ok2 & s2 & E2 & _).
  rewrite E2. destruct ok2; simpl; [|eauto].
  destruct (generate_greengrass_v2_config_flag device_config s2)
    as (ok3 & s3 & E3 & _).
  rewrite E3. destruct ok3; simpl; [|eauto].
  rewrite (validate_after_steps _ _ _ _ _ E1 E2 E3). simpl. eauto.
Qed.

End GeneratorFailures.

(** X12.  [generate_config] never throws, although the directory listing
    of its validation step is not guarded: after three successful steps
    the validation always passes.  The result is successful exactly when
    the first three steps return [true]; it then has an empty error
    message.  A failed result carries the error text of the step that
    failed, which is never empty, and four empty paths. *)
Theorem generate_config_always_returns :
  ∀ (device_config : Database.DeviceConfig) (s : Generator.state),
    ∃ gc s',
      Generator.generate_config device_config s = (Returned gc, s')
      ∧ (Generator.success gc = true
         ↔ ∃ s1 s2,
             Generator.create_directory_structure s = (Returned true, s1)
             ∧ Generator.write_certificates device_config s1
               = (Returned true, s2)
             ∧ Generator.generate_greengrass_v2_config device_config s2
               = (Returned true, s'))
      ∧ (Generator.success gc = true →
         Generator.error_message gc = EmptyString)
      ∧ (Generator.success gc = false →
         Generator.error_message gc ≠ EmptyString
         ∧ Generator.error_message gc
           = Generator.last_error_ (Generator.self s')
         ∧ Generator.config_file_path gc = []
         ∧ Generator.certificate_path gc = []
         ∧ Generator.private_key_path gc = []
         ∧ Generator.root_ca_path gc = []).
Proof.
  intros device_config s. unfold Generator.generate_config, bind.
  destruct (create_directory_structure_flag s) as (ok1 & s1 & E1 & H1).
  rewrite E1. destruct ok1; simpl.
  2:{ eexists _, _. split; [reflexivity|]. simpl.
      split; [split; [done | by intros (? & ? & [=] & _)]|].
      split; [done|]. intros _. split; [by apply H1 | done]. }
  destruct (write_certificates_flag device_config s1)
    as (ok2 & s2 & E2 & H2).
  rewrite E2. destruct ok2; simpl.
  2:{ eexists _, _. split; [reflexivity|]. simpl.
      split; [split; [done|]|].
      { intros (? & ? & [= <-] & E & _). rewrite E in E2. discriminate. }
      split; [done|]. intros _. split; [by apply H2 | done]. }
  destruct (generate_greengrass_v2_config_flag device_config s2)
    as (ok3 & s3 & E3 & H3).
  rewrite E3. destruct ok3; simpl.
  2:{ eexists _, _. split; [reflexivity|]. simpl.
      split; [split; [done|]|].
      { intros (? & ? & [= <-] & E & E'). rewrite E in E2.
        injection E2 as <-. rewrite E' in E3. discriminate. }
      split; [done|]. intros _. split; [by apply H3 | done]. }
  rewrite (validate_after_steps _ _ _ _ _ E1 E2 E3). simpl.
  eexists _, _. split; [reflexivity|]. simpl.
  split; [split; [intros _; by exists s1, s2 | done]|].
  split; done.
Qed.

(** ** Lines of the generated configuration *)

Section ConfigLines.
Import Generator.

Lemma lines_cons line l :
  Str.lines (line :: l) = (line +:+ Str.nl) +:+ Str.lines l.
Proof. cbn [Str.lines fold_right]. by rewrite append_assoc. Qed.

Lemma lines_contains line l :
  line ∈ l → Str.contains (line +:+ Str.nl) (Str.lines l) = true.
Proof.
  induction 1 as [line l|line a l _ IH]; rewrite lines_cons.
  - apply contains_here.
  - by apply contains_app_r.
Qed.

(** The lines of the generated text. *)
Lemma yaml_content_lines g device_config :
  ∃ head tail,
    generate_yaml_config_content g device_config
    = Str.lines
        (head
         ++ [ "    version: "
                +:+ Str.quoted
                      (if Str.is_empty (Database.nucleus_version device_config)
                       then "2.9.0"
                       else Database.nucleus_version device_config);
              "    configuration:";
              "      awsRegion: "
                +:+ Str.quoted (Database.aws_region device_config);
              "      iotRoleAlias: "
                +:+ Str.quoted (Database.role_alias device_config);
              "      iotDataEndpoint: "
                +:+ Str.quoted (Database.iot_endpoint device_config);
              "      iotCredEndpoint: "
                +:+ Str.quoted (Database.role_alias_endpoint device_config) ]
         ++ match Database.mqtt_port device_config with
            | Some port => [ "      mqtt:"; "        port: " +:+ pretty port ]
            | None => []
            end
         ++ match Database.proxy_url device_config with
            | Some url => [ "      networkProxy:"; "        proxy:";
                            "          url: " +:+ Str.quoted url ]
            | None => []
            end
         ++ [ "      logging:"; "        level: " +:+ Str.quoted "INFO";
              "        fileSizeKB: 1024"; "        totalLogsSizeKB: 25600";
              "        format: " +:+ Str.quoted "JSON" ]
         ++ tail)
    ∧ tail = (if negb (Str.is_empty (Database.deployment_group device_config))
              then [ "      deploymentPollingFrequency: 15";
                     "      componentStoreMaxSizeBytes: 10737418240";
                     "      deploymentStatusKeepAliveFrequency: 60" ]
              else []).
Proof.
  unfold generate_yaml_config_content.
  match goal with
  | |- context [Str.lines (?a :: ?b :: ?c :: ?d :: ?e :: ?f :: ?g0 :: ?h
                           :: ?i :: ?j :: ?tl)] =>
      exists [a; b; c; d; e; f; g0; h; i; j]
  end.
  eexists. split; [|reflexivity].
  destruct (negb _), (Database.proxy_url _), (Database.mqtt_port _);
    rewrite <- ?lines_app; f_equal; by rewrite <- ?app_assoc, ?app_nil_r.
Qed.

End ConfigLines.

(** X13.  The optional parts of the generated configuration: a port puts
    the lines [mqtt:] and [port: <port>] in the text, a proxy the three
    lines ending in [url: "<proxy>"], a deployment group the line
    [deploymentPollingFrequency: 15]; the logging lines are always
    there, and so are the lines of the region, the role alias and the
    two endpoints, each with the value of the record between double
    quotes, and the version line, which holds the version of the record
    when it is not empty. *)
Theorem yaml_content_optional_blocks :
  ∀ (g : Generator.ConfigGenerator) (device_config : Database.DeviceConfig),
    let content := Generator.generate_yaml_config_content g device_config in
    let has line := Str.contains (line +:+ Str.nl) content = true in
    (∀ port, Database.mqtt_port device_config = Some port →
             has "      mqtt:" ∧ has ("        port: " +:+ pretty port))
    ∧ (∀ url, Database.proxy_url device_config = Some url →
              has "      networkProxy:" ∧ has "        proxy:"
              ∧ has ("          url: " +:+ Str.quoted url))
    ∧ (Database.deployment_group device_config ≠ EmptyString →
       has "      deploymentPollingFrequency: 15"
       ∧ has "      componentStoreMaxSizeBytes: 10737418240"
       ∧ has "      deploymentStatusKeepAliveFrequency: 60")
    ∧ has "      logging:"
    ∧ has ("        level: " +:+ Str.quoted "INFO")
    ∧ has ("      awsRegion: "
           +:+ Str.quoted (Database.aws_region device_config))
    ∧ has ("      iotRoleAlias: "
           +:+ Str.quoted (Database.role_alias device_config))
    ∧ has ("      iotDataEndpoint: "
           +:+ Str.quoted (Database.iot_endpoint device_config))
    ∧ has ("      iotCredEndpoint: "
           +:+ Str.quoted (Database.role_alias_endpoint device_config))
    ∧ (Database.nucleus_version device_config ≠ EmptyString →
       has ("    version: "
            +:+ Str.quoted (Database.nucleus_version device_config))).
Proof.
  intros g device_config content has. subst has content.
  destruct (yaml_content_lines g device_config) as (head & tail & -> & Et).
  assert (L : ∀ (line : string) (l1 l2 : list string),
               line ∈ l2 → line ∈ l1 ++ l2)
    by (intros; apply elem_of_app; by right).
  assert (Here : ∀ (line : string) (l1 l2 : list string),
                  line ∈ l1 → line ∈ l1 ++ l2)
    by (intros; apply elem_of_app; by left).
  split.
  { intros port ->. split; apply lines_contains; apply L, L, Here;
      by repeat constructor. }
  split.
  { intros url ->. repeat split; apply lines_contains;
      apply L, L, L, Here; by repeat constructor. }
  split.
  { intros ne. rewrite Et.
    destruct (Database.deployment_group device_config); [done|]. simpl negb.
    cbv iota.
    repeat split; apply lines_contains; apply L, L, L, L, L;
      by repeat constructor. }
  split; [apply lines_contains, L, L, L, L, Here; by repeat constructor|].
  split; [apply lines_contains, L, L, L, L, Here; by repeat constructor|].
  split; [apply lines_contains, L, Here; by repeat constructor|].
  split; [apply lines_contains, L, Here; by repeat constructor|].
  split; [apply lines_contains, L, Here; by repeat constructor|].
  split; [apply lines_contains, L, Here; by repeat constructor|].
  intros ne. apply lines_contains, L, Here.
  destruct (Database.nucleus_version device_config); [done|].
  by repeat constructor.
Qed.

(** X14.  The generated configuration text depends on the root and on
    eight fields of the record only: the thing name, the version, the
    region, the role alias, the two endpoints, the port and the proxy,
    and on whether the deployment group is empty.  The name of the
    deployment group, the initial components, the custom domain, the
    device id and the credentials are never written into it. *)
Theorem yaml_content_depends_on :
  ∀ (g : Generator.ConfigGenerator) (a b : Database.DeviceConfig),
    Database.thing_name a = Database.thing_name b →
    Database.nucleus_version a = Database.nucleus_version b →
    Database.aws_region a = Database.aws_region b →
    Database.role_alias a = Database.role_alias b →
    Database.iot_endpoint a = Database.iot_endpoint b →
    Database.role_alias_endpoint a = Database.role_alias_endpoint b →
    Database.mqtt_port a = Database.mqtt_port b →
    Database.proxy_url a = Database.proxy_url b →
    Str.is_empty (Database.deployment_group a)
    = Str.is_empty (Database.deployment_group b) →
    Generator.generate_yaml_config_content g a
    = Generator.generate_yaml_config_content g b.
Proof.
  intros g a b H1 H2 H3 H4 H5 H6 H7 H8 H9.
  unfold Generator.generate_yaml_config_content.
  by rewrite H1, H2, H3, H4, H5, H6, H7, H8, H9.
Qed.

Lemma yaml_content_depends_on_witness :
  Generator.generate_yaml_config_content (Generator.make "/greengrass/v2")
    Examples.thing1
  = Generator.generate_yaml_config_content (Generator.make "/greengrass/v2")
      Examples.thing1_elsewhere.
Proof.
  exact (yaml_content_depends_on (Generator.make "/greengrass/v2")
           Examples.thing1 Examples.thing1_elsewhere
           eq_refl eq_refl eq_refl eq_refl eq_refl eq_refl eq_refl eq_refl
           eq_refl).
Defined.

(** ** The directory structure *)

Section DirectoryStructure.
Import Generator Props.

Lemma permissions_keeps_nodes p X fs r fs' q n :
  Fs.permissions p X fs = (r, fs') →
  Fs.nodes fs !! q = Some n →
  ∃ n', Fs.nodes fs' !! q = Some n' ∧ (q ≠ p → n' = n).
Proof.
  intros E Hq.
  destruct (permissions_cases p X fs) as [(e & E' & _)|(n0 & Hp & _ & E')];
    rewrite E' in E; injection E as <- <-; [by exists n|].
  simpl. destruct (decide (q = p)) as [->|ne].
  - rewrite lookup_insert_eq. eexists. split; [reflexivity | done].
  - rewrite lookup_insert_ne by done. exists n. by split.
Qed.

Lemma create_directory_structure_directories s s' :
  create_directory_structure s = (Returned true, s') →
  let g := self s in
  self s' = g
  ∧ Forall (λ d, Fs.is_directory (fs s') d = true)
      [ greengrass_path_ g; config_path_ g; certs_path_ g; logs_path_ g;
        work_path_ g; Fs.join (greengrass_path_ g) "packages";
        Fs.join (greengrass_path_ g) "deployments";
        Fs.join (greengrass_path_ g) "ggc-root" ]
  ∧ Fs.nodes (fs s') !! certs_path_ g = Some (Fs.Dir dir_perms true)
  ∧ (certs_path_ g ≠ greengrass_path_ g →
     Fs.nodes (fs s') !! greengrass_path_ g = Some (Fs.Dir dir_perms true))
  ∧ ∀ q n, Fs.nodes (fs s) !! q = Some n →
           ∃ n', Fs.nodes (fs s') !! q = Some n'
                 ∧ (q ≠ greengrass_path_ g → q ≠ certs_path_ g → n' = n).
Proof.
  intros E. cbv zeta. unfold create_directory_structure in E.
  apply try_catch_cases in E as [(a & E & [= <-])|(e & s1 & _ & E)].
  2:{ apply bind_returned in E as (? & ? & _ & E). discriminate. }
  apply bind_returned in E as (g & s0 & [[= ->] ->]%gets_inv & E).
  apply bind_returned in E as (? & s1 & [E1 S1]%in_fs_inv & E).
  apply bind_returned in E as (? & s2 & [E2 S2]%in_fs_inv & E).
  apply bind_returned in E as (? & s3 & [E3 S3]%in_fs_inv & E).
  apply bind_returned in E as (? & s4 & [E4 S4]%in_fs_inv & E).
  apply bind_returned in E as (? & s5 & [E5 S5]%in_fs_inv & E).
  apply bind_returned in E as (? & s6 & [E6 S6]%in_fs_inv & E).
  apply bind_returned in E as (? & s7 & [E7 S7]%in_fs_inv & E).
  apply bind_returned in E as (? & s8 & [E8 S8]%in_fs_inv & E).
  apply bind_returned in E as (? & s9 & [E9 S9]%in_fs_inv & E).
  apply bind_returned in E as (? & s10 & [E10 S10]%in_fs_inv & E).
  apply ret_inv in E as [_ ->].
  repeat match goal with x : () |- _ => destruct x end.
  split; [congruence|].
  assert (K : ∀ q, Fs.is_directory (fs s8) q = true →
                   Fs.is_directory (fs s10) q = true).
  { intros q D.
    eapply permissions_keeps_directory; [exact E10|].
    eapply permissions_keeps_directory; [exact E9|]. done. }
  pose proof (create_directories_directory _ _ _ E1) as D1.
  pose proof (create_directories_directory _ _ _ E2) as D2.
  pose proof (create_directories_directory _ _ _ E3) as D3.
  pose proof (create_directories_directory _ _ _ E4) as D4.
  pose proof (create_directories_directory _ _ _ E5) as D5.
  pose proof (create_directories_directory _ _ _ E6) as D6.
  pose proof (create_directories_directory _ _ _ E7) as D7.
  pose proof (create_directories_directory _ _ _ E8) as D8.
  do 7 (eapply create_directories_keeps_directory in D1; [|eassumption]).
  do 6 (eapply create_directories_keeps_directory in D2; [|eassumption]).
  do 5 (eapply create_directories_keeps_directory in D3; [|eassumption]).
  do 4 (eapply create_directories_keeps_directory in D4; [|eassumption]).
  do 3 (eapply create_directories_keeps_directory in D5; [|eassumption]).
  do 2 (eapply create_directories_keeps_directory in D6; [|eassumption]).
  do 1 (eapply create_directories_keeps_directory in D7; [|eassumption]).
  split; [repeat constructor; by apply K|].
  assert (C : Fs.nodes (fs s10) !! certs_path_ (self s)
              = Some (Fs.Dir dir_perms true)).
  { eapply permissions_keeps_directory in D3; [|exact E9].
    apply is_directory_lookup in D3 as (m & o & Hq).
    destruct (permissions_dir _ _ _ _ _ _ _ _ E10 Hq) as (m' & Hq' & _ & Hm).
    destruct (Hm eq_refl eq_refl) as [-> ->]. exact Hq'. }
  split; [exact C|]. split.
  - intros ne. apply is_directory_lookup in D1 as (m & o & Hq).
    destruct (permissions_dir _ _ _ _ _ _ _ _ E9 Hq) as (m' & Hq' & _ & Hm).
    destruct (Hm eq_refl eq_refl) as [-> ->].
    destruct (permissions_dir _ _ _ _ _ _ _ _ E10 Hq') as (m'' & Hq'' & Hne & _).
    rewrite Hq''. by rewrite Hne by congruence.
  - intros q n Hq.
    do 1 (eapply create_directories_extends in Hq; [|exact E1]).
    do 1 (eapply create_directories_extends in Hq; [|exact E2]).
    do 1 (eapply create_directories_extends in Hq; [|exact E3]).
    do 1 (eapply create_directories_extends in Hq; [|exact E4]).
    do 1 (eapply create_directories_extends in Hq; [|exact E5]).
    do 1 (eapply create_directories_extends in Hq; [|exact E6]).
    do 1 (eapply create_directories_extends in Hq; [|exact E7]).
    do 1 (eapply create_directories_extends in Hq; [|exact E8]).
    destruct (permissions_keeps_nodes _ _ _ _ _ _ _ E9 Hq) as (n1 & H1 & N1).
    destruct (permissions_keeps_nodes _ _ _ _ _ _ _ E10 H1) as (n2 & H2 & N2).
    exists n2. split; [done|]. intros ne1 ne2.
    by rewrite (N2 ne2), (N1 ne1).
Qed.

End DirectoryStructure.

(** X15.  When [create_directory_structure] returns [true], the root and
    its seven subdirectories [config], [certs], [logs], [work],
    [packages], [deployments] and [ggc-root] are directories; the root
    and [certs] belong to the process and have mode 0750, so that other
    users cannot list the certificates.  Nothing that was there before
    is removed, and nothing but the modes of the root and of [certs] is
    changed. *)
Theorem create_directory_structure_result :
  ∀ (greengrass_path : string) (fs0 : Fs.filesystem) (s' : Generator.state),
    let root := Fs.path_of_string greengrass_path in
    Generator.create_directory_structure
      {| Generator.self := Generator.make greengrass_path;
         Generator.fs := fs0 |} = (Returned true, s') →
    Forall (λ d, Fs.is_directory (Generator.fs s') d = true)
      [ root; root ++ ["config"]; root ++ ["certs"]; root ++ ["logs"];
        root ++ ["work"]; root ++ ["packages"]; root ++ ["deployments"];
        root ++ ["ggc-root"] ]
    ∧ Fs.nodes (Generator.fs s') !! root = Some (Fs.Dir 488%N true)
    ∧ Fs.nodes (Generator.fs s') !! (root ++ ["certs"])
      = Some (Fs.Dir 488%N true)
    ∧ N.land 488 Fs.others_all = 0%N
    ∧ ∀ q n, Fs.nodes fs0 !! q = Some n →
             ∃ n', Fs.nodes (Generator.fs s') !! q = Some n'
                   ∧ (q ≠ root → q ≠ root ++ ["certs"] → n' = n).
Proof.
  intros greengrass_path fs0 s' root E.
  apply create_directory_structure_directories in E
    as (_ & D & C & R & K).
  simpl in D, C, R, K. autorewrite with paths in D, C, R, K.
  fold root in D, C, R, K.
  split; [exact D|]. split.
  - apply R. intros E. apply (f_equal length) in E.
    rewrite length_app in E. simpl in E. lia.
  - split; [exact C|]. split; [reflexivity | exact K].
Qed.

Lemma create_directory_structure_result_witness :
  Fs.nodes
    (Generator.fs
       (Generator.create_directory_structure
          Examples.generator_on_empty_fs).2)
  !! ["greengrass"; "v2"; "certs"] = Some (Fs.Dir 488%N true).
Proof.
  assert (E : Generator.create_directory_structure
                Examples.generator_on_empty_fs
              = (Returned true,
                 (Generator.create_directory_structure
                    Examples.generator_on_empty_fs).2))
    by (vm_compute; reflexivity).
  exact (proj1 (proj2 (proj2 (create_directory_structure_result
                                "/greengrass/v2" Examples.empty_fs _ E)))).
Defined.

(** ** The list of components *)

Section SplitFacts.
Import Props.

Lemma split_on_no_sep sep s :
  has_char sep s = false → Str.split_on sep s = [s].
Proof.
  induction s as [|a s IH]; [done|]. cbn [has_char Str.split_on].
  intros [-> E]%orb_false_iff. by rewrite (IH E).
Qed.

Lemma split_on_app_sep sep c rest :
  has_char sep c = false →
  Str.split_on sep (c +:+ String sep rest) = c :: Str.split_on sep rest.
Proof.
  induction c as [|a c IH].
  - intros _. change (EmptyString +:+ String sep rest) with (String sep rest).
    cbn [Str.split_on]. by rewrite Ascii.eqb_refl.
  - cbn [has_char]. intros [Ea E]%orb_false_iff.
    rewrite append_cons. cbn [Str.split_on]. by rewrite Ea, (IH E).
Qed.

Lemma split_on_pieces_no_sep sep s :
  Forall (λ c, has_char sep c = false) (Str.split_on sep s).
Proof.
  induction s as [|a s IH]; [by repeat constructor|].
  cbn [Str.split_on]. destruct (Ascii.eqb a sep) eqn:Ea.
  { constructor; [done | exact IH]. }
  destruct (Str.split_on sep s) as [|h t].
  { constructor; [|constructor]. cbn [has_char]. by rewrite Ea. }
  apply Forall_cons in IH as [Hh Ht]. constructor; [|done].
  cbn [has_char]. by rewrite Ea, Hh.
Qed.

End SplitFacts.

(** X16.  The components of a record come from the comma-separated
    column [initial_components]: a NULL or empty column gives no
    component, no component is ever empty or holds a comma (so that
    doubled, leading and trailing commas are dropped), and a list of
    non-empty names without commas, written with commas between them,
    is read back as it was. *)
Theorem parse_components_round_trip :
  (Database.parse_components None = []
   ∧ Database.parse_components (Some EmptyString) = [])
  ∧ (∀ col, Forall Props.component_name (Database.parse_components col))
  ∧ (∀ l, Forall Props.component_name l →
          Database.parse_components (Some (Props.comma_separated l)) = l).
Proof.
  split; [done|]. split.
  - intros [s|]; [|constructor]. unfold Database.parse_components.
    apply Forall_forall. intros c Hin.
    apply list_elem_of_In, filter_In in Hin as [Hin Hc]. split.
    + by destruct c.
    + pose proof (split_on_pieces_no_sep "," s) as F.
      rewrite Forall_forall in F. by apply F, list_elem_of_In.
  - intros l F. unfold Database.parse_components.
    induction F as [|c l [ne Hc] F IH]; [done|].
    destruct l as [|c' l].
    + cbn [Props.comma_separated]. rewrite split_on_no_sep by done.
      simpl. by destruct c.
    + change (Props.comma_separated (c :: c' :: l))
        with (c +:+ String "," (Props.comma_separated (c' :: l))).
      rewrite split_on_app_sep by done. cbn [List.filter].
      assert (negb (Str.is_empty c) = true) as -> by by destruct c.
      by rewrite IH.
Qed.

(** ** Look-ups in the database *)

Section FindFacts.

Lemma find_first {A} (f : A → bool) (l : list A) x :
  List.find f l = Some x →
  ∃ before after,
    l = before ++ x :: after ∧ f x = true
    ∧ Forall (λ y, f y = false) before.
Proof.
  induction l as [|a l IH]; [discriminate|]. simpl.
  destruct (f a) eqn:Fa.
  - intros [= <-]. by exists [], l.
  - intros (before & after & -> & Fx & F)%IH.
    exists (a :: before), after. split; [done|]. split; [done|].
    by constructor.
Qed.

Lemma find_nothing {A} (f : A → bool) (l : list A) :
  List.find f l = None ↔ Forall (λ y, f y = false) l.
Proof.
  induction l as [|a l IH]; simpl; [by split; [constructor|]|].
  destruct (f a) eqn:Fa.
  - split; [discriminate|]. intros [E _]%Forall_cons. congruence.
  - rewrite IH. split; [by constructor | by intros [_ ?]%Forall_cons].
Qed.

End FindFacts.

Section DatabaseLookups.
Import Database.

Lemma select_device_config_first rows id row :
  select_device_config rows id = Some row →
  ∃ before after,
    rows = before ++ row :: after
    ∧ col_device_id row = Some id
    ∧ Forall (λ r', col_device_id r' ≠ Some id) before.
Proof.
  intros (before & after & -> & Hrow%bool_decide_eq_true & Hb)%find_first.
  exists before, after. split; [done|]. split; [done|].
  eapply Forall_impl; [exact Hb|]. intros r'. simpl.
  by rewrite bool_decide_eq_false.
Qed.

Lemma select_device_config_none rows id :
  select_device_config rows id = None
  ↔ Forall (λ r', col_device_id r' ≠ Some id) rows.
Proof.
  unfold select_device_config. rewrite find_nothing.
  apply Forall_iff. intros r'. by rewrite bool_decide_eq_false.
Qed.

Lemma get_device_config_found id d c d' :
  plain_literal id = true →
  get_device_config id d = (Returned (Some c), d') →
  device_id c = id ∧ d' = d.
Proof.
  intros Hid. unfold get_device_config. rewrite Hid.
  destruct (db_ d) as [h|]; [|discriminate].
  destruct (device_config h) as [rows|]; [|discriminate].
  destruct (select_device_config rows id) as [row|] eqn:F; [|discriminate].
  intros [= <- <-]. split; [|done].
  apply select_device_config_first in F as (_ & _ & _ & Hr & _).
  simpl. by rewrite Hr.
Qed.

Lemma select_identifier_first ids x row :
  select_identifier ids x = Some row →
  ∃ before after,
    ids = before ++ row :: after
    ∧ (id_mac_address row = Some x ∨ id_serial_number row = Some x)
    ∧ Forall (λ r, id_mac_address r ≠ Some x ∧ id_serial_number r ≠ Some x)
        before.
Proof.
  intros (before & after & -> & Hrow & Hb)%find_first.
  exists before, after. split; [done|]. split.
  - apply orb_true_iff in Hrow as [H|H]; apply bool_decide_eq_true in H;
      auto.
  - eapply Forall_impl; [exact Hb|]. intros r. simpl.
    intros [H1 H2]%orb_false_iff.
    by apply bool_decide_eq_false in H1, H2.
Qed.

End DatabaseLookups.





(** ** The connectivity result *)

Section ConnectivityFacts.
Import Connectivity.
Variable net : network.

Lemma try_endpoints_spec endpoints tested :
  ∃ failed rest,
    (try_endpoints net endpoints tested).1 = tested ++ failed ++ rest
    ∧ Forall (λ e, check_https_endpoint net e = false) failed
    ∧ (if (try_endpoints net endpoints tested).2
       then ∃ e after, rest = [e] ∧ check_https_endpoint net e = true
                       ∧ endpoints = failed ++ e :: after
       else rest = [] ∧ endpoints = failed)
    ∧ (try_endpoints net endpoints tested).2
      = existsb (check_https_endpoint net) endpoints.
Proof.
  revert tested. induction endpoints as [|e l IH]; intros tested.
  - exists [], []. simpl. by rewrite app_nil_r.
  - simpl. destruct (check_https_endpoint net e) eqn:He; simpl.
    + exists [], [e]. simpl. split; [done|]. split; [constructor|].
      split; [|done]. by exists e, l.
    + destruct (IH (tested ++ [e])) as (failed & rest & E1 & F & E2 & E3).
      exists (e :: failed), rest. rewrite E1, E3.
      split; [by rewrite <- app_assoc|]. split; [by constructor|].
      split; [|done].
      rewrite E3 in E2.
      destruct (existsb _ l).
      * destruct E2 as (e' & after & -> & He' & ->). by exists e', after.
      * by destruct E2 as [-> ->].
Qed.

End ConnectivityFacts.

(** X19.  What [check_connectivity] reports.  The result is connected
    exactly when its error message is empty, and then DNS and HTTPS
    worked and the last endpoint tested answered.  The three flags come
    in order: no HTTPS without DNS, no connection without HTTPS.  The
    endpoints tested are the custom endpoint alone when there is one,
    and otherwise the default endpoints in their order up to the first
    that answers; after a DNS or HTTPS failure none is tested. *)
Theorem check_connectivity_result :
  ∀ (net : Connectivity.network) (c : Connectivity.ConnectivityChecker),
    let r := Connectivity.check_connectivity net c in
    (Connectivity.is_connected r = true
     ↔ Connectivity.error_message r = EmptyString)
    ∧ (Connectivity.is_connected r = true →
       Connectivity.https_works r = true)
    ∧ (Connectivity.https_works r = true → Connectivity.dns_works r = true)
    ∧ (Connectivity.https_works r = false →
       Connectivity.tested_endpoints r = [])
    ∧ (Connectivity.https_works r = true →
       Connectivity.custom_iot_endpoint_ c ≠ EmptyString →
       Connectivity.tested_endpoints r
       = [Connectivity.custom_iot_endpoint_ c])
    ∧ (Connectivity.https_works r = true →
       Connectivity.custom_iot_endpoint_ c = EmptyString →
       ∃ failed rest after,
         Connectivity.tested_endpoints r = failed ++ rest
         ∧ Connectivity.aws_endpoints_ c = failed ++ rest ++ after
         ∧ Forall (λ e, Connectivity.check_https_endpoint net e = false)
             failed
         ∧ (if Connectivity.is_connected r
            then ∃ e, rest = [e]
                      ∧ Connectivity.check_https_endpoint net e = true
            else rest = [] ∧ after = []))
    ∧ Connectivity.is_connected r
      = Connectivity.check_dns_resolution net "amazonaws.com"
        && Connectivity.check_https_endpoint net "https://www.amazontrust.com"
        && Connectivity.check_aws_iot_endpoints net c.
Proof.
  intros net c r. subst r.
  unfold Connectivity.check_connectivity, Connectivity.check_aws_iot_endpoints.
  destruct (Connectivity.check_dns_resolution net "amazonaws.com"); simpl;
    [|by repeat split].
  destruct (Connectivity.check_https_endpoint net
              "https://www.amazontrust.com"); simpl;
    [|by repeat split].
  destruct (Str.is_empty (Connectivity.custom_iot_endpoint_ c)) eqn:Ec;
    simpl.
  - destruct (try_endpoints_spec net (Connectivity.aws_endpoints_ c) [])
      as (failed & rest & E1 & F & E2 & E3).
    destruct (Connectivity.try_endpoints net _ []) as [tested ok].
    simpl in *. subst tested. rewrite <- E3.
    destruct ok; simpl.
    + destruct E2 as (e & after & -> & He & Ea).
      split; [done|]. split; [done|]. split; [done|]. split; [done|].
      split. { intros _ ne. by destruct (Connectivity.custom_iot_endpoint_ c). }
      split; [|done]. intros _ _. exists failed, [e], after.
      split; [done|]. split; [by rewrite Ea|]. split; [done|]. by exists e.
    + destruct E2 as [-> Ea].
      split; [done|]. split; [done|]. split; [done|]. split; [done|].
      split. { intros _ ne. by destruct (Connectivity.custom_iot_endpoint_ c). }
      split; [|done]. intros _ _. exists failed, [], [].
      split; [done|]. split; [by rewrite Ea, !app_nil_r|]. by split.
  - assert (ne : Connectivity.custom_iot_endpoint_ c ≠ EmptyString)
      by (intros E; by rewrite E in Ec).
    destruct (Connectivity.check_https_endpoint net
                (Connectivity.custom_iot_endpoint_ c)); simpl;
      by repeat split.
Qed.

(** X20.  For the checker that the constructor builds, the IoT endpoints
    decide nothing outside the test mode: the last default endpoint is
    the address of the HTTPS test itself, so that (with a network that
    gives the same answer to the same request during the check) the
    result is connected as soon as the name [amazonaws.com] resolves and
    [https://www.amazontrust.com] answers.  In the test mode, which
    needs both [TEST_MODE=true] and [IOT_ENDPOINT], the mock endpoint
    must answer as well, and DNS and the HTTPS test are still made. *)
Theorem constructed_checker_connectivity :
  ∀ (getenv : string → option string) (net : Connectivity.network),
    let test_endpoint :=
      match getenv "TEST_MODE", getenv "IOT_ENDPOINT" with
      | Some test_mode, Some iot_endpoint =>
          if String.eqb test_mode "true" then Some iot_endpoint else None
      | _, _ => None
      end in
    Connectivity.is_connected
      (Connectivity.check_connectivity net (Connectivity.make getenv))
    = Connectivity.resolves net "amazonaws.com"
      && Connectivity.check_https_endpoint net "https://www.amazontrust.com"
      && match test_endpoint with
         | Some iot_endpoint =>
             Connectivity.check_https_endpoint net ("http://" +:+ iot_endpoint)
         | None => true
         end.
Proof.
  intros getenv net test_endpoint. subst test_endpoint.
  assert (Default :
    ∀ c, Connectivity.aws_endpoints_ c
         = [ "https://iot.us-east-1.amazonaws.com";
             "https://iot.us-west-2.amazonaws.com";
             "https://greengrass.us-east-1.amazonaws.com";
             "https://www.amazontrust.com" ] →
         Connectivity.custom_iot_endpoint_ c = EmptyString →
         Connectivity.is_connected (Connectivity.check_connectivity net c)
         = Connectivity.resolves net "amazonaws.com"
           && Connectivity.check_https_endpoint net
                "https://www.amazontrust.com" && true).
  { intros c Ea Ec. unfold Connectivity.check_connectivity.
    unfold Connectivity.check_dns_resolution. rewrite Ea, Ec.
    cbn [Connectivity.try_endpoints app Str.is_empty negb].
    generalize (Connectivity.check_https_endpoint net). intros https.
    destruct (Connectivity.resolves net "amazonaws.com"); simpl; [|done].
    destruct (https "https://www.amazontrust.com") eqn:He; simpl; [|done].
    destruct (https "https://iot.us-east-1.amazonaws.com"); simpl; [done|].
    destruct (https "https://iot.us-west-2.amazonaws.com"); simpl; [done|].
    destruct (https "https://greengrass.us-east-1.amazonaws.com"); simpl;
      done. }
  unfold Connectivity.make.
  destruct (getenv "TEST_MODE") as [test_mode|];
    [|by apply Default].
  destruct (getenv "IOT_ENDPOINT") as [iot_endpoint|];
    [|by apply Default].
  destruct (String.eqb test_mode "true"); [|by apply Default].
  unfold Connectivity.check_connectivity, Connectivity.check_dns_resolution.
  cbn [Connectivity.custom_iot_endpoint_ Connectivity.aws_endpoints_].
  generalize (Connectivity.check_https_endpoint net). intros https.
  change (Str.is_empty ("http://" +:+ iot_endpoint)) with false.
  destruct (Connectivity.resolves net "amazonaws.com"); simpl; [|done].
  destruct (https "https://www.amazontrust.com"); simpl; [|done].
  by destruct (https _).
Qed.

(** ** The run of the provisioner *)

(** A run that stopped before the end: the reports so far, the failed
    result or the exception, and no success. *)
Ltac stopped :=
  split; [by rewrite <- ?app_assoc|];
  split; [first [done | eexists; repeat split; done]|];
  split; [done|];
  intros (r & E & S);
  first [discriminate E | injection E as <-; discriminate S].

(** X21.  [provision] runs its six steps in order and stops at the first
    one that does not return [true].  It reports the start and then each
    further step before running it, with the percentages 0, 20, 40, 60,
    80 and 90, and reports 100 only when all six steps passed.  A step
    that returns [false] gives a failed result with an error text and
    the last step completed (the failed download still counts
    [INITIALIZING] as completed); a step that throws makes [provision]
    throw; the result is successful exactly when all six steps return
    [true]. *)
Theorem provision_reports_and_result :
  ∀ (os : Provisioner.os_steps)
    (log : list (Provisioner.ProvisioningStep * Z * string)),
    let run := Provisioner.provision Props.record_progress os log in
    let n := Props.passed (Props.step_results os) in
    run.2 = log ++ take (S n) Props.progress_reports
    ∧ match Props.step_results os !! n with
      | None =>
          run.1 = Returned
                    {| Provisioner.success := true;
                       Provisioner.last_completed_step :=
                         Provisioner.COMPLETED;
                       Provisioner.error_message := EmptyString;
                       Provisioner.greengrass_service_name := "greengrass" |}
      | Some (Returned _) =>
          ∃ r, run.1 = Returned r
               ∧ Provisioner.success r = false
               ∧ Provisioner.error_message r ≠ EmptyString
               ∧ Some (Provisioner.last_completed_step r)
                 = (λ report, report.1.1)
                   <$> Props.progress_reports !! pred n
      | Some (Thrown e) => run.1 = Thrown e
      end
    ∧ (n = 6%nat ↔ ∃ r, run.1 = Returned r ∧ Provisioner.success r = true).
Proof.
  intros os log run n. subst run n.
  unfold Props.step_results, Provisioner.provision,
    Provisioner.report_progress, Props.record_progress, bind, modify,
    reads, ret.
  destruct os as [u d i c s v]. simpl.
  destruct u as [[]|]; simpl; [|by stopped..].
  destruct d as [[]|]; simpl; [|by stopped..].
  destruct i as [[]|]; simpl; [|by stopped..].
  destruct c as [[]|]; simpl; [|by stopped..].
  destruct s as [[]|]; simpl; [|by stopped..].
  destruct v as [[]|]; simpl; [|by stopped..].
  split; [by rewrite <- !app_assoc|]. split; [done|].
  split; [intros _; by eexists | done].
Qed.

(** ** The device identifier *)

Section IdentifierFacts.
Import Props.

Lemma remove_char_removes c s : has_char c (Str.remove_char c s) = false.
Proof.
  induction s as [|a s IH]; [done|]. cbn [Str.remove_char].
  destruct (Ascii.eqb a c) eqn:E; [done|]. cbn [has_char]. by rewrite E, IH.
Qed.

Lemma remove_char_keeps_absent c b s :
  has_char b s = false → has_char b (Str.remove_char c s) = false.
Proof.
  induction s as [|a s IH]; [done|]. cbn [has_char Str.remove_char].
  intros [Ea E]%orb_false_iff.
  destruct (Ascii.eqb a c); [by apply IH|]. cbn [has_char].
  by rewrite Ea, IH.
Qed.

Lemma first_line_no_line_feed s : has_char "010" (Str.first_line s) = false.
Proof.
  induction s as [|a s IH]; [done|]. cbn [Str.first_line].
  destruct (Ascii.eqb a "010") eqn:E; [done|]. cbn [has_char].
  by rewrite E, IH.
Qed.

Lemma getline_no_line_feed f : has_char "010" (Fs.getline f) = false.
Proof. destruct f; [apply first_line_no_line_feed | done]. Qed.

End IdentifierFacts.

(** X22.  The device identifier of [main].  When the address file of
    [eth0] opens, the identifier is its first line without the colons,
    whatever that line is: it holds no colon and no line feed, and it is
    empty for an empty file, in which case the host name is not asked
    for.  Only when the file does not open is the identifier the host
    name, and "default-device" when the host name cannot be had. *)
Theorem device_identifier_sources :
  ∀ (env : Main.environment) (fs : Fs.filesystem),
    let address := ["sys"; "class"; "net"; "eth0"; "address"] in
    let id := Main.get_device_identifier env fs in
    (∀ mac_file, Fs.ifstream fs address = Some mac_file →
       id = Str.remove_char ":" (Fs.getline mac_file)
       ∧ Props.has_char ":" id = false
       ∧ Props.has_char "010" id = false)
    ∧ (Fs.ifstream fs address = Some (Fs.Chars EmptyString) →
       id = EmptyString)
    ∧ (Fs.ifstream fs address = None →
       id = default "default-device" (Main.gethostname env)).
Proof.
  intros env fs address id. subst id address.
  unfold Main.get_device_identifier.
  change (Fs.path_of_string "/sys/class/net/eth0/address")
    with ["sys"; "class"; "net"; "eth0"; "address"].
  destruct (Fs.ifstream fs _) as [f|].
  - split; [|split; [by intros [= ->] | done]].
    intros ? [= <-]. split; [done|]. split.
    + apply remove_char_removes.
    + apply remove_char_keeps_absent, getline_no_line_feed.
  - split; [done|]. split; [done|]. intros _.
    by destruct (Main.gethostname env).
Qed.

(** ** Exit code and final status *)

Section MainRun.
Context `{Externals}.
Variable env : Main.environment.
Import Main Props.

Lemma main_update_status_reported st msg progress s s' :
  update_status env st msg progress s = (Returned (), s') →
  Status.status (reported s') = st
  ∧ Status.progress_percentage (reported s')
    = (if (0 <=? progress)%Z && (progress <=? 100)%Z then progress
       else Status.auto_progress st (Status.progress_percentage (reported s)))
  ∧ Status.error_details (reported s')
    = (if decide (st ≠ Status.ERROR) then EmptyString
       else Status.error_details (reported s)).
Proof.
  unfold update_status, on_reporter, reported.
  pose proof (update_status_current (now env) st msg progress
                {| Status.reporter := status_reporter s;
                   Status.fs := fs s |}) as C.
  destruct (Status.update_status _ _ _ _ _) as [r s1]; simpl in *.
  intros [= _ <-]. simpl. unfold Props.current in C. by rewrite C.
Qed.

Lemma report_error_reported msg details s :
  ∃ s', (on_reporter (Status.report_error (now env) msg details) ;;;
         ret 1%Z) s = (Returned 1%Z, s')
        ∧ Status.status (reported s') = Status.ERROR
        ∧ Status.message (reported s') = msg
        ∧ Status.error_details (reported s') = details
        ∧ Status.progress_percentage (reported s')
          = Status.progress_percentage (reported s).
Proof.
  unfold bind, on_reporter, reported, ret.
  pose proof (report_error_current (now env) msg details
                {| Status.reporter := status_reporter s;
                   Status.fs := fs s |}) as C.
  pose proof (write_status_file_returns) as W.
  unfold Status.report_error, bind, modify in *.
  match goal with |- context [Status.write_status_file ?x] =>
    specialize (W x); destruct (Status.write_status_file x) as [[[]|e] s2]
  end; simpl in *; [|discriminate].
  eexists. split; [reflexivity|]. simpl. unfold Props.current in C.
  by rewrite C.
Qed.

Lemma on_database_state {A} d (m : M Database.ConfigDatabase A) s r s' :
  on_database d m s = (r, s') → s' = s.
Proof.
  unfold on_database. destruct (m d) as [[a|e] d']; by intros [= _ <-].
Qed.

Lemma try_block_returned options s code s' :
  try_block env options s = (Returned code, s') →
  (code = 0%Z ∧ Status.progress_percentage (reported s') = 100%Z
   ∧ Status.error_details (reported s') = EmptyString
   ∧ (Status.status (reported s') = Status.ALREADY_PROVISIONED
      ∨ Status.status (reported s') = Status.COMPLETED))
  ∨ (code = 2%Z ∧ Status.status (reported s') = Status.NO_CONNECTIVITY
     ∧ Status.progress_percentage (reported s') = 20%Z
     ∧ Status.error_details (reported s') = EmptyString).
Proof.
  intros E. unfold try_block in E.
  apply bind_returned in E as (? & s1 & E1 & E).
  apply bind_returned in E as (prov_status & s2 & E2 & E).
  destruct (Checker.is_provisioned prov_status).
  { left. apply bind_returned in E as ([] & s3 & E3 & E).
    apply ret_inv in E as [[= <-] ->].
    apply main_update_status_reported in E3 as (St & Pr & De).
    rewrite St, Pr, De. simpl. auto. }
  apply bind_returned in E as (? & s3 & _ & E).
  destruct (Connectivity.is_connected _); simpl in E.
  2:{ right. apply bind_returned in E as ([] & s4 & E4 & E).
      apply ret_inv in E as [[= <-] ->].
      apply main_update_status_reported in E4 as (St & Pr & De).
      rewrite St, Pr, De. simpl. auto. }
  left.
  do 11 (apply bind_returned in E as (? & ? & _ & E);
         try match type of E with
             | (let '(_, _) := ?x in _) _ = _ => destruct x
             end).
  apply bind_returned in E as ([] & s15 & E15 & E).
  apply bind_returned in E as (? & s16 & E16 & E).
  apply ret_inv in E as [[= <-] ->].
  apply on_database_state in E16 as ->.
  apply main_update_status_reported in E15 as (St & Pr & De).
  rewrite St, Pr, De. simpl. auto.
Qed.

End MainRun.

(** X23.  Once the reporter is built, [main] ends with exit code 0, 1 or
    2, and the status that the reporter holds at that moment tells which:
    with 0 the phase is [ALREADY_PROVISIONED] or [COMPLETED] and the
    progress is 100; with 2 the phase is [NO_CONNECTIVITY] and the
    progress is 20; with 1 the phase is [ERROR], the message is
    "Provisioning failed" and the error detail is the text of the
    exception that left the [try] block.  In the first two cases there
    is no error detail. *)
Theorem exit_code_and_final_status :
  ∀ (ext : Externals) (env : Main.environment)
    (options : Main.ProgramOptions) (s : Main.state),
    (∀ fs0, Main.parsed_arguments env = Some options →
            Status.make (Main.now env) (Main.status_file options) fs0
            = (Returned (Main.status_reporter s), Main.fs s) →
            ∃ code s',
              Props.guarded_run env options s = (Returned code, s')
              ∧ Main.main env fs0 = (Main.Exit code, Main.fs s'))
    ∧ ∃ code s',
        Props.guarded_run env options s = (Returned code, s')
        ∧ ((code = 0%Z
            ∧ (Status.status (Props.reported s')
               = Status.ALREADY_PROVISIONED
               ∨ Status.status (Props.reported s') = Status.COMPLETED)
            ∧ Status.progress_percentage (Props.reported s') = 100%Z
            ∧ Status.error_details (Props.reported s') = EmptyString)
           ∨ (code = 2%Z
              ∧ Status.status (Props.reported s') = Status.NO_CONNECTIVITY
              ∧ Status.progress_percentage (Props.reported s') = 20%Z
              ∧ Status.error_details (Props.reported s') = EmptyString)
           ∨ (code = 1%Z
              ∧ Status.status (Props.reported s') = Status.ERROR
              ∧ Status.message (Props.reported s') = "Provisioning failed"
              ∧ ∃ s1,
                  Main.try_block env options s
                  = (Thrown (Status.error_details (Props.reported s')), s1)
                  ∧ Status.progress_percentage (Props.reported s')
                    = Status.progress_percentage (Props.reported s1))).
Proof.
  intros ext env options s.
  assert (R : ∃ code s',
    Props.guarded_run env options s = (Returned code, s')
    ∧ ((code = 0%Z
        ∧ (Status.status (Props.reported s') = Status.ALREADY_PROVISIONED
           ∨ Status.status (Props.reported s') = Status.COMPLETED)
        ∧ Status.progress_percentage (Props.reported s') = 100%Z
        ∧ Status.error_details (Props.reported s') = EmptyString)
       ∨ (code = 2%Z
          ∧ Status.status (Props.reported s') = Status.NO_CONNECTIVITY
          ∧ Status.progress_percentage (Props.reported s') = 20%Z
          ∧ Status.error_details (Props.reported s') = EmptyString)
       ∨ (code = 1%Z
          ∧ Status.status (Props.reported s') = Status.ERROR
          ∧ Status.message (Props.reported s') = "Provisioning failed"
          ∧ ∃ s1,
              Main.try_block env options s
              = (Thrown (Status.error_details (Props.reported s')), s1)
              ∧ Status.progress_percentage (Props.reported s')
                = Status.progress_percentage (Props.reported s1)))).
  { unfold Props.guarded_run, try_catch.
    destruct (Main.try_block env options s) as [[code|what] s1] eqn:E.
    - exists code, s1. split; [done|].
      apply try_block_returned in E
        as [(-> & Pr & De & St)|(-> & St & Pr & De)]; [left | right; left];
        done.
    - destruct (report_error_reported env "Provisioning failed" what s1)
        as (s' & E' & St & Ms & De & Pr).
      exists 1%Z, s'. split; [exact E'|]. right. right.
      split; [done|]. split; [done|]. split; [done|].
      exists s1. by rewrite De. }
  split; [|exact R].
  intros fs0 Pa Mk. destruct R as (code & s' & E & _).
  exists code, s'. split; [done|].
  unfold Main.main. rewrite Pa, Mk.
  unfold Props.guarded_run in E. destruct s as [r f]. simpl. by rewrite E.
Qed.

(** ** Exceptions of the run *)

Section ProvisionOutcome.
Context {S : Type}.
Variable callback : Provisioner.ProvisioningStep → Z → string → M S ().
Variable kept : S → Prop.
Hypothesis callback_returns :
  ∀ step percentage msg s,
    ∃ s', callback step percentage msg s = (Returned (), s') ∧ kept s'.
Variable os : Provisioner.os_steps.

Lemma provision_outcome s :
  let run := Provisioner.provision callback os s in
  kept run.2
  ∧ (∀ e, run.1 = Thrown e → Thrown e ∈ Props.step_results os)
  ∧ (∀ r, run.1 = Returned r → Provisioner.success r = false →
          Provisioner.error_message r ∈ Props.provision_errors).
Proof.
  unfold Provisioner.provision, Provisioner.report_progress,
    Props.step_results, Props.provision_errors, bind, reads, ret.
  destruct os as [u d i c st v]. simpl.
  assert (Stop : ∀ (o : outcome Provisioner.ProvisioningResult)
                   (l : list (outcome bool)) (errors : list string) s',
            kept s' →
            match o with
            | Returned r =>
                Provisioner.success r = false →
                Provisioner.error_message r ∈ errors
            | Thrown e => Thrown e ∈ l
            end →
            kept s'
            ∧ (∀ e, o = Thrown e → Thrown e ∈ l)
            ∧ (∀ r, o = Returned r → Provisioner.success r = false →
                    Provisioner.error_message r ∈ errors)).
  { intros o l errors s' Hs Ho. split; [done|]. split.
    - by intros e ->.
    - by intros r ->. }
  destruct (callback_returns Provisioner.INITIALIZING 0
              "Initializing provisioning process" s) as (s1 & -> & Ks1).
  simpl. destruct u as [[]|]; simpl;
    [|apply Stop; [done|]; simpl; intros; by repeat constructor..].
  destruct (callback_returns Provisioner.DOWNLOADING_NUCLEUS 20
              "Downloading Greengrass nucleus" s1) as (s2 & -> & Ks2).
  simpl. destruct d as [[]|]; simpl;
    [|apply Stop; [done|]; simpl; intros; by repeat constructor..].
  destruct (callback_returns Provisioner.INSTALLING_NUCLEUS 40
              "Installing Greengrass nucleus" s2) as (s3 & -> & Ks3).
  simpl. destruct i as [[]|]; simpl;
    [|apply Stop; [done|]; simpl; intros; by repeat constructor..].
  destruct (callback_returns Provisioner.CONFIGURING_SYSTEMD 60
              "Configuring systemd service" s3) as (s4 & -> & Ks4).
  simpl. destruct c as [[]|]; simpl;
    [|apply Stop; [done|]; simpl; intros; by repeat constructor..].
  destruct (callback_returns Provisioner.STARTING_SERVICE 80
              "Starting Greengrass service" s4) as (s5 & -> & Ks5).
  simpl. destruct st as [[]|]; simpl;
    [|apply Stop; [done|]; simpl; intros; by repeat constructor..].
  destruct (callback_returns Provisioner.VERIFYING_CONNECTION 90
              "Verifying Greengrass connection" s5) as (s6 & -> & Ks6).
  simpl. destruct v as [[]|]; simpl;
    [|apply Stop; [done|]; simpl; intros; by repeat constructor..].
  destruct (callback_returns Provisioner.COMPLETED 100
              "Provisioning completed successfully" s6) as (s7 & -> & Ks7).
  simpl. apply Stop; [done|]. simpl. discriminate.
Qed.

End ProvisionOutcome.

Section MainExceptions.
Context `{Externals}.
Variable env : Main.environment.
Import Main Props.

Lemma on_generator_reporter {A} g (m : M Generator.state A) s r s' :
  on_generator g m s = (r, s') → status_reporter s' = status_reporter s.
Proof.
  unfold on_generator. destruct (m _) as [r1 s1]. by intros [= _ <-].
Qed.

Lemma connect_make_inv path s r s' :
  on_database (Database.make path) (Database.connect (sqlite3_open env)) s
  = (r, s') →
  s' = s
  ∧ ∃ connected d,
      r = Returned (connected, d)
      ∧ (connected = false → sqlite3_open env path = None).
Proof.
  intros E. split; [by apply on_database_state in E|].
  revert E. unfold on_database, Database.connect, Database.make. simpl.
  destruct (sqlite3_open env path); intros [= <- _];
    eexists _, _; (split; [reflexivity|]); done.
Qed.

Lemma find_device_config_inv d device_id s r s' :
  find_device_config d device_id s = (r, s') →
  s' = s
  ∧ (r = Thrown "No device configuration found in database"
     ∨ ∃ found, r = Returned found).
Proof.
  unfold find_device_config, bind, on_database.
  destruct (get_device_config_by_identifier_returns device_id d)
    as (r1 & d1 & ->).
  destruct r1 as [c|]; simpl; [intros [= <- <-]; eauto|].
  destruct (get_device_config_returns "default" d1) as (r2 & d2 & ->).
  destruct r2 as [c|]; simpl; intros [= <- <-]; eauto.
Qed.

Lemma on_generator_generate_config_returns g device_config s what s' :
  on_generator g (Generator.generate_config device_config) s
  ≠ (Thrown what, s').
Proof.
  unfold on_generator.
  destruct (generate_config_returns device_config
              {| Generator.self := g; Generator.fs := fs s |})
    as (gc & sg & ->).
  discriminate.
Qed.

(** The callback that [main] gives to [provision] returns, and leaves
    the phase [PROVISIONING]. *)
Lemma provision_callback_returns
    (step : Provisioner.ProvisioningStep) percentage msg s :
  ∃ s', update_status env Status.PROVISIONING msg percentage s
        = (Returned (), s')
        ∧ Status.status (reported s') = Status.PROVISIONING.
Proof.
  eexists. split; [apply main_update_status_returns|].
  eapply main_update_status_reported, main_update_status_returns.
Qed.

End MainExceptions.

(** An [update_status] of [main] in hypothesis [E] cannot have thrown. *)
Ltac status_returns E :=
  rewrite main_update_status_returns in E; discriminate E.

(** X24.  An exception leaves the [try] block of [main] in one of four
    phases, and the phase that the reporter holds at that moment limits
    what it is.  In [CHECKING_PROVISIONING] it is the exception of the
    provisioning check.  In [READING_DATABASE] it is "Failed to connect
    to database: ..." after the database file could not be opened, or
    "No device configuration found in database".  In [GENERATING_CONFIG]
    it is "Failed to generate configuration: ...".  In [PROVISIONING] it
    is "Provisioning failed: ..." with the error text of a failed step,
    or the exception of a step. *)
Theorem try_block_exceptions :
  ∀ (ext : Externals) (env : Main.environment)
    (options : Main.ProgramOptions) (s s' : Main.state) (what : string),
    Main.try_block env options s = (Thrown what, s') →
    (Status.status (Props.reported s') = Status.CHECKING_PROVISIONING
     ∧ Checker.check_provisioning_status
         (Checker.make (Main.greengrass_path options)) (Main.fs s')
       = Thrown what)
    ∨ (Status.status (Props.reported s') = Status.READING_DATABASE
       ∧ ((Main.sqlite3_open env (Main.database_path options) = None
           ∧ ∃ detail, what = "Failed to connect to database: " +:+ detail)
          ∨ what = "No device configuration found in database"))
    ∨ (Status.status (Props.reported s') = Status.GENERATING_CONFIG
       ∧ ∃ detail, what = "Failed to generate configuration: " +:+ detail)
    ∨ (Status.status (Props.reported s') = Status.PROVISIONING
       ∧ ((∃ detail, detail ∈ Props.provision_errors
                     ∧ what = "Provisioning failed: " +:+ detail)
          ∨ Thrown what ∈ Props.step_results (Main.os env))).
Proof.
  intros ext env options s s' what E. unfold Main.try_block in E.
  apply bind_thrown in E as [E|([] & s1 & E1 & E)]; [status_returns E|].
  apply main_update_status_reported in E1 as (E1 & _ & _).
  apply bind_thrown in E as [E|(prov_status & s2 & E2 & E)].
  { apply reads_inv in E as [Ew ->]. left. by split. }
  apply reads_inv in E2 as [_ ->].
  destruct (Checker.is_provisioned prov_status).
  { apply bind_thrown in E as [E|(? & ? & _ & E)]; [status_returns E|].
    discriminate E. }
  apply bind_thrown in E as [E|([] & s3 & _ & E)]; [status_returns E|].
  destruct (Connectivity.is_connected _); simpl in E.
  2:{ apply bind_thrown in E as [E|(? & ? & _ & E)]; [status_returns E|].
      discriminate E. }
  apply bind_thrown in E as [E|([] & s4 & E4 & E)]; [status_returns E|].
  apply main_update_status_reported in E4 as (E4 & _ & _).
  right.
  apply bind_thrown in E as [E|(opened & s5 & E5 & E)].
  { apply connect_make_inv in E as (_ & ? & ? & [=] & _). }
  apply connect_make_inv in E5 as (-> & connected & d & [= ->] & Hc).
  apply bind_thrown in E as [E|([] & s6 & E6 & E)].
  { destruct connected; [discriminate E|]. injection E as <- <-.
    left. split; [done|]. left. split; [by apply Hc | eauto]. }
  assert (s6 = s4) as ->.
  { destruct connected; [|discriminate E6]. by injection E6. }
  apply bind_thrown in E as [E|(device_id & s7 & E7 & E)];
    [discriminate E|].
  apply gets_inv in E7 as [_ ->].
  apply bind_thrown in E as [E|(found & s8 & E8 & E)].
  { apply find_device_config_inv in E as (-> & [[= ->]|(? & [=])]).
    left. split; [done|]. by right. }
  apply find_device_config_inv in E8 as (-> & _).
  destruct found as [device_config d'].
  apply bind_thrown in E as [E|([] & s9 & E9 & E)]; [status_returns E|].
  apply main_update_status_reported in E9 as (E9 & _ & _).
  right.
  apply bind_thrown in E as [E|(generated_config & s10 & E10 & E)].
  { by apply on_generator_generate_config_returns in E. }
  apply on_generator_reporter in E10.
  apply bind_thrown in E as [E|([] & s11 & E11 & E)].
  { destruct (Generator.success generated_config); [discriminate E|].
    injection E as <- <-. left. unfold Props.reported. rewrite E10.
    split; [exact E9 | eauto]. }
  right.
  apply bind_thrown in E as [E|([] & s12 & _ & E)]; [status_returns E|].
  destruct (provision_outcome
              (λ _ percentage msg,
                 Main.update_status env Status.PROVISIONING msg percentage)
              (λ st, Status.status (Props.reported st) = Status.PROVISIONING)
              (λ step percentage msg st,
                 provision_callback_returns env step percentage msg st)
              (Main.os env) s12) as (Kept & Thr & Ret).
  apply bind_thrown in E as [E|(prov_result & s13 & E13 & E)].
  { rewrite E in *. split; [exact Kept|]. right. by apply Thr. }
  rewrite E13 in *. simpl in *.
  apply bind_thrown in E as [E|([] & s14 & E14 & E)].
  { destruct (Provisioner.success prov_result) eqn:Su; [discriminate E|].
    injection E as <- <-. split; [exact Kept|]. left.
    exists (Provisioner.error_message prov_result). split; [|done].
    by apply Ret. }
  apply bind_thrown in E as [E|([] & s15 & _ & E)]; [status_returns E|].
  apply bind_thrown in E as [E|(? & s16 & _ & E)]; [|discriminate E].
  unfold Main.on_database, Database.disconnect, modify in E. discriminate E.
Qed.

Lemma try_block_exceptions_witness :
  let run := Main.try_block (H := Examples.externals)
               Examples.environment_without_database
               Examples.options_status_below_file
               Examples.fresh_main_state in
  run.1 = Thrown "Failed to connect to database: Cannot open database"
  ∧ Status.status (Props.reported run.2) = Status.READING_DATABASE.
Proof.
  set (run := Main.try_block (H := Examples.externals)
                Examples.environment_without_database
                Examples.options_status_below_file
                Examples.fresh_main_state).
  assert (E : run
              = (Thrown "Failed to connect to database: Cannot open database",
                 run.2))
    by (vm_compute; reflexivity).
  split; [by rewrite E|].
  destruct (try_block_exceptions Examples.externals
              Examples.environment_without_database
              Examples.options_status_below_file
              Examples.fresh_main_state run.2 _ E)
    as [[_ C]|[[R _]|[[_ [d G]]|[_ [(d & _ & P)|S]]]]].
  - vm_compute in C. discriminate C.
  - exact R.
  - discriminate G.
  - discriminate P.
  - vm_compute in S. repeat (apply elem_of_cons in S as [S|S];
                             [discriminate S|]).
    by apply elem_of_nil in S.
Defined.
